(** * Screenshot automation: plan engine, review pipeline, coalescer

    A shallow embedding of the Go package [internal/screenshots]
    (plan execution in run.go, the review/approval pipeline, the AXe
    provider and the generation coalescer) together with the properties
    the specification states about them.

    Layout: the part of the Go standard library the package relies on,
    JSON documents, the environment the program talks to, the program
    itself, and last the theorems. *)

From Stdlib Require Import ZArith NArith Ascii String List Bool Lia.
From Stdlib Require Import DecimalString.
From Stdlib Require Import Floats.SpecFloat.
From stdpp Require Import base option list gmap strings fin_maps sorting.

#[local] Set Warnings "-register-all".

Local Open Scope string_scope.
Local Open Scope Z_scope.

Definition newline : string := String (ascii_of_N 10) EmptyString.

(** ** Go strings

    A Go [string] is a sequence of bytes; Rocq's [string] is the same
    thing.  [int] and [int64] are 64-bit two's-complement integers. *)

Definition byte (c : ascii) : N := N_of_ascii c.
Definition char (b : N) : ascii := ascii_of_N b.

Fixpoint bytes (s : string) : list N :=
  match s with
  | EmptyString => []
  | String c s' => byte c :: bytes s'
  end.

Fixpoint ofBytes (l : list N) : string :=
  match l with
  | [] => EmptyString
  | b :: l' => String (char b) (ofBytes l')
  end.

Fixpoint dropBytes (n : nat) (s : string) : string :=
  match n, s with
  | O, _ => s
  | S n', String _ s' => dropBytes n' s'
  | S _, EmptyString => EmptyString
  end.

Fixpoint takeBytes (n : nat) (s : string) : string :=
  match n, s with
  | S n', String c s' => String c (takeBytes n' s')
  | _, _ => EmptyString
  end.

(** [len(s)], as a Go [int]. *)
Definition len (s : string) : Z := Z.of_nat (String.length s).

(** Wrap-around of 64-bit signed arithmetic. *)
Definition wrap64 (z : Z) : Z := (z + 2 ^ 63) mod 2 ^ 64 - 2 ^ 63.

(** The tables and formatters of the Go runtime that are not reproduced
    here.  Code points below U+0080 never reach the Unicode tables: the
    ASCII part of every function below is written out. *)
Class GoLib := {
  (** [unicode.IsLetter] on code points from U+0080 upwards *)
  unicodeLetter : N -> bool;
  (** [unicode.ToLower] on code points from U+0080 upwards *)
  unicodeLower : N -> N;
  (** whether two distinct code points, the larger one from U+0080
      upwards, lie on one [unicode.SimpleFold] orbit *)
  unicodeFold : N -> N -> bool;
  (** [%v] of a float64 *)
  formatFloatV : spec_float -> string;
  (** [strconv.FormatFloat(x, 'f', -1, 64)] *)
  formatFloatF : spec_float -> string;
  (** [%q] of a string *)
  quote : string -> string;
}.

Module utf8.

Definition RuneError : N := 0xFFFD%N.
Definition RuneSelf : N := 0x80%N.
Definition MaxRune : N := 0x10FFFF%N.

(** The [first] table of package utf8: for a leading byte, the length of
    the sequence it starts and the range accepted for the second byte. *)
Definition first (b0 : N) : option (nat * N * N) :=
  (if (0xC2 <=? b0) && (b0 <=? 0xDF) then Some (2%nat, 0x80, 0xBF)
   else if b0 =? 0xE0 then Some (3%nat, 0xA0, 0xBF)
   else if (0xE1 <=? b0) && (b0 <=? 0xEC) then Some (3%nat, 0x80, 0xBF)
   else if b0 =? 0xED then Some (3%nat, 0x80, 0x9F)
   else if (0xEE <=? b0) && (b0 <=? 0xEF) then Some (3%nat, 0x80, 0xBF)
   else if b0 =? 0xF0 then Some (4%nat, 0x90, 0xBF)
   else if (0xF1 <=? b0) && (b0 <=? 0xF3) then Some (4%nat, 0x80, 0xBF)
   else if b0 =? 0xF4 then Some (4%nat, 0x80, 0x8F)
   else None)%N.

Definition outside (lo hi b : N) : bool := ((b <? lo) || (hi <? b))%N.

(** [utf8.DecodeRuneInString]: the first rune of [s] and its width; an
    invalid or truncated sequence decodes as [(RuneError, 1)]. *)
Definition DecodeRuneInString (s : string) : N * nat :=
  match bytes s with
  | [] => (RuneError, 0%nat)
  | b0 :: rest =>
    if (b0 <? RuneSelf)%N then (b0, 1%nat)
    else
      match first b0 with
      | None => (RuneError, 1%nat)
      | Some (sz, lo, hi) =>
        if (S (List.length rest) <? sz)%nat then (RuneError, 1%nat)
        else
          match rest with
          | [] => (RuneError, 1%nat)
          | b1 :: rest1 =>
            if outside lo hi b1 then (RuneError, 1%nat)
            else if (sz <=? 2)%nat then
              (N.lor (N.shiftl (N.land b0 0x1F) 6) (N.land b1 0x3F), 2%nat)
            else
              match rest1 with
              | [] => (RuneError, 1%nat)
              | b2 :: rest2 =>
                if outside 0x80 0xBF b2 then (RuneError, 1%nat)
                else if (sz <=? 3)%nat then
                  (N.lor (N.shiftl (N.land b0 0x0F) 12)
                     (N.lor (N.shiftl (N.land b1 0x3F) 6) (N.land b2 0x3F)),
                   3%nat)
                else
                  match rest2 with
                  | [] => (RuneError, 1%nat)
                  | b3 :: _ =>
                    if outside 0x80 0xBF b3 then (RuneError, 1%nat)
                    else
                      (N.lor (N.shiftl (N.land b0 0x07) 18)
                         (N.lor (N.shiftl (N.land b1 0x3F) 12)
                            (N.lor (N.shiftl (N.land b2 0x3F) 6)
                               (N.land b3 0x3F))),
                       4%nat)
                  end
              end
          end
      end
  end.

(** [utf8.RuneStart] *)
Definition RuneStart (b : N) : bool := negb (N.land b 0xC0 =? 0x80)%N.

(** The backwards scan of [DecodeLastRuneInString]: from [start] down to
    [lim], stop at the first byte that can start a rune. *)
Fixpoint scanStart (fuel : nat) (s : string) (start lim : Z) : Z :=
  match fuel with
  | O => start
  | S fuel' =>
    if start <? lim then start
    else
      match String.get (Z.to_nat start) s with
      | Some c => if RuneStart (byte c) then start
                  else scanStart fuel' s (start - 1) lim
      | None => start
      end
  end.

(** [utf8.DecodeLastRuneInString] *)
Definition DecodeLastRuneInString (s : string) : N * nat :=
  let stop := len s in
  if stop =? 0 then (RuneError, 0%nat)
  else
    match String.get (Z.to_nat (stop - 1)) s with
    | None => (RuneError, 0%nat)
    | Some c =>
      if (byte c <? RuneSelf)%N then (byte c, 1%nat)
      else
        let lim := Z.max 0 (stop - 4) in
        let start := Z.max 0 (scanStart 4 s (stop - 2) lim) in
        let '(r, size) := DecodeRuneInString (dropBytes (Z.to_nat start) s) in
        if start + Z.of_nat size =? stop then (r, size)
        else (RuneError, 1%nat)
    end.

(** [utf8.AppendRune] *)
Definition EncodeRune (r : N) : list N :=
  let three (r : N) :=
    [N.lor 0xE0 (N.shiftr r 12);
     N.lor 0x80 (N.land (N.shiftr r 6) 0x3F);
     N.lor 0x80 (N.land r 0x3F)]%N in
  (if r <=? 0x7F then [r]
   else if r <=? 0x7FF then
     [N.lor 0xC0 (N.shiftr r 6); N.lor 0x80 (N.land r 0x3F)]
   else if (MaxRune <? r) || ((0xD800 <=? r) && (r <=? 0xDFFF)) then
     three RuneError
   else if r <=? 0xFFFF then three r
   else
     [N.lor 0xF0 (N.shiftr r 18);
      N.lor 0x80 (N.land (N.shiftr r 12) 0x3F);
      N.lor 0x80 (N.land (N.shiftr r 6) 0x3F);
      N.lor 0x80 (N.land r 0x3F)])%N.

(** The runes a [for _, r := range s] loop sees. *)
Fixpoint runesFuel (fuel : nat) (s : string) : list N :=
  match fuel, s with
  | S fuel', String _ _ =>
    let '(r, w) := DecodeRuneInString s in
    r :: runesFuel fuel' (dropBytes w s)
  | _, _ => []
  end.

Definition runes (s : string) : list N := runesFuel (String.length s) s.

Definition ofRunes (rs : list N) : string :=
  ofBytes (concat (map EncodeRune rs)).

End utf8.

Module unicode.

Definition isUpperASCII (r : N) : bool := ((65 <=? r) && (r <=? 90))%N.
Definition isLowerASCII (r : N) : bool := ((97 <=? r) && (r <=? 122))%N.

(** [unicode.IsSpace]: the White_Space property. *)
Definition IsSpace (r : N) : bool :=
  (((0x09 <=? r) && (r <=? 0x0D)) || (r =? 0x20) || (r =? 0x85)
   || (r =? 0xA0) || (r =? 0x1680) || ((0x2000 <=? r) && (r <=? 0x200A))
   || (r =? 0x2028) || (r =? 0x2029) || (r =? 0x202F) || (r =? 0x205F)
   || (r =? 0x3000))%N.

(** [unicode.IsLetter] *)
Definition IsLetter `{GoLib} (r : N) : bool :=
  if (r <? utf8.RuneSelf)%N then isUpperASCII r || isLowerASCII r
  else unicodeLetter r.

(** [unicode.ToLower] *)
Definition ToLower `{GoLib} (r : N) : N :=
  if (r <? utf8.RuneSelf)%N then (if isUpperASCII r then r + 32 else r)%N
  else unicodeLower r.

End unicode.


Module strings.

(** [strings.TrimLeftFunc(s, unicode.IsSpace)] *)
Fixpoint trimLeftSpace (fuel : nat) (s : string) : string :=
  match fuel, s with
  | S fuel', String _ _ =>
    let '(r, w) := utf8.DecodeRuneInString s in
    if unicode.IsSpace r then trimLeftSpace fuel' (dropBytes w s) else s
  | _, _ => s
  end.

(** [strings.TrimRightFunc(s, unicode.IsSpace)] *)
Fixpoint trimRightSpace (fuel : nat) (s : string) : string :=
  match fuel, s with
  | S fuel', String _ _ =>
    let '(r, w) := utf8.DecodeLastRuneInString s in
    if unicode.IsSpace r
    then trimRightSpace fuel' (takeBytes (String.length s - w) s)
    else s
  | _, _ => s
  end.

(** [strings.TrimSpace]: leading and trailing white space, as defined by
    Unicode, removed. *)
Definition TrimSpace (s : string) : string :=
  let s1 := trimLeftSpace (String.length s) s in
  trimRightSpace (String.length s1) s1.

(** [strings.ToLower] *)
Definition ToLower `{GoLib} (s : string) : string :=
  utf8.ofRunes (map unicode.ToLower (utf8.runes s)).

(** One step of the comparison loop of [strings.EqualFold]. *)
Definition foldEq `{GoLib} (sr tr : N) : bool :=
  if (sr =? tr)%N then true
  else
    let lo := N.min sr tr in
    let hi := N.max sr tr in
    if (hi <? utf8.RuneSelf)%N
    then unicode.isUpperASCII lo && (hi =? lo + 32)%N
    else unicodeFold lo hi.

Fixpoint foldEqAll `{GoLib} (ss ts : list N) : bool :=
  match ss, ts with
  | [], [] => true
  | sr :: ss', tr :: ts' => foldEq sr tr && foldEqAll ss' ts'
  | _, _ => false
  end.

(** [strings.EqualFold]: equality under simple Unicode case folding. *)
Definition EqualFold `{GoLib} (s t : string) : bool :=
  foldEqAll (utf8.runes s) (utf8.runes t).

(** [strings.HasPrefix] *)
Fixpoint HasPrefix (s prefix : string) : bool :=
  match prefix, s with
  | EmptyString, _ => true
  | String p prefix', String c s' => Ascii.eqb c p && HasPrefix s' prefix'
  | String _ _, EmptyString => false
  end.

(** [strings.HasSuffix] *)
Definition HasSuffix (s suffix : string) : bool :=
  (String.length suffix <=? String.length s)%nat
  && String.eqb (dropBytes (String.length s - String.length suffix) s) suffix.

(** [strings.TrimSuffix] *)
Definition TrimSuffix (s suffix : string) : string :=
  if HasSuffix s suffix
  then takeBytes (String.length s - String.length suffix) s
  else s.

(** [strings.Contains] *)
Fixpoint Contains (s substr : string) : bool :=
  HasPrefix s substr
  || match s with
     | EmptyString => false
     | String _ s' => Contains s' substr
     end.

(** [strings.Split(s, sep)] for a separator of one byte. *)
Fixpoint Split (s : string) (sep : ascii) : list string :=
  match s with
  | EmptyString => [EmptyString]
  | String c s' =>
    if Ascii.eqb c sep then EmptyString :: Split s' sep
    else
      match Split s' sep with
      | part :: parts => String c part :: parts
      | [] => [String c EmptyString]
      end
  end.

(** [strings.ReplaceAll(s, old, new)] for [old] and [new] of one byte. *)
Fixpoint ReplaceAll (s : string) (old new : ascii) : string :=
  match s with
  | EmptyString => EmptyString
  | String c s' =>
    String (if Ascii.eqb c old then new else c) (ReplaceAll s' old new)
  end.

(** [strings.Join] *)
Fixpoint Join (elems : list string) (sep : string) : string :=
  match elems with
  | [] => EmptyString
  | [e] => e
  | e :: rest => e ++ sep ++ Join rest sep
  end.

End strings.

Module strconv.

(** [strconv.Itoa], also the [%d] verb. *)
Definition Itoa (z : Z) : string := NilEmpty.string_of_int (Z.to_int z).

End strconv.

Module sort.

(** Byte-wise lexicographic order, the [<] of Go strings. *)
Definition less (a b : string) : bool := String.ltb a b.

Fixpoint insert (x : string) (l : list string) : list string :=
  match l with
  | [] => [x]
  | y :: l' => if less y x then y :: insert x l' else x :: y :: l'
  end.

(** [sort.Strings] *)
Definition Strings (l : list string) : list string :=
  fold_right insert [] l.

End sort.

Module filepath.

(** Paths are those of a Unix system: the separator is the slash and
    [filepath.ToSlash] changes nothing. *)
Definition Separator : ascii := "/"%char.

Definition ToSlash (path : string) : string := path.

Definition IsAbs (path : string) : bool := strings.HasPrefix path "/".

Fixpoint stripTrailingSlashes (fuel : nat) (path : string) : string :=
  match fuel with
  | O => path
  | S fuel' =>
    if strings.HasSuffix path "/" && negb (String.eqb path "")
    then stripTrailingSlashes fuel' (takeBytes (String.length path - 1) path)
    else path
  end.

(** [filepath.Base]: the last element of the path. *)
Definition Base (path : string) : string :=
  if String.eqb path "" then "."
  else
    let p := stripTrailingSlashes (String.length path) path in
    let last := List.last (strings.Split p Separator) "" in
    if String.eqb last "" then "/" else last.

(** The loop of [filepath.Ext], on the bytes of the path in reverse:
    the suffix from the last dot of the last element on. *)
Fixpoint extFrom (rev_bytes : list ascii) (acc : string) : string :=
  match rev_bytes with
  | [] => ""
  | c :: rest =>
    if Ascii.eqb c Separator then ""
    else if Ascii.eqb c "."%char then String c acc
    else extFrom rest (String c acc)
  end.

(** [filepath.Ext] *)
Definition Ext (path : string) : string :=
  extFrom (rev (list_ascii_of_string path)) "".

(** [filepath.Clean] *)
Definition cleanStep (rooted : bool) (stack : list string) (elem : string)
  : list string :=
  if String.eqb elem "" || String.eqb elem "." then stack
  else if String.eqb elem ".." then
    match stack with
    | top :: below =>
      if String.eqb top ".." then elem :: stack else below
    | [] => if rooted then [] else [elem]
    end
  else elem :: stack.

Definition Clean (path : string) : string :=
  let rooted := IsAbs path in
  let stack := fold_left (cleanStep rooted) (strings.Split path Separator) [] in
  let body := strings.Join (rev stack) "/" in
  if rooted then "/" ++ body
  else if String.eqb body "" then "." else body.

(** [filepath.Join] *)
Definition Join (elems : list string) : string :=
  match List.filter (fun e => negb (String.eqb e "")) elems with
  | [] => ""
  | nonempty => Clean (strings.Join nonempty "/")
  end.

(** The bytes up to and with the last separator. *)
Fixpoint dirPart (path : string) : string :=
  match path with
  | EmptyString => EmptyString
  | String c rest =>
    if strings.Contains path "/" then String c (dirPart rest) else EmptyString
  end.

(** [filepath.Dir] *)
Definition Dir (path : string) : string := Clean (dirPart path).

(** [filepath.Rel(base, target)] for a target that a walk of [base] has
    produced, which is [base] itself or [base], a separator and the
    relative path; the error branch stands for every other target. *)
Definition Rel (base target : string) : option string :=
  if String.eqb target base then Some "."
  else
    let b := if strings.HasSuffix base "/" then base else base ++ "/" in
    if strings.HasPrefix target b
    then Some (dropBytes (String.length b) target)
    else None.

End filepath.

(** ** Errors and results

    A Go [error] is kept as its message, [err.Error()]; [nil] is [None].
    Wrapping with [%w] is concatenation of messages. *)

Definition error := option string.

Inductive result (A : Type) : Type :=
| Ok (a : A)
| Err (msg : string).
Arguments Ok {A} a.
Arguments Err {A} msg.

(** [filepath.Abs], given what [os.Getwd] returns. *)
Definition absPath (wd : result string) (path : string) : result string :=
  if filepath.IsAbs path then Ok (filepath.Clean path)
  else match wd with
       | Ok dir => Ok (filepath.Join [dir; path])
       | Err e => Err e
       end.

(** ** JSON

    The bytes of a JSON text are identified with the document they
    spell: [json] is the syntax tree, with the members of an object in
    the order of the text, duplicates included.  A text that is not JSON
    is kept with the complaint of [encoding/json] about it. *)

Inductive json : Type :=
| JNull
| JBool (b : bool)
| JNum (x : spec_float)
| JStr (s : string)
| JArr (elems : list json)
| JObj (members : list (string * json)).

Inductive document : Type :=
| Malformed (text : string) (syntaxError : string)
| WellFormed (j : json).

(** A Go value of type [any] as [json.Unmarshal] builds it: [nil], [bool],
    [float64], [string], [[]any] and [map[string]any]. *)
Inductive value : Type :=
| VNil
| VBool (b : bool)
| VNum (x : spec_float)
| VStr (s : string)
| VArr (elems : list value)
| VMap (m : gmap string value).

(** Decoding into [any]; a repeated key keeps its last value. *)
Fixpoint decodeAny (j : json) : value :=
  match j with
  | JNull => VNil
  | JBool b => VBool b
  | JNum x => VNum x
  | JStr s => VStr s
  | JArr elems => VArr (map decodeAny elems)
  | JObj members =>
    VMap ((fix decodeMembers (ms : list (string * json)) (acc : gmap string value) :=
             match ms with
             | [] => acc
             | (k, v) :: ms' => decodeMembers ms' (<[k := decodeAny v]> acc)
             end) members ∅)
  end.

(** [json.Unmarshal(data, &root)] for [root] of type [any]. *)
Definition unmarshalAny (data : document) : result value :=
  match data with
  | Malformed _ e => Err e
  | WellFormed j => Ok (decodeAny j)
  end.

(** Decoding into [map[string]bool]: [None] stands for the error
    [encoding/json] returns.  A [null] member decodes to the zero value,
    a member of any other type is a type error, and so is a document
    that is neither an object nor [null]. *)
Fixpoint decodeBoolMembers (ms : list (string * json)) (acc : gmap string bool)
  : option (gmap string bool) :=
  match ms with
  | [] => Some acc
  | (k, JBool b) :: ms' => decodeBoolMembers ms' (<[k := b]> acc)
  | (k, JNull) :: ms' => decodeBoolMembers ms' (<[k := false]> acc)
  | _ => None
  end.

Definition unmarshalMapBool (data : document) : option (gmap string bool) :=
  match data with
  | WellFormed JNull => Some ∅
  | WellFormed (JObj ms) => decodeBoolMembers ms ∅
  | _ => None
  end.

(** Decoding into [[]string]; a [null] element is the empty string. *)
Fixpoint decodeStrings (elems : list json) : option (list string) :=
  match elems with
  | [] => Some []
  | JStr s :: rest => cons s <$> decodeStrings rest
  | JNull :: rest => cons "" <$> decodeStrings rest
  | _ => None
  end.

Definition decodeStringList (j : json) : option (list string) :=
  match j with
  | JNull => Some []
  | JArr elems => decodeStrings elems
  | _ => None
  end.

Definition unmarshalStringList (data : document) : option (list string) :=
  match data with
  | WellFormed j => decodeStringList j
  | Malformed _ _ => None
  end.

(** How [encoding/json] matches an object key with a struct field whose
    name is plain ASCII without [k] or [s]: byte for byte, the ASCII
    letters compared without regard to case. *)
Definition lowerASCIIByte (c : ascii) : ascii :=
  if unicode.isUpperASCII (byte c) then char (byte c + 32)%N else c.

Fixpoint foldASCII (s : string) : string :=
  match s with
  | EmptyString => EmptyString
  | String c s' => String (lowerASCIIByte c) (foldASCII s')
  end.

Definition fieldMatches (key field : string) : bool :=
  String.eqb (foldASCII key) (foldASCII field).

(** Decoding into [struct { Approved []string `json:"approved"` }]: each
    member whose key matches the field decodes into it, the later one
    replacing the earlier; other members are skipped. *)
Fixpoint decodeWrappedMembers (ms : list (string * json)) (acc : list string)
  : option (list string) :=
  match ms with
  | [] => Some acc
  | (k, v) :: ms' =>
    if fieldMatches k "approved" then
      match decodeStringList v with
      | Some l => decodeWrappedMembers ms' l
      | None => None
      end
    else decodeWrappedMembers ms' acc
  end.

Definition unmarshalWrapped (data : document) : option (list string) :=
  match data with
  | WellFormed JNull => Some []
  | WellFormed (JObj ms) => decodeWrappedMembers ms []
  | _ => None
  end.

(** [json.MarshalIndent] of [struct { Approved []string }]: strings are
    coerced to valid UTF-8, an invalid byte becoming U+FFFD. *)
Definition validUTF8 (s : string) : string := utf8.ofRunes (utf8.runes s).

Definition marshalWrapped (keys : list string) : document :=
  WellFormed (JObj [("approved", JArr (map (fun k => JStr (validUTF8 k)) keys))]).

(** ** Formatting with [%v] *)

Fixpoint insertByKey (kv : string * string) (l : list (string * string))
  : list (string * string) :=
  match l with
  | [] => [kv]
  | kv' :: l' =>
    if sort.less kv'.1 kv.1 then kv' :: insertByKey kv l' else kv :: kv' :: l'
  end.

Definition sortByKey (l : list (string * string)) : list (string * string) :=
  fold_right insertByKey [] l.

(** [fmt.Sprintf("%v", v)] for the values [json.Unmarshal] builds; the
    members of a map are printed in the order of their keys. *)
Fixpoint formatV `{GoLib} (v : value) : string :=
  match v with
  | VNil => "<nil>"
  | VBool b => if b then "true" else "false"
  | VNum x => formatFloatV x
  | VStr s => s
  | VArr elems => "[" ++ strings.Join (map formatV elems) " " ++ "]"
  | VMap m =>
    "map["
    ++ strings.Join
         (map (fun kv : string * string => kv.1 ++ ":" ++ kv.2)
              (sortByKey (map_to_list (formatV <$> m)))) " "
    ++ "]"
  end.

(** ** Plans (plan.go declares them; run.go fixes the fields it reads)

    A pointer field is an [option]; [*int] and [int] are 64-bit. *)

Definition StepAction := string.

(** Modelled from the spec: the seven action names, whose constants are
    declared outside the sources at hand. *)
Definition ActionLaunch : StepAction := "launch".
Definition ActionTap : StepAction := "tap".
Definition ActionType : StepAction := "type".
Definition ActionKeySequence : StepAction := "key_sequence".
Definition ActionWait : StepAction := "wait".
Definition ActionWaitFor : StepAction := "wait_for".
Definition ActionScreenshot : StepAction := "screenshot".

Module PlanStep.
Record t := mk {
  Action : StepAction;
  Label : option string;
  ID : option string;
  Contains : option string;
  Text : option string;
  Name : option string;
  X : option spec_float;
  Y : option spec_float;
  Keycodes : list Z;
  DurationMS : option Z;
  TimeoutMS : option Z;
  PollIntervalMS : option Z;
}.
End PlanStep.

Module PlanApp.
Record t := mk { BundleID : string; UDID : string; OutputDir : string }.
End PlanApp.

Module PlanDefaults.
Record t := mk { PostActionDelayMS : Z }.
End PlanDefaults.

Module Plan.
Record t := mk {
  Version : Z;
  App : PlanApp.t;
  Defaults : PlanDefaults.t;
  Steps : list PlanStep.t;
}.
End Plan.

(** RunStepResult reports one executed step. *)
Module RunStepResult.
Record t := mk {
  Index : Z;
  Action : string;
  Status : string;
  DurationMS : Z;
  Error : string;
}.
End RunStepResult.

(** RunResult is the structured output for a plan run. *)
Module RunResult.
Record t := mk {
  BundleID : string;
  UDID : string;
  OutputDir : string;
  Steps : list RunStepResult.t;
}.
End RunResult.

Module CaptureRequest.
Record t := mk {
  Provider : string;
  BundleID : string;
  UDID : string;
  Name : string;
  OutputDir : string;
}.
End CaptureRequest.

Definition ProviderAXe : string := "axe".

(** What the package declares outside the sources at hand. *)
Class Package := {
  (** [validatePlan] *)
  validatePlan : Plan.t -> error;
  (** [hasString], the test [runTapStep] makes on a selector *)
  hasString : option string -> bool;
}.

(** ** The world outside the program

    Time is a monotonic clock in nanoseconds.  What the processes the
    program starts, its timers and its captures will do is written
    ahead in three queues; a call takes the next entry of its queue.  An
    empty queue answers with a failure, so every run is finite.  The
    trace records each call with the time it was made, the latest
    first. *)

Inductive ExecOutcome : Type :=
  (** the process exits with status 0, having written [stdout] *)
| Exited (stdout : document)
  (** [cmd.Output] returns the error [err] with the output read so far;
      [stderr] is the [Stderr] of an [*exec.ExitError] *)
| Failed (err : string) (stdout : string) (stderr : option string).

Record ExecReply := { exec_took : N; exec_outcome : ExecOutcome }.

(** [ctx.Err()] once the context is done. *)
Inductive ContextError : Type := Canceled | DeadlineExceeded.

Definition contextErrorText (e : ContextError) : string :=
  match e with
  | Canceled => "context canceled"
  | DeadlineExceeded => "context deadline exceeded"
  end.

Inductive TimerReply : Type :=
  (** the timer fires, [late] nanoseconds after it was due *)
| Fired (late : N)
  (** the context is done first, [after] nanoseconds into the wait *)
| Cancelled (after : N) (why : ContextError).

Record CaptureReply := { capture_took : N; capture_err : error }.

Inductive Event : Type :=
| EvExec (when : Z) (argv : list string)
| EvWait (when : Z) (duration : Z)
| EvCapture (when : Z) (req : CaptureRequest.t).

Record World := {
  now : Z;
  execs : list ExecReply;
  timers : list TimerReply;
  captures : list CaptureReply;
  trace : list Event;
  (** [os.Getwd] *)
  cwd : result string;
  (** the error of [os.MkdirAll], by path *)
  mkdirError : string -> error;
}.

Definition M (A : Type) : Type := World -> A * World.

Definition ret {A} (a : A) : M A := fun w => (a, w).

Definition bind {A B} (c : M A) (k : A -> M B) : M B :=
  fun w => let '(a, w') := c w in k a w'.

Notation "'let*' x ':=' c 'in' k" := (bind c (fun x => k))
  (at level 10, x name, c at level 100, k at level 200, only parsing).
Notation "'let*' ' pat ':=' c 'in' k" :=
  (bind c (fun x => match x with pat => k end))
  (at level 10, pat pattern, c at level 100, k at level 200, only parsing).

(** [time.Now()] *)
Definition timeNow : M Z := fun w => (now w, w).

Definition noReply : ExecReply :=
  {| exec_took := 0; exec_outcome := Failed "exec: not started" "" None |}.

(** What the next process started will do. *)
Definition nextExec (w : World) : ExecReply := hd noReply (execs w).

(** [exec.CommandContext(ctx, name, args...).Output()] *)
Definition spawn (argv : list string) : M ExecOutcome := fun w =>
  let r := nextExec w in
  (exec_outcome r,
   {| now := now w + Z.of_N (exec_took r);
      execs := tl (execs w);
      timers := timers w;
      captures := captures w;
      trace := EvExec (now w) argv :: trace w;
      cwd := cwd w;
      mkdirError := mkdirError w |}).

(** The [select] of [waitContext] on a timer of [duration] nanoseconds
    and on the context. *)
Definition sleep (duration : Z) : M error := fun w =>
  let r := hd (Cancelled 0 Canceled) (timers w) in
  let '(elapsed, err) :=
    match r with
    | Fired late => (Z.max 0 duration + Z.of_N late, None)
    | Cancelled after why => (Z.of_N after, Some (contextErrorText why))
    end in
  (err,
   {| now := now w + elapsed;
      execs := execs w;
      timers := tl (timers w);
      captures := captures w;
      trace := EvWait (now w) duration :: trace w;
      cwd := cwd w;
      mkdirError := mkdirError w |}).

(** [Capture(ctx, req)], which capture.go hands to the provider. *)
Definition Capture (req : CaptureRequest.t) : M error := fun w =>
  let r := hd {| capture_took := 0; capture_err := Some "capture: not started" |}
              (captures w) in
  (capture_err r,
   {| now := now w + Z.of_N (capture_took r);
      execs := execs w;
      timers := timers w;
      captures := tl (captures w);
      trace := EvCapture (now w) req :: trace w;
      cwd := cwd w;
      mkdirError := mkdirError w |}).

(** [filepath.Abs] *)
Definition Abs (path : string) : M (result string) := fun w =>
  (absPath (cwd w) path, w).

(** [os.MkdirAll] *)
Definition MkdirAll (path : string) : M error := fun w => (mkdirError w path, w).

(** [time.Duration(ms) * time.Millisecond] *)
Definition milliseconds (ms : Z) : Z := wrap64 (ms * 1000000).

(** [d.Milliseconds()] *)
Definition Milliseconds (d : Z) : Z := Z.quot d 1000000.

(** ** run.go *)

Section Run.
Context `{GoLib} `{Package}.

Definition stringValue (value : option string) : string :=
  match value with None => "" | Some s => s end.

Definition intValue (value : option Z) : Z :=
  match value with None => 0 | Some z => z end.

Definition floatValue (value : option spec_float) : spec_float :=
  match value with None => S754_zero false | Some x => x end.

(** The document [runExternalOutput] returns next to an error: no bytes. *)
Definition noOutput : document := Malformed "" "unexpected end of JSON input".

Definition runExternalOutput (name : string) (args : list string)
  : M (document * error) :=
  let* out := spawn (name :: args) in
  match out with
  | Failed err stdout stderr =>
    let output := strings.TrimSpace stdout in
    let output :=
      match stderr with
      | Some exitStderr =>
        let stderr := strings.TrimSpace exitStderr in
        if negb (String.eqb stderr "") then
          if negb (String.eqb output "") then output ++ newline ++ stderr
          else stderr
        else output
      | None => output
      end in
    if String.eqb output "" then ret (noOutput, Some (name ++ ": " ++ err))
    else ret (noOutput, Some (name ++ ": " ++ err ++ " (output: " ++ output ++ ")"))
  | Exited stdout => ret (stdout, None)
  end.

Definition runExternal (name : string) (args : list string) : M error :=
  let* '(_, err) := runExternalOutput name args in
  ret err.

Definition waitContext (duration : Z) : M error := sleep duration.

Definition toString (v : value) : string :=
  match v with
  | VNil => ""
  | VStr t => t
  | t => formatV t
  end.

(** [n[key]] on a [map[string]any]: [nil] for a key that is not there. *)
Definition index (n : gmap string value) (key : string) : value :=
  default VNil (n !! key).

Fixpoint nodeMatches (node : value) (targetID targetLabel targetContains : string)
  : bool :=
  match node with
  | VMap n =>
    let id := toString (index n "AXUniqueId") in
    let label := toString (index n "AXLabel") in
    let value := toString (index n "AXValue") in
    if negb (String.eqb targetID "") && strings.EqualFold id targetID then true
    else if negb (String.eqb targetLabel "") && strings.EqualFold label targetLabel
    then true
    else if negb (String.eqb targetContains "")
            && (let labelLC := strings.ToLower label in
                let valueLC := strings.ToLower value in
                strings.Contains labelLC targetContains
                || strings.Contains valueLC targetContains)
    then true
    else
      map_fold (fun _ v found =>
                  nodeMatches v targetID targetLabel targetContains || found)
               false n
  | VArr n =>
    existsb (fun v => nodeMatches v targetID targetLabel targetContains) n
  | _ => false
  end.

Definition axeMatchesTarget (udid : string) (step : PlanStep.t) : M (bool * error) :=
  let* '(out, err) := runExternalOutput "axe" ["describe-ui"; "--udid"; udid] in
  match err with
  | Some e => ret (false, Some e)
  | None =>
    match unmarshalAny out with
    | Err e => ret (false, Some ("axe describe-ui: parse JSON: " ++ e))
    | Ok root =>
      let targetID := strings.TrimSpace (stringValue (PlanStep.ID step)) in
      let targetLabel := strings.TrimSpace (stringValue (PlanStep.Label step)) in
      let targetContains :=
        strings.ToLower (strings.TrimSpace (stringValue (PlanStep.Contains step))) in
      ret (nodeMatches root targetID targetLabel targetContains, None)
    end
  end.

(** The [for] loop of [runWaitForStep].  Every turn starts a process, so
    a turn count above the length of the process queue is never used up
    (lemma [waitForLoop_fuel]). *)
Fixpoint waitForLoop (turns : nat) (step : PlanStep.t) (udid : string)
    (timeout poll deadline : Z) : M error :=
  match turns with
  | O => ret (Some "wait_for: out of turns")
  | S turns' =>
    let* '(matched, err) := axeMatchesTarget udid step in
    match err with
    | Some e => ret (Some e)
    | None =>
      if matched : bool then ret None
      else
        let* t := timeNow in
        if deadline <? t
        then ret (Some ("wait_for timed out after " ++ strconv.Itoa timeout ++ "ms"))
        else
          let* err := waitContext (milliseconds poll) in
          match err with
          | Some e => ret (Some e)
          | None => waitForLoop turns' step udid timeout poll deadline
          end
    end
  end.

Definition runWaitForStep (step : PlanStep.t) (udid : string) : M error :=
  let timeout := intValue (PlanStep.TimeoutMS step) in
  let timeout := if timeout <=? 0 then 15000 else timeout in
  let poll := intValue (PlanStep.PollIntervalMS step) in
  let poll := if poll <=? 0 then 400 else poll in
  let* t0 := timeNow in
  let deadline := t0 + milliseconds timeout in
  fun w => waitForLoop (S (List.length (execs w))) step udid timeout poll deadline w.

Definition runTapStep (step : PlanStep.t) (udid : string) : M error :=
  if hasString (PlanStep.Label step) then
    runExternal "axe" ["tap"; "--label"; stringValue (PlanStep.Label step);
                       "--udid"; udid]
  else if hasString (PlanStep.ID step) then
    runExternal "axe" ["tap"; "--id"; stringValue (PlanStep.ID step);
                       "--udid"; udid]
  else
    let x := formatFloatF (floatValue (PlanStep.X step)) in
    let y := formatFloatF (floatValue (PlanStep.Y step)) in
    runExternal "axe" ["tap"; "-x"; x; "-y"; y; "--udid"; udid].

Definition runStep (action : StepAction) (step : PlanStep.t)
    (bundleID udid outputDir : string) : M error :=
  if String.eqb action ActionLaunch then
    runExternal "xcrun" ["simctl"; "launch"; udid; bundleID]
  else if String.eqb action ActionTap then runTapStep step udid
  else if String.eqb action ActionType then
    runExternal "axe" ["type"; stringValue (PlanStep.Text step); "--udid"; udid]
  else if String.eqb action ActionKeySequence then
    let keycodes := map strconv.Itoa (PlanStep.Keycodes step) in
    runExternal "axe" ["key-sequence"; "--keycodes"; strings.Join keycodes ",";
                       "--udid"; udid]
  else if String.eqb action ActionWait then
    waitContext (milliseconds (intValue (PlanStep.DurationMS step)))
  else if String.eqb action ActionWaitFor then runWaitForStep step udid
  else if String.eqb action ActionScreenshot then
    Capture {| CaptureRequest.Provider := ProviderAXe;
               CaptureRequest.BundleID := "";
               CaptureRequest.UDID := udid;
               CaptureRequest.Name := stringValue (PlanStep.Name step);
               CaptureRequest.OutputDir := outputDir |}
  else ret (Some ("unsupported action " ++ quote action)).

Definition appendStep (result : RunResult.t) (stepResult : RunStepResult.t)
  : RunResult.t :=
  {| RunResult.BundleID := RunResult.BundleID result;
     RunResult.UDID := RunResult.UDID result;
     RunResult.OutputDir := RunResult.OutputDir result;
     RunResult.Steps := RunResult.Steps result ++ [stepResult] |}.

(** The [for i, step := range plan.Steps] loop of [RunPlan], from index
    [i] on. *)
Fixpoint runSteps (plan : Plan.t) (udid absOutputDir : string) (i : Z)
    (steps : list PlanStep.t) (result : RunResult.t) : M (RunResult.t * error) :=
  match steps with
  | [] => ret (result, None)
  | step :: rest =>
    let* start := timeNow in
    let action : StepAction :=
      strings.TrimSpace (strings.ToLower (PlanStep.Action step)) in
    let* err := runStep action step (PlanApp.BundleID (Plan.App plan)) udid absOutputDir in
    match err with
    | Some e =>
      let* t := timeNow in
      let stepResult :=
        {| RunStepResult.Index := i + 1;
           RunStepResult.Action := action;
           RunStepResult.Status := "error";
           RunStepResult.DurationMS := Milliseconds (t - start);
           RunStepResult.Error := e |} in
      ret (appendStep result stepResult,
           Some ("step " ++ strconv.Itoa (i + 1) ++ " (" ++ action ++ "): " ++ e))
    | None =>
      let* t := timeNow in
      let stepResult :=
        {| RunStepResult.Index := i + 1;
           RunStepResult.Action := action;
           RunStepResult.Status := "ok";
           RunStepResult.DurationMS := Milliseconds (t - start);
           RunStepResult.Error := "" |} in
      let result := appendStep result stepResult in
      if (0 <? PlanDefaults.PostActionDelayMS (Plan.Defaults plan))
         && negb (String.eqb action ActionWait)
         && negb (String.eqb action ActionWaitFor)
      then
        let delay := milliseconds (PlanDefaults.PostActionDelayMS (Plan.Defaults plan)) in
        let* err := waitContext delay in
        match err with
        | Some e => ret (result, Some e)
        | None => runSteps plan udid absOutputDir (i + 1) rest result
        end
      else runSteps plan udid absOutputDir (i + 1) rest result
    end
  end.

(** RunPlan executes a validated plan. *)
Definition RunPlan (plan : option Plan.t) : M (option RunResult.t * error) :=
  match plan with
  | None => ret (None, Some "plan is required")
  | Some plan =>
    match validatePlan plan with
    | Some e => ret (None, Some e)
    | None =>
      let udid := strings.TrimSpace (PlanApp.UDID (Plan.App plan)) in
      let udid := if String.eqb udid "" then "booted" else udid in
      let outputDir := strings.TrimSpace (PlanApp.OutputDir (Plan.App plan)) in
      let outputDir :=
        if String.eqb outputDir "" then "./screenshots/raw" else outputDir in
      let* abs := Abs outputDir in
      match abs with
      | Err e => ret (None, Some ("resolve output dir: " ++ e))
      | Ok absOutputDir =>
        let* err := MkdirAll absOutputDir in
        match err with
        | Some e => ret (None, Some ("create output dir: " ++ e))
        | None =>
          let result :=
            {| RunResult.BundleID := PlanApp.BundleID (Plan.App plan);
               RunResult.UDID := udid;
               RunResult.OutputDir := absOutputDir;
               RunResult.Steps := [] |} in
          let* '(result, err) := runSteps plan udid absOutputDir 0 (Plan.Steps plan) result in
          ret (Some result, err)
        end
      end
    end
  end.

End Run.

(** ** review.go: the review and approval pipeline *)

Definition defaultReviewOutputDir : string := "./screenshots/review".
Definition defaultReviewManifestName : string := "manifest.json".
Definition defaultReviewHTMLName : string := "index.html".
Definition defaultReviewApprovalsName : string := "approved.json".
Definition reviewStatusReady : string := "ready".
Definition reviewStatusMissingRaw : string := "missing_raw".
Definition reviewStatusInvalidSize : string := "invalid_size".
Definition reviewStatusMissingAndInvalid : string := "missing_raw_invalid_size".

(** ReviewRequest configures generation of screenshot review artifacts. *)
Module ReviewRequest.
Record t := mk {
  RawDir : string;
  FramedDir : string;
  OutputDir : string;
  ApprovalPath : string;
}.
End ReviewRequest.

(** ReviewSummary aggregates status/approval totals across all entries. *)
Module ReviewSummary.
Record t := mk {
  Total : Z;
  Ready : Z;
  MissingRaw : Z;
  InvalidSize : Z;
  Approved : Z;
  PendingApproval : Z;
}.
End ReviewSummary.

(** ReviewEntry represents one framed screenshot row in review artifacts. *)
Module ReviewEntry.
Record t := mk {
  Key : string;
  ScreenshotID : string;
  Locale : string;
  Device : string;
  FramedPath : string;
  FramedRelative : string;
  RawPath : string;
  RawRelative : string;
  Width : Z;
  Height : Z;
  DisplayTypes : list string;
  ValidAppStoreSize : bool;
  Status : string;
  Approved : bool;
  ApprovalState : string;
}.
End ReviewEntry.

(** ReviewManifest is the JSON artifact for agent/human checks. *)
Module ReviewManifest.
Record t := mk {
  GeneratedAt : string;
  RawDir : string;
  FramedDir : string;
  OutputDir : string;
  ApprovalPath : string;
  Summary : ReviewSummary.t;
  Entries : list ReviewEntry.t;
}.
End ReviewManifest.

(** ReviewResult is printed by CLI after artifacts are written. *)
Module ReviewResult.
Record t := mk {
  ManifestPath : string;
  HTMLPath : string;
  ApprovalPath : string;
  FramedDir : string;
  Total : Z;
  Ready : Z;
  MissingRaw : Z;
  InvalidSize : Z;
  Approved : Z;
  Pending : Z;
}.
End ReviewResult.

(** The collaborators of the pipeline that are not reproduced: the
    tables of package asc and the template engine. *)
Class Collaborators := {
  (** [asc.ScreenshotDisplayTypes()] *)
  ScreenshotDisplayTypes : list string;
  (** [asc.ScreenshotDimensions(displayType)]: the sizes, or not ok *)
  ScreenshotDimensions : string -> option (list (Z * Z));
  (** the text [renderReviewHTML] gets from html/template *)
  renderTemplate : ReviewManifest.t -> result string;
}.

(** The manifest and the report.  [GenerateReview] has read every file
    it needs by the time it writes the first of them. *)
Inductive Artifact : Type :=
| ManifestJSON (manifest : ReviewManifest.t)
| ReviewHTML (html : string).

(** The file system as the pipeline meets it.  [files] holds the JSON
    files it reads, a path outside it does not exist; [artifacts] is
    the log of the writes of manifest and report that went through,
    which are kept apart from [files]; the other fields say what each
    call answers.  What a write that fails leaves at its path, and the
    directories [os.MkdirAll] makes, are not followed. *)
Record Disk := {
  (** [ctx.Err()] *)
  ctxErr : option ContextError;
  (** [os.Getwd] *)
  workdir : result string;
  (** [os.Stat(path)]: whether the path is a directory, or the error *)
  statIsDir : string -> result bool;
  (** [filepath.WalkDir(root, ...)]: the entries visited, each with its
      [IsDir], or the error the walk reports *)
  walkDir : string -> result (list (string * bool));
  (** [asc.ReadImageDimensions]: width and height *)
  imageDimensions : string -> result (Z * Z);
  files : gmap string document;
  (** an error of [os.ReadFile] other than not-exist *)
  readError : string -> error;
  (** the error of [os.MkdirAll] *)
  mkdirAllError : string -> error;
  (** the error of [os.WriteFile] *)
  writeError : string -> error;
  (** [time.Now().UTC().Format(time.RFC3339)] *)
  timestamp : string;
  (** the writes of manifest and report that went through, the latest
      first *)
  artifacts : list (string * Artifact);
}.

Definition writeFile (path : string) (data : document) (d : Disk) : Disk :=
  {| ctxErr := ctxErr d; workdir := workdir d; statIsDir := statIsDir d;
     walkDir := walkDir d; imageDimensions := imageDimensions d;
     files := <[path := data]> (files d);
     readError := readError d; mkdirAllError := mkdirAllError d;
     writeError := writeError d; timestamp := timestamp d;
     artifacts := artifacts d |}.

Definition writeArtifact (path : string) (a : Artifact) (d : Disk) : Disk :=
  {| ctxErr := ctxErr d; workdir := workdir d; statIsDir := statIsDir d;
     walkDir := walkDir d; imageDimensions := imageDimensions d;
     files := files d;
     readError := readError d; mkdirAllError := mkdirAllError d;
     writeError := writeError d; timestamp := timestamp d;
     artifacts := (path, a) :: artifacts d |}.

Section Review.
Context `{GoLib} `{Collaborators}.

Definition isImageFile (path : string) : bool :=
  let ext := strings.ToLower (filepath.Ext path) in
  String.eqb ext ".png" || String.eqb ext ".jpg" || String.eqb ext ".jpeg"
  || String.eqb ext ".webp".

Definition collectImageFiles (d : Disk) (root : string) : result (list string) :=
  match walkDir d root with
  | Err e => Err ("scan screenshot directory: " ++ e)
  | Ok visited =>
    let files :=
      map fst (List.filter (fun entry : string * bool =>
                              negb entry.2 && isImageFile entry.1) visited) in
    Ok (sort.Strings files)
  end.

Fixpoint looksLikeLocaleParts (index : Z) (parts : list string) : bool :=
  match parts with
  | [] => true
  | part :: rest =>
    if String.eqb part "" then false
    else
      let minLen := 2 in
      let maxLen := if 0 <? index then 8 else 3 in
      if (len part <? minLen) || (maxLen <? len part) then false
      else if negb (forallb unicode.IsLetter (utf8.runes part)) then false
      else looksLikeLocaleParts (index + 1) rest
  end.

Definition looksLikeLocale (token : string) : bool :=
  let clean := strings.TrimSpace (strings.ReplaceAll token "_" "-") in
  if String.eqb clean "" then false
  else
    let parts := strings.Split clean "-" in
    if (3 <? List.length parts)%nat then false
    else looksLikeLocaleParts 0 parts.

Definition inferLocaleAndDevice (relPath : string) : string * string :=
  let parts := strings.Split (filepath.ToSlash relPath) "/" in
  match parts with
  | p0 :: p1 :: _ :: _ => (p0, p1)
  | [p0; _] => if looksLikeLocale p0 then (p0, "") else ("", p0)
  | _ => ("", "")
  end.

Definition makeReviewKey (locale device screenshotID : string) : string :=
  strings.TrimSpace locale ++ "|" ++ strings.TrimSpace device ++ "|"
  ++ strings.TrimSpace screenshotID.

Definition rawIndexReviewKey (locale device screenshotID : string) : string :=
  "review|" ++ makeReviewKey locale device screenshotID.

Definition rawIndexScreenshotKey (screenshotID : string) : string :=
  "id|" ++ strings.TrimSpace screenshotID.

Definition relError (base target : string) : string :=
  "Rel: can't make " ++ target ++ " relative to " ++ base.

(** The body of the [for _, rawPath := range rawFiles] loop of
    [buildRawIndex], on the index and the set of ambiguous ids. *)
Definition indexRawFile (rawDir rawPath : string)
    (state : gmap string string * gmap string bool)
  : result (gmap string string * gmap string bool) :=
  let '(index, ambiguousScreenshotIDs) := state in
  let base := strings.TrimSuffix (filepath.Base rawPath) (filepath.Ext rawPath) in
  let idKey := rawIndexScreenshotKey base in
  let '(index, ambiguousScreenshotIDs) :=
    if default false (ambiguousScreenshotIDs !! idKey)
    then (delete idKey index, ambiguousScreenshotIDs)
    else
      match index !! idKey with
      | None => (<[idKey := rawPath]> index, ambiguousScreenshotIDs)
      | Some existingPath =>
        if negb (String.eqb existingPath rawPath)
        then (delete idKey index, <[idKey := true]> ambiguousScreenshotIDs)
        else (index, ambiguousScreenshotIDs)
      end in
  match filepath.Rel rawDir rawPath with
  | None => Err ("resolve raw relative path: " ++ relError rawDir rawPath)
  | Some relPath =>
    let '(locale, device) := inferLocaleAndDevice relPath in
    let reviewKey := rawIndexReviewKey locale device base in
    match index !! reviewKey with
    | Some _ => Ok (index, ambiguousScreenshotIDs)
    | None => Ok (<[reviewKey := rawPath]> index, ambiguousScreenshotIDs)
    end
  end.

Fixpoint indexRawFiles (rawDir : string) (rawFiles : list string)
    (state : gmap string string * gmap string bool)
  : result (gmap string string) :=
  match rawFiles with
  | [] => Ok state.1
  | rawPath :: rest =>
    match indexRawFile rawDir rawPath state with
    | Err e => Err e
    | Ok state' => indexRawFiles rawDir rest state'
    end
  end.

Definition buildRawIndex (d : Disk) (rawDir : string) (rawAvailable : bool)
  : result (gmap string string) :=
  if negb rawAvailable then Ok ∅
  else
    match collectImageFiles d rawDir with
    | Err e => Err ("scan raw screenshot directory: " ++ e)
    | Ok rawFiles => indexRawFiles rawDir rawFiles (∅, ∅)
    end.

Definition matchingAppDisplayTypes (width height : Z) : list string :=
  List.filter
    (fun displayType : string =>
       strings.HasPrefix displayType "APP_"
       && match ScreenshotDimensions displayType with
          | None => false
          | Some dimensions =>
            existsb (fun dimension : Z * Z =>
                       (dimension.1 =? width) && (dimension.2 =? height))
                    dimensions
          end)
    ScreenshotDisplayTypes.

Definition deriveReviewStatus (hasRaw hasValidSize : bool) : string :=
  if hasRaw && hasValidSize then reviewStatusReady
  else if negb hasRaw && hasValidSize then reviewStatusMissingRaw
  else if hasRaw && negb hasValidSize then reviewStatusInvalidSize
  else reviewStatusMissingAndInvalid.

Definition approvalState (approved : bool) : string :=
  if approved then "approved" else "pending".

(** [m[key]] on a [map[string]string] and on a [map[string]bool] *)
Definition lookupString (m : gmap string string) (key : string) : string :=
  default "" (m !! key).

Definition lookupBool (m : gmap string bool) (key : string) : bool :=
  default false (m !! key).

(** The raw file of a framed entry, as the [if rawAvailable] block of
    [buildReviewEntries] looks it up: under the review key first, then
    under the bare id with a check of locale and device. *)
Definition rawMatch (rawDir : string) (rawIndex : gmap string string)
    (locale device screenshotID : string) : result string :=
  let rawPath :=
    lookupString rawIndex (rawIndexReviewKey locale device screenshotID) in
  if String.eqb rawPath "" then
    let candidate := lookupString rawIndex (rawIndexScreenshotKey screenshotID) in
    if negb (String.eqb candidate "") then
      if String.eqb locale "" && String.eqb device "" then Ok candidate
      else
        match filepath.Rel rawDir candidate with
        | None => Err ("resolve raw relative path: " ++ relError rawDir candidate)
        | Some candidateRelative =>
          let '(candidateLocale, candidateDevice) :=
            inferLocaleAndDevice candidateRelative in
          let candidateIsGeneric :=
            String.eqb candidateLocale "" && String.eqb candidateDevice "" in
          if candidateIsGeneric
             || ((String.eqb locale "" || String.eqb locale candidateLocale)
                 && (String.eqb device "" || String.eqb device candidateDevice))
          then Ok candidate
          else Ok rawPath
        end
    else Ok rawPath
  else Ok rawPath.

(** The body of the [for _, framedPath := range framedFiles] loop of
    [buildReviewEntries]. *)
Definition buildReviewEntry (d : Disk) (framedDir rawDir : string)
    (rawAvailable : bool) (rawIndex : gmap string string)
    (approvals : gmap string bool) (framedPath : string)
  : result ReviewEntry.t :=
  match ctxErr d with
  | Some why => Err (contextErrorText why)
  | None =>
    match filepath.Rel framedDir framedPath with
    | None => Err ("resolve framed relative path: " ++ relError framedDir framedPath)
    | Some relPath =>
      let screenshotID :=
        strings.TrimSuffix (filepath.Base framedPath) (filepath.Ext framedPath) in
      let '(locale, device) := inferLocaleAndDevice relPath in
      match imageDimensions d framedPath with
      | Err e =>
        Err ("read screenshot dimensions for " ++ quote framedPath ++ ": " ++ e)
      | Ok (width, height) =>
        let displayTypes := matchingAppDisplayTypes width height in
        let hasValidSize := (0 <? List.length displayTypes)%nat in
        let found : result string :=
          if rawAvailable then rawMatch rawDir rawIndex locale device screenshotID
          else Ok "" in
        match found with
        | Err e => Err e
        | Ok rawPath =>
          let relative : result string :=
            if rawAvailable && negb (String.eqb rawPath "") then
              match filepath.Rel rawDir rawPath with
              | None => Err ("resolve raw relative path: " ++ relError rawDir rawPath)
              | Some rawRelative => Ok rawRelative
              end
            else Ok "" in
          match relative with
          | Err e => Err e
          | Ok rawRelative =>
            let reviewKey := makeReviewKey locale device screenshotID in
            let approved := lookupBool approvals reviewKey in
            Ok {| ReviewEntry.Key := reviewKey;
                  ReviewEntry.ScreenshotID := screenshotID;
                  ReviewEntry.Locale := locale;
                  ReviewEntry.Device := device;
                  ReviewEntry.FramedPath := framedPath;
                  ReviewEntry.FramedRelative := filepath.ToSlash relPath;
                  ReviewEntry.RawPath := rawPath;
                  ReviewEntry.RawRelative := filepath.ToSlash rawRelative;
                  ReviewEntry.Width := width;
                  ReviewEntry.Height := height;
                  ReviewEntry.DisplayTypes := displayTypes;
                  ReviewEntry.ValidAppStoreSize := hasValidSize;
                  ReviewEntry.Status :=
                    deriveReviewStatus (negb (String.eqb rawPath "")) hasValidSize;
                  ReviewEntry.Approved := approved;
                  ReviewEntry.ApprovalState := approvalState approved |}
          end
        end
      end
    end
  end.

Fixpoint buildReviewEntriesFrom (d : Disk) (framedDir rawDir : string)
    (rawAvailable : bool) (rawIndex : gmap string string)
    (approvals : gmap string bool) (framedFiles : list string)
  : result (list ReviewEntry.t) :=
  match framedFiles with
  | [] => Ok []
  | framedPath :: rest =>
    match buildReviewEntry d framedDir rawDir rawAvailable rawIndex approvals
                           framedPath with
    | Err e => Err e
    | Ok entry =>
      match buildReviewEntriesFrom d framedDir rawDir rawAvailable rawIndex
                                   approvals rest with
      | Err e => Err e
      | Ok entries => Ok (entry :: entries)
      end
    end
  end.

Definition buildReviewEntries (d : Disk) (framedDir rawDir : string)
    (rawAvailable : bool) (rawIndex : gmap string string)
    (approvals : gmap string bool) : result (list ReviewEntry.t) :=
  match collectImageFiles d framedDir with
  | Err e => Err e
  | Ok framedFiles =>
    buildReviewEntriesFrom d framedDir rawDir rawAvailable rawIndex approvals
                           framedFiles
  end.

Definition countIf (b : bool) (n : Z) : Z := if b then n + 1 else n.

Fixpoint summarizeFrom (entries : list ReviewEntry.t) (summary : ReviewSummary.t)
  : ReviewSummary.t :=
  match entries with
  | [] => summary
  | entry :: rest =>
    let status := ReviewEntry.Status entry in
    let approved := ReviewEntry.Approved entry in
    summarizeFrom rest
      {| ReviewSummary.Total := ReviewSummary.Total summary;
         ReviewSummary.Ready :=
           countIf (String.eqb status reviewStatusReady)
                   (ReviewSummary.Ready summary);
         ReviewSummary.MissingRaw :=
           countIf (strings.Contains status reviewStatusMissingRaw)
                   (ReviewSummary.MissingRaw summary);
         ReviewSummary.InvalidSize :=
           countIf (strings.Contains status reviewStatusInvalidSize)
                   (ReviewSummary.InvalidSize summary);
         ReviewSummary.Approved :=
           countIf approved (ReviewSummary.Approved summary);
         ReviewSummary.PendingApproval :=
           countIf (negb approved) (ReviewSummary.PendingApproval summary) |}
  end.

Definition summarizeReviewEntries (entries : list ReviewEntry.t) : ReviewSummary.t :=
  summarizeFrom entries
    {| ReviewSummary.Total := Z.of_nat (List.length entries);
       ReviewSummary.Ready := 0; ReviewSummary.MissingRaw := 0;
       ReviewSummary.InvalidSize := 0; ReviewSummary.Approved := 0;
       ReviewSummary.PendingApproval := 0 |}.

(** The keys of a list format, trimmed, the empty ones left out. *)
Fixpoint approveKeys (keys : list string) (approvals : gmap string bool)
  : gmap string bool :=
  match keys with
  | [] => approvals
  | key :: rest =>
    let key := strings.TrimSpace key in
    if negb (String.eqb key "") then approveKeys rest (<[key := true]> approvals)
    else approveKeys rest approvals
  end.

Definition loadApprovals (d : Disk) (path : string) : result (gmap string bool) :=
  match readError d path with
  | Some e => Err ("read approvals file: " ++ e)
  | None =>
    match files d !! path with
    | None => Ok ∅
    | Some data =>
      match unmarshalMapBool data with
      | Some mapFormat =>
        Ok (map_fold (fun key (approved : bool) approvals =>
                        if approved
                        then <[strings.TrimSpace key := true]> approvals
                        else approvals)
                     ∅ mapFormat)
      | None =>
        match unmarshalStringList data with
        | Some listFormat => Ok (approveKeys listFormat ∅)
        | None =>
          match unmarshalWrapped data with
          | Some wrapped => Ok (approveKeys wrapped ∅)
          | None =>
            Err ("parse approvals file " ++ quote path
                 ++ ": expected map[string]bool, []string, or {"
                 ++ String (ascii_of_N 34) "approved"
                 ++ String (ascii_of_N 34) ":[]}")
          end
        end
      end
    end
  end.

(** SaveApprovals writes approved keys to disk in a stable JSON format. *)
Definition SaveApprovals (path : string) (approvals : gmap string bool) (d : Disk)
  : error * Disk :=
  let keys :=
    omap (fun entry : string * bool =>
            if negb entry.2 then None
            else
              let trimmed := strings.TrimSpace entry.1 in
              if String.eqb trimmed "" then None else Some trimmed)
         (map_to_list approvals) in
  let keys := sort.Strings keys in
  let data := marshalWrapped keys in
  match mkdirAllError d (filepath.Dir path) with
  | Some e => (Some ("create approvals directory: " ++ e), d)
  | None =>
    match writeError d path with
    | Some e => (Some ("write approvals file: " ++ e), d)
    | None => (None, writeFile path data d)
    end
  end.

Definition renderReviewHTML (manifest : ReviewManifest.t) : result string :=
  match renderTemplate manifest with
  | Err e => Err ("render review HTML template: " ++ e)
  | Ok html => Ok html
  end.

(** GenerateReview creates manifest and HTML side-by-side report artifacts. *)
Definition GenerateReview (req : ReviewRequest.t) (d : Disk)
  : result ReviewResult.t * Disk :=
  match ctxErr d with
  | Some why => (Err (contextErrorText why), d)
  | None =>
  let framedDir := strings.TrimSpace (ReviewRequest.FramedDir req) in
  if String.eqb framedDir "" then (Err "framed directory is required", d) else
  match absPath (workdir d) framedDir with
  | Err e => (Err ("resolve framed directory: " ++ e), d)
  | Ok absFramedDir =>
  match statIsDir d absFramedDir with
  | Err e => (Err ("read framed directory: " ++ e), d)
  | Ok false => (Err "framed directory must be a directory", d)
  | Ok true =>
  let outputDir := strings.TrimSpace (ReviewRequest.OutputDir req) in
  let outputDir :=
    if String.eqb outputDir "" then defaultReviewOutputDir else outputDir in
  match absPath (workdir d) outputDir with
  | Err e => (Err ("resolve output directory: " ++ e), d)
  | Ok absOutputDir =>
  match mkdirAllError d absOutputDir with
  | Some e => (Err ("create output directory: " ++ e), d)
  | None =>
  let approvalPath := strings.TrimSpace (ReviewRequest.ApprovalPath req) in
  let approvalPath :=
    if String.eqb approvalPath ""
    then filepath.Join [absOutputDir; defaultReviewApprovalsName]
    else approvalPath in
  let approvalPath :=
    if negb (filepath.IsAbs approvalPath)
    then filepath.Join [absOutputDir; approvalPath]
    else approvalPath in
  match loadApprovals d approvalPath with
  | Err e => (Err e, d)
  | Ok approvals =>
  let rawDir := strings.TrimSpace (ReviewRequest.RawDir req) in
  let resolved : result (string * bool) :=
    if negb (String.eqb rawDir "") then
      match absPath (workdir d) rawDir with
      | Err e => Err ("resolve raw directory: " ++ e)
      | Ok absRawDir =>
        match statIsDir d absRawDir with
        | Ok true => Ok (absRawDir, true)
        | _ => Ok (absRawDir, false)
        end
      end
    else Ok ("", false) in
  match resolved with
  | Err e => (Err e, d)
  | Ok (absRawDir, rawAvailable) =>
  match buildRawIndex d absRawDir rawAvailable with
  | Err e => (Err e, d)
  | Ok rawIndex =>
  match buildReviewEntries d absFramedDir absRawDir rawAvailable rawIndex
                           approvals with
  | Err e => (Err e, d)
  | Ok entries =>
  let summary := summarizeReviewEntries entries in
  let manifest :=
    {| ReviewManifest.GeneratedAt := timestamp d;
       ReviewManifest.RawDir := if negb rawAvailable then "" else absRawDir;
       ReviewManifest.FramedDir := absFramedDir;
       ReviewManifest.OutputDir := absOutputDir;
       ReviewManifest.ApprovalPath := approvalPath;
       ReviewManifest.Summary := summary;
       ReviewManifest.Entries := entries |} in
  let manifestPath := filepath.Join [absOutputDir; defaultReviewManifestName] in
  match writeError d manifestPath with
  | Some e => (Err ("write manifest JSON: " ++ e), d)
  | None =>
  let d := writeArtifact manifestPath (ManifestJSON manifest) d in
  let htmlPath := filepath.Join [absOutputDir; defaultReviewHTMLName] in
  match renderReviewHTML manifest with
  | Err e => (Err e, d)
  | Ok htmlContent =>
  match writeError d htmlPath with
  | Some e => (Err ("write review HTML: " ++ e), d)
  | None =>
  (Ok {| ReviewResult.ManifestPath := manifestPath;
         ReviewResult.HTMLPath := htmlPath;
         ReviewResult.ApprovalPath := approvalPath;
         ReviewResult.FramedDir := absFramedDir;
         ReviewResult.Total := ReviewSummary.Total summary;
         ReviewResult.Ready := ReviewSummary.Ready summary;
         ReviewResult.MissingRaw := ReviewSummary.MissingRaw summary;
         ReviewResult.InvalidSize := ReviewSummary.InvalidSize summary;
         ReviewResult.Approved := ReviewSummary.Approved summary;
         ReviewResult.Pending := ReviewSummary.PendingApproval summary |},
   writeArtifact htmlPath (ReviewHTML htmlContent) d)
  end end end end end end end end end end end end.

End Review.

(** ** review.go, continued: paths and links *)

(** ResolveReviewOutputDir resolves output dir with defaults and ensures
    absolute path. *)
Definition ResolveReviewOutputDir (d : Disk) (outputDir : string) : result string :=
  let dir := strings.TrimSpace outputDir in
  let dir := if String.eqb dir "" then defaultReviewOutputDir else dir in
  match absPath (workdir d) dir with
  | Err e => Err ("resolve output directory: " ++ e)
  | Ok absDir => Ok absDir
  end.

(** ** net/url, as far as a URL that has only a path *)

Module url.

(** [shouldEscape(c, encodePath)]: letters, digits and [-_.~] stay; of the
    reserved characters [$&+,/:;=?@] only the question mark is escaped
    in a path; everything else is escaped. *)
Definition shouldEscape (c : N) : bool :=
  if unicode.isLowerASCII c || unicode.isUpperASCII c || ((48 <=? c) && (c <=? 57))%N
  then false
  else if existsb (N.eqb c) [45; 95; 46; 126]%N then false
  else if existsb (N.eqb c) [36; 38; 43; 44; 47; 58; 59; 61; 63; 64]%N
  then (c =? 63)%N
  else true.

Definition upperhex : string := "0123456789ABCDEF".

Definition hexDigit (n : N) : ascii :=
  match String.get (N.to_nat n) upperhex with
  | Some c => c
  | None => "0"%char
  end.

(** [escape(s, encodePath)] *)
Fixpoint escape (s : string) : string :=
  match s with
  | EmptyString => EmptyString
  | String c s' =>
    if shouldEscape (byte c)
    then String "%" (String (hexDigit (N.shiftr (byte c) 4))
                       (String (hexDigit (N.land (byte c) 15)) (escape s')))
    else String c (escape s')
  end.

(** [u.EscapedPath()] of a URL whose RawPath is empty. *)
Definition EscapedPath (path : string) : string :=
  if String.eqb path "*" then "*" else escape path.

(** [(&url.URL{Path: path}).String()]: the escaped path, after "./"
    when its first segment holds a colon. *)
Definition pathString (path : string) : string :=
  let path := EscapedPath path in
  let segment := hd "" (strings.Split path "/") in
  if strings.Contains segment ":" then "./" ++ path else path.

End url.

(** [s[i]], 0 past the end. *)
Definition byteAt (s : string) (i : nat) : N :=
  match String.get i s with
  | Some c => byte c
  | None => 0%N
  end.

Definition pathOnlyURLPath (absolutePath : string) : string :=
  let urlPath := filepath.ToSlash absolutePath in
  if (3 <=? len urlPath) && (byteAt urlPath 1 =? 58)%N && (byteAt urlPath 2 =? 47)%N
  then
    let first := byteAt urlPath 0 in
    if unicode.isLowerASCII first || unicode.isUpperASCII first
    then "/" ++ urlPath
    else urlPath
  else urlPath.

Definition localFileURL (d : Disk) (path : string) : string :=
  if String.eqb (strings.TrimSpace path) "" then ""
  else
    match absPath (workdir d) path with
    | Err _ => ""
    | Ok absolutePath => url.pathString (pathOnlyURLPath absolutePath)
    end.

(** ** provider_axe.go: the AXe capture provider *)

Module AXeProvider.

(** What a command run with [CombinedOutput] comes to: its standard
    output and standard error in one, and the error of the run. *)
Record Reply := { combined : string; failure : error }.

(** The machine the provider works on: what the processes it starts
    will answer, the command lines started so far, the latest first, and
    what [os.Stat] answers once they have run. *)
Record Host := {
  replies : list Reply;
  started : list (list string);
  statError : string -> error;
}.

Definition notStarted : Reply :=
  {| combined := ""; failure := Some "exec: not started" |}.

(** [exec.CommandContext(ctx, argv...).CombinedOutput()] *)
Definition CombinedOutput (argv : list string) (h : Host) : Reply * Host :=
  (hd notStarted (replies h),
   {| replies := tl (replies h);
      started := argv :: started h;
      statError := statError h |}).

(** Capture launches the requested app and captures a screenshot via AXe. *)
Definition Capture `{GoLib} (req : CaptureRequest.t) (h : Host)
  : (string * error) * Host :=
  let udid := strings.TrimSpace (CaptureRequest.UDID req) in
  let udid := if String.eqb udid "" then "booted" else udid in
  let bundleID := strings.TrimSpace (CaptureRequest.BundleID req) in
  let '(launched, h) :=
    if negb (String.eqb bundleID "") then
      let '(launch, h) :=
        CombinedOutput ["xcrun"; "simctl"; "launch"; udid; bundleID] h in
      match failure launch with
      | Some launchErr =>
        (Some ("xcrun simctl launch " ++ quote bundleID ++ ": " ++ launchErr
               ++ " (output: " ++ strings.TrimSpace (combined launch) ++ ")"), h)
      | None => (None, h)
      end
    else (None, h) in
  match launched with
  | Some e => (("", Some e), h)
  | None =>
    let pngPath :=
      filepath.Join [CaptureRequest.OutputDir req; CaptureRequest.Name req ++ ".png"] in
    let '(shot, h) :=
      CombinedOutput ["axe"; "screenshot"; "--output"; pngPath; "--udid"; udid] h in
    match failure shot with
    | Some err =>
      (("", Some ("axe: " ++ err ++ " (output: "
                  ++ strings.TrimSpace (combined shot) ++ ")")), h)
    | None =>
      match statError h pngPath with
      | Some statErr =>
        (("", Some ("axe: screenshot not found at " ++ quote pngPath ++ ": "
                    ++ statErr)), h)
      | None => ((pngPath, None), h)
      end
    end
  end.

End AXeProvider.

(** ** The generation coalescer

    Its source is not among the files at hand; what follows is written
    from the specification.  The threads that call [Trigger] are
    interleaved step by step; a step is what the specification has
    happen under the mutex or in one atomic operation. *)

Module Coalescer.

(** Modelled from the spec: where a thread that has called [Trigger]
    stands.  The specification has the caller that finds no run in
    flight execute the run itself, re-check the pending marker when the
    run is over and run again or release ownership; every other caller
    returns at once.  The source of the coalescer is missing. *)
Inductive Place : Type :=
| InRun
| AfterRun
| Returned.

(** Modelled from the spec: the state of the coalescer, whose source is
    missing: the in-flight flag, the pending-run marker, the threads that
    have called, and two counters kept for the proofs, the number of runs
    of [f] started and the number of runs of [f] under way. *)
Record t := mk {
  running : bool;
  pending : bool;
  threads : gmap nat Place;
  started : nat;
  active : nat;
}.

Definition init : t :=
  {| running := false; pending := false; threads := ∅;
     started := 0%nat; active := 0%nat |}.

Inductive Event : Type :=
| Trigger (thread : nat)
| Finish (thread : nat)
| Recheck (thread : nat).

(** Modelled from the spec: one step of one thread, the source of the
    coalescer being missing.  [Trigger]: a new caller marks a run pending
    and returns if a run is in flight, and otherwise takes ownership and
    starts a run.  [Finish]: the run of the owner ends.  [Recheck]: the
    owner, its run over, clears a set marker and runs again, or releases
    ownership and returns. *)
Definition step (c : t) (e : Event) : option t :=
  match e with
  | Trigger th =>
    match threads c !! th with
    | Some _ => None
    | None =>
      if running c then
        Some {| running := true; pending := true;
                threads := <[th := Returned]> (threads c);
                started := started c; active := active c |}
      else
        Some {| running := true; pending := pending c;
                threads := <[th := InRun]> (threads c);
                started := S (started c); active := S (active c) |}
    end
  | Finish th =>
    match threads c !! th with
    | Some InRun =>
      Some {| running := running c; pending := pending c;
              threads := <[th := AfterRun]> (threads c);
              started := started c; active := pred (active c) |}
    | _ => None
    end
  | Recheck th =>
    match threads c !! th with
    | Some AfterRun =>
      if pending c then
        Some {| running := running c; pending := false;
                threads := <[th := InRun]> (threads c);
                started := S (started c); active := S (active c) |}
      else
        Some {| running := false; pending := false;
                threads := <[th := Returned]> (threads c);
                started := started c; active := active c |}
    | _ => None
    end
  end.

(** A schedule: the steps in the order they happen; [None] when a step
    is not one the thread can take. *)
Fixpoint run (c : t) (events : list Event) : option t :=
  match events with
  | [] => Some c
  | e :: rest =>
    match step c e with
    | Some c' => run c' rest
    | None => None
    end
  end.

End Coalescer.


(** * Properties *)

(** Splits a goal into its conjuncts. *)
Ltac conjs := repeat match goal with |- _ /\ _ => split end.

(** A runtime that knows no letters, case pairs or folds beyond ASCII,
    and a package that accepts every plan: the instances the closed
    examples below are evaluated at.  Their inputs are ASCII, on which
    no table is consulted. *)
Definition doubleQuote : string := String (ascii_of_N 34) EmptyString.

Definition asciiLib : GoLib :=
  {| unicodeLetter := fun _ => false;
     unicodeLower := fun r => r;
     unicodeFold := fun _ _ => false;
     formatFloatV := fun _ => "0";
     formatFloatF := fun _ => "0";
     quote := fun s => doubleQuote ++ s ++ doubleQuote |}.

Definition openPackage : Package :=
  {| validatePlan := fun _ => None;
     hasString := fun p => match p with
                           | Some s => negb (String.eqb (strings.TrimSpace s) "")
                           | None => false
                           end |}.

(** ** The plan engine stops at the first failing step *)

Section RunFacts.
Context `{GoLib} `{Package}.

(** The action name [RunPlan] dispatches on and reports. *)
Definition normalAction (step : PlanStep.t) : StepAction :=
  strings.TrimSpace (strings.ToLower (PlanStep.Action step)).

Definition effectiveUDID (plan : Plan.t) : string :=
  let udid := strings.TrimSpace (PlanApp.UDID (Plan.App plan)) in
  if String.eqb udid "" then "booted" else udid.

Definition effectiveOutputDir (plan : Plan.t) : string :=
  let outputDir := strings.TrimSpace (PlanApp.OutputDir (Plan.App plan)) in
  if String.eqb outputDir "" then "./screenshots/raw" else outputDir.

(** [r] reports step number [n] (counted from 1) with the given status
    and error text. *)
Definition reportOf (n : Z) (step : PlanStep.t) (status err : string)
    (r : RunStepResult.t) : Prop :=
  RunStepResult.Index r = n
  /\ RunStepResult.Action r = normalAction step
  /\ RunStepResult.Status r = status
  /\ RunStepResult.Error r = err.

(** [rs] reports the steps, numbered from [n] on, as done without error. *)
Inductive okReports : Z -> list PlanStep.t -> list RunStepResult.t -> Prop :=
| okReports_nil n : okReports n [] []
| okReports_cons n step steps r rs :
    reportOf n step "ok" "" r ->
    okReports (n + 1) steps rs ->
    okReports n (step :: steps) (r :: rs).

Lemma appendStep_steps result r :
  RunResult.Steps (appendStep result r) = (RunResult.Steps result ++ [r])%list.
Proof. reflexivity. Qed.

(** A prefix that runs through hands the rest of the loop its result and
    its world. *)
Lemma runSteps_app plan udid dir pre : forall rest i result w res1 w1,
  runSteps plan udid dir i pre result w = (res1, None, w1) ->
  runSteps plan udid dir i (pre ++ rest)%list result w
  = runSteps plan udid dir (i + Z.of_nat (List.length pre)) rest res1 w1.
Proof.
  induction pre as [|s pre IH]; intros rest i result w res1 w1 Hrun.
  - simpl in *. unfold ret in Hrun. injection Hrun as <- <-.
    f_equal. lia.
  - simpl in Hrun |- *. unfold bind, timeNow in *.
    destruct (runStep _ s _ udid dir w) as [[e|] wa] eqn:Hs.
    + unfold ret in Hrun. discriminate.
    + destruct (_ && _ && _).
      * destruct (waitContext _ wa) as [[e|] wb] eqn:Hd.
        -- unfold ret in Hrun; discriminate.
        -- rewrite (IH rest _ _ _ _ _ Hrun). f_equal. lia.
      * rewrite (IH rest _ _ _ _ _ Hrun). f_equal. lia.
Qed.

(** What a prefix that runs through has appended to the result. *)
Lemma runSteps_ok_reports plan udid dir pre : forall i result w res1 w1,
  runSteps plan udid dir i pre result w = (res1, None, w1) ->
  exists rs,
    res1 = {| RunResult.BundleID := RunResult.BundleID result;
              RunResult.UDID := RunResult.UDID result;
              RunResult.OutputDir := RunResult.OutputDir result;
              RunResult.Steps := RunResult.Steps result ++ rs |}
    /\ okReports (i + 1) pre rs.
Proof.
  induction pre as [|s pre IH]; intros i result w res1 w1 Hrun.
  - simpl in Hrun. unfold ret in Hrun. injection Hrun as <- <-.
    exists []. rewrite app_nil_r. destruct result; split; [reflexivity|constructor].
  - simpl in Hrun. unfold bind, timeNow in Hrun.
    destruct (runStep _ s _ udid dir w) as [[e|] wa] eqn:Hs;
      [unfold ret in Hrun; discriminate|].
    assert (Hrest : exists wb,
      runSteps plan udid dir (i + 1) pre
        (appendStep result
           {| RunStepResult.Index := i + 1;
              RunStepResult.Action := normalAction s;
              RunStepResult.Status := "ok";
              RunStepResult.DurationMS := Milliseconds (now wa - now w);
              RunStepResult.Error := "" |}) wb = (res1, None, w1)).
    { destruct (_ && _ && _).
      - destruct (waitContext _ wa) as [[e|] wb] eqn:Hd;
          [unfold ret in Hrun; discriminate|].
        exists wb. exact Hrun.
      - exists wa. exact Hrun. }
    destruct Hrest as [wb Hrest].
    destruct (IH _ _ _ _ _ Hrest) as (rs & -> & Hrs).
    eexists (_ :: rs). split.
    + simpl. rewrite <- app_assoc. reflexivity.
    + constructor; [repeat split|exact Hrs].
Qed.

Lemma okReports_length n steps rs :
  okReports n steps rs -> List.length rs = List.length steps.
Proof. induction 1; simpl; congruence. Qed.

(** C1.  When the first k-1 steps of a plan and their delays run through
    and the handler of the k-th step, called in the world they leave,
    fails, [RunPlan] returns a result with exactly k step results in
    step order, the first k-1 marked ok and the k-th marked error with
    the handler's error text; the error returned is the cause wrapped as
    "step k (action): cause"; and the world is left as the failing
    handler left it, so nothing of a later step, and no delay, has been
    started. *)
Theorem RunPlan_stops_at_failing_step
    (plan : Plan.t) (pre post : list PlanStep.t) (step : PlanStep.t)
    (w w1 w2 : World) (dir cause : string) (res1 : RunResult.t) :
  let k := Z.of_nat (List.length pre) + 1 in
  let empty := {| RunResult.BundleID := PlanApp.BundleID (Plan.App plan);
                  RunResult.UDID := effectiveUDID plan;
                  RunResult.OutputDir := dir;
                  RunResult.Steps := [] |} in
  Plan.Steps plan = (pre ++ step :: post)%list ->
  validatePlan plan = None ->
  (Abs (effectiveOutputDir plan) w).1 = Ok dir ->
  mkdirError w dir = None ->
  runSteps plan (effectiveUDID plan) dir 0 pre empty w = (res1, None, w1) ->
  runStep (normalAction step) step (PlanApp.BundleID (Plan.App plan))
          (effectiveUDID plan) dir w1 = (Some cause, w2) ->
  exists (oks : list RunStepResult.t) (failed : RunStepResult.t),
    RunPlan (Some plan) w
    = (Some {| RunResult.BundleID := PlanApp.BundleID (Plan.App plan);
               RunResult.UDID := effectiveUDID plan;
               RunResult.OutputDir := dir;
               RunResult.Steps := oks ++ [failed] |},
       Some ("step " ++ strconv.Itoa k ++ " (" ++ normalAction step ++ "): " ++ cause),
       w2)
    /\ Z.of_nat (List.length (oks ++ [failed])%list) = k
    /\ okReports 1 pre oks
    /\ reportOf k step "error" cause failed.
Proof.
  intros k empty Hsteps Hvalid Habs Hmk Hpre Hfail.
  destruct (runSteps_ok_reports _ _ _ _ _ _ _ _ _ Hpre) as (oks & Hres1 & Hoks).
  simpl in Hres1, Hoks.
  exists oks.
  eexists {| RunStepResult.Index := k;
             RunStepResult.Action := normalAction step;
             RunStepResult.Status := "error";
             RunStepResult.DurationMS := Milliseconds (now w2 - now w1);
             RunStepResult.Error := cause |}.
  split; [|split; [|split]].
  - unfold RunPlan. rewrite Hvalid.
    fold (effectiveUDID plan). fold (effectiveOutputDir plan).
    unfold bind at 1.
    destruct (Abs (effectiveOutputDir plan) w) as [r wa] eqn:HA.
    assert (wa = w) as -> by (unfold Abs in HA; congruence).
    simpl in Habs. subst r.
    unfold bind at 1, MkdirAll at 1. rewrite Hmk.
    unfold bind at 1. rewrite Hsteps.
    fold empty.
    rewrite (runSteps_app _ _ _ _ _ _ _ _ _ _ Hpre).
    simpl. unfold bind at 1, timeNow at 1.
    fold (normalAction step). unfold bind at 1. rewrite Hfail.
    unfold bind, timeNow, ret. rewrite Hres1. simpl.
    unfold appendStep; simpl. unfold k.
    replace (0 + Z.of_nat (List.length pre) + 1)
      with (Z.of_nat (List.length pre) + 1) by lia.
    reflexivity.
  - rewrite length_app, (okReports_length _ _ _ Hoks). simpl. unfold k. lia.
  - exact Hoks.
  - repeat split.
Qed.

End RunFacts.

(** A plan of three steps whose second step names no action of the
    engine, run in a world whose one timer fires on time. *)
Definition bareStep (action : string) : PlanStep.t :=
  {| PlanStep.Action := action;
     PlanStep.Label := None; PlanStep.ID := None; PlanStep.Contains := None;
     PlanStep.Text := None; PlanStep.Name := None;
     PlanStep.X := None; PlanStep.Y := None; PlanStep.Keycodes := [];
     PlanStep.DurationMS := None; PlanStep.TimeoutMS := None;
     PlanStep.PollIntervalMS := None |}.

Definition demoPlan : Plan.t :=
  {| Plan.Version := 1;
     Plan.App := {| PlanApp.BundleID := "com.example.app";
                    PlanApp.UDID := "";
                    PlanApp.OutputDir := "/tmp/shots" |};
     Plan.Defaults := {| PlanDefaults.PostActionDelayMS := 0 |};
     Plan.Steps := [bareStep "wait"; bareStep " Swipe"; bareStep "launch"] |}.

Definition quietWorld : World :=
  {| now := 0; execs := []; timers := [Fired 0]; captures := []; trace := [];
     cwd := Ok "/home"; mkdirError := fun _ => None |}.

Lemma RunPlan_stops_at_failing_step_witness :
  exists (oks : list RunStepResult.t) (failed : RunStepResult.t),
    @RunPlan asciiLib openPackage (Some demoPlan) quietWorld
    = (Some {| RunResult.BundleID := "com.example.app";
               RunResult.UDID := "booted";
               RunResult.OutputDir := "/tmp/shots";
               RunResult.Steps := oks ++ [failed] |},
       Some ("step 2 (swipe): unsupported action "
             ++ doubleQuote ++ "swipe" ++ doubleQuote),
       {| now := 0; execs := []; timers := []; captures := [];
          trace := [EvWait 0 0];
          cwd := Ok "/home"; mkdirError := fun _ => None |})
    /\ Z.of_nat (List.length (oks ++ [failed])%list) = 2
    /\ @okReports asciiLib 1 [bareStep "wait"] oks
    /\ @reportOf asciiLib 2 (bareStep " Swipe") "error"
         ("unsupported action " ++ doubleQuote ++ "swipe" ++ doubleQuote) failed.
Proof.
  eapply (@RunPlan_stops_at_failing_step asciiLib openPackage demoPlan
            [bareStep "wait"] [bareStep "launch"] (bareStep " Swipe")
            quietWorld);
    vm_compute; reflexivity.
Defined.

(** ** The wait_for matcher *)

(** A measure on values, for induction through arrays and maps. *)
Fixpoint vsize (v : value) : nat :=
  match v with
  | VArr elems => S (list_sum (map vsize elems))
  | VMap m => S (map_fold (fun _ x acc => (vsize x + acc)%nat) 0%nat m)
  | _ => 1%nat
  end.

Lemma vsize_elem (elems : list value) x :
  x ∈ elems -> (vsize x < vsize (VArr elems))%nat.
Proof.
  intros Hx. simpl. induction Hx; simpl; lia.
Qed.

Lemma vsize_member (m : gmap string value) k x :
  m !! k = Some x -> (vsize x < vsize (VMap m))%nat.
Proof.
  intros Hk. simpl. rewrite map_fold_foldr.
  apply elem_of_map_to_list in Hk.
  induction (map_to_list m) as [|[k' x'] l IH]; [by apply elem_of_nil in Hk|].
  apply elem_of_cons in Hk as [[= <- <-]|Hk]; cbn in *; [lia|].
  specialize (IH Hk). lia.
Qed.

(** A [range] over a map that returns true at the first hit finds a hit
    exactly when some member is one, whatever the order of the visit. *)
Lemma map_fold_orb {A} (f : A -> bool) (m : gmap string A) :
  map_fold (fun _ x found => f x || found) false m = true
  <-> exists k x, m !! k = Some x /\ f x = true.
Proof.
  rewrite map_fold_foldr. split.
  - intros Hf.
    assert (exists kx, kx ∈ map_to_list m /\ f kx.2 = true) as ([k x] & Hin & Hfx).
    { induction (map_to_list m) as [|[k x] l IH]; simpl in Hf; [discriminate|].
      apply orb_true_iff in Hf as [Hf|Hf].
      - exists (k, x). split; [left|done].
      - destruct (IH Hf) as (kx & ? & ?). exists kx. split; [by right|done]. }
    exists k, x. split; [by apply elem_of_map_to_list|done].
  - intros (k & x & Hk & Hfx). apply elem_of_map_to_list in Hk.
    induction (map_to_list m) as [|[k' x'] l IH]; [by apply elem_of_nil in Hk|].
    cbn. apply orb_true_iff.
    apply elem_of_cons in Hk as [[= <- <-]|Hk]; auto.
Qed.

(** [subvalue v root]: [v] sits somewhere in [root], at any depth. *)
Inductive subvalue (v : value) : value -> Prop :=
| subvalue_here : subvalue v v
| subvalue_elem elems x : x ∈ elems -> subvalue v x -> subvalue v (VArr elems)
| subvalue_member m k x : m !! k = Some x -> subvalue v x -> subvalue v (VMap m).

Section Matcher.
Context `{GoLib}.

(** The node [n] answers the target: its unique-id equals a non-empty
    [id] under case folding, or its label equals a non-empty [label]
    under case folding, or a non-empty [contains] occurs in its
    lower-cased label or value. *)
Definition hitsTarget (n : gmap string value) (id label contains : string) : Prop :=
  (id <> "" /\ strings.EqualFold (toString (index n "AXUniqueId")) id = true)
  \/ (label <> "" /\ strings.EqualFold (toString (index n "AXLabel")) label = true)
  \/ (contains <> ""
      /\ (strings.Contains (strings.ToLower (toString (index n "AXLabel"))) contains = true
          \/ strings.Contains (strings.ToLower (toString (index n "AXValue"))) contains = true)).

(** The same with the targets as the step spells them: nothing trimmed,
    an absent id or label answering no node. *)
Definition hitsStep (n : gmap string value) (step : PlanStep.t) : Prop :=
  (exists t, PlanStep.ID step = Some t
             /\ strings.EqualFold (toString (index n "AXUniqueId")) t = true)
  \/ (exists t, PlanStep.Label step = Some t
                /\ strings.EqualFold (toString (index n "AXLabel")) t = true)
  \/ (exists t, PlanStep.Contains step = Some t /\ t <> ""
        /\ (strings.Contains (strings.ToLower (toString (index n "AXLabel")))
                             (strings.ToLower t) = true
            \/ strings.Contains (strings.ToLower (toString (index n "AXValue")))
                                (strings.ToLower t) = true)).

Lemma negb_eqb_true s t : negb (String.eqb s t) = true <-> s <> t.
Proof. rewrite negb_true_iff. apply String.eqb_neq. Qed.

Lemma nodeMatches_iff id label contains : forall root,
  nodeMatches root id label contains = true
  <-> exists n, subvalue (VMap n) root /\ hitsTarget n id label contains.
Proof.
  intros root. remember (vsize root) as size eqn:Hsize.
  revert root Hsize. induction (lt_wf size) as [size _ IH].
  intros root ->.
  destruct root as [| | | |elems|m].
  1-4: split; [discriminate|intros (n & Hsub & _); inversion Hsub].
  - simpl. rewrite existsb_exists. split.
    + intros (x & Hx & Hm). apply list_elem_of_In in Hx.
      apply (IH _ (vsize_elem _ _ Hx) _ eq_refl) in Hm as (n & Hsub & Hhit).
      exists n. split; [eapply subvalue_elem; eauto|done].
    + intros (n & Hsub & Hhit). inversion Hsub as [|? x Hx Hsub'|]; subst.
      exists x. split; [by apply list_elem_of_In|].
      apply (IH _ (vsize_elem _ _ Hx) _ eq_refl). eauto.
  - cbn [nodeMatches].
    split.
    + intros Hm.
      destruct (negb (String.eqb id "") && _) eqn:Hid.
      { apply andb_true_iff in Hid as [? ?]. exists m. split; [constructor|].
        left. split; [by apply negb_eqb_true|done]. }
      destruct (negb (String.eqb label "") && _) eqn:Hlabel.
      { apply andb_true_iff in Hlabel as [? ?]. exists m. split; [constructor|].
        right; left. split; [by apply negb_eqb_true|done]. }
      destruct (negb (String.eqb contains "") && _) eqn:Hc.
      { apply andb_true_iff in Hc as [? Hc]. apply orb_true_iff in Hc.
        exists m. split; [constructor|].
        right; right. split; [by apply negb_eqb_true|done]. }
      apply map_fold_orb in Hm as (k & x & Hk & Hx).
      apply (IH _ (vsize_member _ _ _ Hk) _ eq_refl) in Hx as (n & Hsub & Hhit).
      exists n. split; [eapply subvalue_member; eauto|done].
    + intros (n & Hsub & Hhit).
      destruct (negb (String.eqb id "") && _) eqn:Hid; [done|].
      destruct (negb (String.eqb label "") && _) eqn:Hlabel; [done|].
      destruct (negb (String.eqb contains "") && _) eqn:Hc; [done|].
      inversion Hsub as [| |? k x Hk Hsub']; subst.
      * exfalso. destruct Hhit as [[Hne He]|[[Hne He]|[Hne He]]].
        -- apply negb_eqb_true in Hne. rewrite Hne, He in Hid. discriminate.
        -- apply negb_eqb_true in Hne. rewrite Hne, He in Hlabel. discriminate.
        -- apply negb_eqb_true in Hne. apply orb_true_iff in He.
           rewrite Hne, He in Hc. discriminate.
      * apply map_fold_orb. exists k, x. split; [done|].
        apply (IH _ (vsize_member _ _ _ Hk) _ eq_refl). eauto.
Qed.

(** C3, amended.  When describe-ui prints a JSON document, the matcher
    reports a match if and only if some object anywhere in the decoded
    tree, at any depth, has a unique-id equal under case folding to the
    step's id, trimmed and then not empty, or a label equal under case
    folding to the step's label, trimmed and then not empty, or the
    step's contains text, trimmed, lower-cased and then not empty,
    inside its lower-cased label or value.  The answer is that of a search
    that stops at the first hit: it does not depend on the order in
    which the members of an object are visited. *)
Theorem axeMatchesTarget_match_iff (udid : string) (step : PlanStep.t)
    (w : World) (took : N) (j : json) :
  nextExec w = {| exec_took := took; exec_outcome := Exited (WellFormed j) |} ->
  exists matched : bool,
    (axeMatchesTarget udid step w).1 = (matched, None)
    /\ (matched = true
        <-> exists n, subvalue (VMap n) (decodeAny j)
              /\ hitsTarget n
                   (strings.TrimSpace (stringValue (PlanStep.ID step)))
                   (strings.TrimSpace (stringValue (PlanStep.Label step)))
                   (strings.ToLower
                      (strings.TrimSpace (stringValue (PlanStep.Contains step))))).
Proof.
  intros Hnext. eexists. split.
  - unfold axeMatchesTarget, runExternalOutput, bind, spawn, ret.
    rewrite Hnext. simpl. reflexivity.
  - apply nodeMatches_iff.
Qed.

End Matcher.

(** The screen shows one element labelled " Ready ", spaces included. *)
Definition paddedScreen : json := JObj [("AXLabel", JStr " Ready ")].

Definition paddedWorld : World :=
  {| now := 0;
     execs := [{| exec_took := 0; exec_outcome := Exited (WellFormed paddedScreen) |}];
     timers := []; captures := []; trace := [];
     cwd := Ok "/home"; mkdirError := fun _ => None |}.

Definition waitForLabel (label : string) : PlanStep.t :=
  {| PlanStep.Action := "wait_for";
     PlanStep.Label := Some label; PlanStep.ID := None; PlanStep.Contains := None;
     PlanStep.Text := None; PlanStep.Name := None;
     PlanStep.X := None; PlanStep.Y := None; PlanStep.Keycodes := [];
     PlanStep.DurationMS := None; PlanStep.TimeoutMS := None;
     PlanStep.PollIntervalMS := None |}.

Lemma axeMatchesTarget_match_iff_witness :
  exists matched : bool,
    (@axeMatchesTarget asciiLib "booted" (waitForLabel "ready ") paddedWorld).1
    = (matched, None)
    /\ (matched = true
        <-> exists n, subvalue (VMap n) (decodeAny paddedScreen)
              /\ @hitsTarget asciiLib n "" "ready" "").
Proof.
  apply (@axeMatchesTarget_match_iff asciiLib "booted" (waitForLabel "ready ")
           paddedWorld 0%N paddedScreen).
  reflexivity.
Defined.

(** C3 as stated fails: a step that waits for the label " Ready " is not
    matched by the element whose label is exactly " Ready ", because the
    target is trimmed before the comparison and the label is not. *)
Lemma axeMatchesTarget_padded_label_counterexample :
  ~ ((@axeMatchesTarget asciiLib "booted" (waitForLabel " Ready ") paddedWorld).1
     = (true, None)
     <-> exists n, subvalue (VMap n) (decodeAny paddedScreen)
           /\ @hitsStep asciiLib n (waitForLabel " Ready ")).
Proof.
  intros [_ Hclaim].
  assert (Hno : (@axeMatchesTarget asciiLib "booted" (waitForLabel " Ready ")
                   paddedWorld).1 = (false, None)) by (vm_compute; reflexivity).
  rewrite Hno in Hclaim.
  enough ((false, @None string) = (true, None)) by discriminate.
  apply Hclaim. eexists. split; [apply subvalue_here|].
  right; left. exists " Ready ". split; [reflexivity|].
  vm_compute. reflexivity.
Qed.

(** ** The polling loop of wait_for *)

(** The command line of one poll. *)
Definition describeUI (udid : string) : list string :=
  ["axe"; "describe-ui"; "--udid"; udid].

(** The times at which the polls among the events were started. *)
Fixpoint pollTimes (udid : string) (evs : list Event) : list Z :=
  match evs with
  | [] => []
  | EvExec when argv :: evs' =>
    if decide (argv = describeUI udid) then when :: pollTimes udid evs'
    else pollTimes udid evs'
  | _ :: evs' => pollTimes udid evs'
  end.

(** Each time is at least [gap] after the one before. *)
Fixpoint spaced (gap : Z) (times : list Z) : Prop :=
  match times with
  | a :: (b :: _) as later => a + gap <= b /\ spaced gap later
  | _ => True
  end.

(** The timeout and the poll interval a step asks for, in milliseconds:
    its own value when that is positive, the default otherwise. *)
Definition timeoutBudget (step : PlanStep.t) : Z :=
  match PlanStep.TimeoutMS step with
  | Some t => if 0 <? t then t else 15000
  | None => 15000
  end.

Definition pollInterval (step : PlanStep.t) : Z :=
  match PlanStep.PollIntervalMS step with
  | Some p => if 0 <? p then p else 400
  | None => 400
  end.

(** The largest number of milliseconds whose nanoseconds fit in an
    [int64]. *)
Definition maxMilliseconds : Z := 9223372036854.

Definition timeoutMessage (timeout : Z) : string :=
  "wait_for timed out after " ++ strconv.Itoa timeout ++ "ms".

Lemma milliseconds_exact ms :
  0 <= ms <= maxMilliseconds -> milliseconds ms = ms * 1000000.
Proof.
  unfold milliseconds, wrap64, maxMilliseconds. intros Hms.
  rewrite Z.mod_small; lia.
Qed.

Section WaitFor.
Context `{GoLib}.

(** One poll: the call is logged at the time it is made, takes one reply
    from the process queue, and fails with an error of the axe command
    unless the process prints a JSON document. *)
Lemma axeMatchesTarget_poll udid step w :
  exists matched err w1,
    axeMatchesTarget udid step w = ((matched, err), w1)
    /\ trace w1 = EvExec (now w) (describeUI udid) :: trace w
    /\ now w <= now w1
    /\ execs w1 = tl (execs w)
    /\ (forall e, err = Some e -> strings.HasPrefix e "axe" = true)
    /\ ((forall j, exec_outcome (nextExec w) <> Exited (WellFormed j)) ->
        matched = false /\ err <> None).
Proof.
  unfold axeMatchesTarget, runExternalOutput, bind, spawn, ret.
  destruct (exec_outcome (nextExec w)) as [[text e|j]|e out stderr] eqn:Hout;
    simpl.
  - do 3 eexists. split; [reflexivity|]. simpl. conjs; try lia; try done.
    intros ? [= <-]. reflexivity.
  - do 3 eexists. split; [reflexivity|]. simpl. conjs; try lia; try done.
    intros Hj. by destruct (Hj j).
  - match goal with |- context [if ?c then _ else _] => destruct c end;
      do 3 eexists; (split; [reflexivity|]); simpl; conjs; try lia; try done;
      intros ? [= <-]; reflexivity.
Qed.

Lemma sleep_wait duration w :
  exists err w1,
    sleep duration w = (err, w1)
    /\ trace w1 = EvWait (now w) duration :: trace w
    /\ execs w1 = execs w
    /\ now w <= now w1
    /\ (err = None -> now w + duration <= now w1)
    /\ (forall e, err = Some e -> exists why, e = contextErrorText why).
Proof.
  unfold sleep. destruct (hd _ (timers w)) as [late|after why]; simpl;
    do 2 eexists; (split; [reflexivity|]); simpl; conjs; try lia;
    try reflexivity; try discriminate.
  intros ? [= <-]. eauto.
Qed.

Lemma pollTimes_poll udid when rest :
  pollTimes udid (EvExec when (describeUI udid) :: rest)
  = when :: pollTimes udid rest.
Proof. simpl. destruct (decide _); [done|congruence]. Qed.

(** The loop, from any world on: its first act is a poll; the polls are
    spaced by the poll interval; and an error worded as a timeout is the
    timeout error, returned when the clock has passed the deadline. *)
Lemma waitForLoop_inv step udid timeout poll deadline : forall turns w,
  exists err w' evs,
    waitForLoop turns step udid timeout poll deadline w = (err, w')
    /\ trace w' = (rev evs ++ trace w)%list
    /\ now w <= now w'
    /\ (turns <> O -> exists rest, evs = EvExec (now w) (describeUI udid) :: rest)
    /\ (forall t ts, pollTimes udid evs = t :: ts -> t = now w)
    /\ spaced (milliseconds poll) (pollTimes udid evs)
    /\ (forall msg, err = Some msg ->
          strings.HasPrefix msg "wait_for timed out" = true ->
          msg = timeoutMessage timeout /\ deadline < now w').
Proof.
  induction turns as [|turns IH]; intros w.
  - exists (Some "wait_for: out of turns"), w, []. simpl.
    conjs; try done; try lia.
    intros msg [= <-] Hp; vm_compute in Hp; discriminate.
  - cbn [waitForLoop]. unfold bind at 1.
    destruct (axeMatchesTarget_poll udid step w)
      as (matched & err & w1 & -> & Htr1 & Hnow1 & _ & Herr1 & _).
    pose proof (pollTimes_poll udid (now w) []) as Hone.
    destruct err as [e|].
    { exists (Some e), w1, [EvExec (now w) (describeUI udid)].
      split; [reflexivity|]. rewrite Hone. simpl.
      conjs; try done; try congruence; eauto.
      intros msg [= <-] Hp. specialize (Herr1 _ eq_refl).
      destruct e as [|c e]; [discriminate|]. simpl in *.
      destruct (Ascii.eqb_spec c "a"); [|discriminate]. subst.
      simpl in Hp. discriminate. }
    destruct matched.
    { exists None, w1, [EvExec (now w) (describeUI udid)].
      split; [reflexivity|]. rewrite Hone. simpl.
      conjs; try done; try congruence; eauto. }
    unfold bind at 1, timeNow at 1.
    destruct (deadline <? now w1) eqn:Hdl.
    { exists (Some (timeoutMessage timeout)), w1, [EvExec (now w) (describeUI udid)].
      split; [reflexivity|]. rewrite Hone. simpl.
      conjs; try done; try congruence; try lia; eauto.
      intros msg [= <-] _. split; [reflexivity|lia]. }
    unfold bind at 1, waitContext at 1.
    destruct (sleep_wait (milliseconds poll) w1)
      as (err2 & w2 & -> & Htr2 & _ & Hnow2 & Hfired & Hcancel).
    destruct err2 as [e|].
    { exists (Some e), w2,
        [EvExec (now w) (describeUI udid); EvWait (now w1) (milliseconds poll)].
      split; [reflexivity|].
      split; [simpl; rewrite Htr2, Htr1; reflexivity|].
      split; [lia|].
      rewrite pollTimes_poll. simpl. conjs; try done; try congruence; eauto.
      intros msg [= <-] Hp. destruct (Hcancel _ eq_refl) as [[] ->]; discriminate. }
    destruct (IH w2) as (err & w' & evs & Hrun & Htr & Hnow & _ & Hfirst & Hsp & Hmsg).
    exists err, w', (EvExec (now w) (describeUI udid)
                     :: EvWait (now w1) (milliseconds poll) :: evs).
    split; [exact Hrun|].
    split.
    { rewrite Htr, Htr2, Htr1. simpl. rewrite <- !app_assoc. reflexivity. }
    split; [lia|].
    split; [eauto|].
    rewrite pollTimes_poll. simpl pollTimes.
    split; [intros ? ? [= <- _]; reflexivity|].
    split; [|exact Hmsg].
    destruct (pollTimes udid evs) as [|t ts] eqn:Hts; [done|].
    split; [|exact Hsp].
    rewrite (Hfirst _ _ eq_refl). specialize (Hfired eq_refl). lia.
Qed.

(** The loop never runs out of turns: any two turn counts above the
    length of the process queue give the same run. *)
Lemma waitForLoop_fuel step udid timeout poll deadline : forall turns turns' w,
  (List.length (execs w) < turns)%nat ->
  (List.length (execs w) < turns')%nat ->
  waitForLoop turns step udid timeout poll deadline w
  = waitForLoop turns' step udid timeout poll deadline w.
Proof.
  induction turns as [|turns IH]; intros turns' w Hlt Hlt'; [lia|].
  destruct turns' as [|turns']; [lia|].
  cbn [waitForLoop]. unfold bind, timeNow, waitContext.
  destruct (axeMatchesTarget_poll udid step w)
    as (matched & err & w1 & -> & _ & _ & Hexecs & _ & Hfail).
  destruct err as [e|]; [reflexivity|].
  destruct matched; [reflexivity|].
  destruct (deadline <? now w1); [reflexivity|].
  destruct (sleep_wait (milliseconds poll) w1)
    as (err2 & w2 & -> & _ & Hexecs2 & _).
  destruct err2 as [e|]; [reflexivity|].
  destruct (execs w) as [|r rs] eqn:Hq.
  { destruct Hfail as [_ Hfail]; [|done].
    intros j. unfold nextExec. rewrite Hq. discriminate. }
  apply IH; rewrite Hexecs2, Hexecs; simpl in *; lia.
Qed.

(** So the error that stands for a loop out of turns is never returned. *)
Lemma waitForLoop_turns_suffice step udid timeout poll deadline : forall turns w,
  (List.length (execs w) < turns)%nat ->
  (waitForLoop turns step udid timeout poll deadline w).1
  <> Some "wait_for: out of turns".
Proof.
  induction turns as [|turns IH]; intros w Hlt; [lia|].
  cbn [waitForLoop]. unfold bind, timeNow, waitContext.
  destruct (axeMatchesTarget_poll udid step w)
    as (matched & err & w1 & -> & _ & _ & Hexecs & Haxe & Hfail).
  destruct err as [e|].
  { simpl. intros [= ->]. by specialize (Haxe _ eq_refl). }
  destruct matched; [discriminate|].
  destruct (deadline <? now w1); [discriminate|].
  destruct (sleep_wait (milliseconds poll) w1)
    as (err2 & w2 & -> & _ & Hexecs2 & _ & _ & Hcancel).
  destruct err2 as [e|].
  { simpl. intros [= ->]. by destruct (Hcancel _ eq_refl) as [[] ?]. }
  destruct (execs w) as [|r rs] eqn:Hq.
  { destruct Hfail as [_ Hfail]; [|done].
    intros j. unfold nextExec. rewrite Hq. discriminate. }
  apply IH. rewrite Hexecs2, Hexecs. simpl in *. lia.
Qed.

Lemma runWaitForStep_unfold step udid w :
  runWaitForStep step udid w
  = waitForLoop (S (List.length (execs w))) step udid
      (timeoutBudget step) (pollInterval step)
      (now w + milliseconds (timeoutBudget step)) w.
Proof.
  unfold runWaitForStep, bind, timeNow, timeoutBudget, pollInterval, intValue.
  destruct (PlanStep.TimeoutMS step) as [t|], (PlanStep.PollIntervalMS step) as [p|];
    repeat match goal with
           | |- context [?a <=? ?b] => destruct (Z.leb_spec a b)
           | |- context [?a <? ?b] => destruct (Z.ltb_spec a b)
           end; try lia; reflexivity.
Qed.


(** The worlds in which a wait_for step that began in [w] makes a poll:
    [w] itself; and, after a poll that printed a tree without the
    target, at a time that is not past the deadline, the world in which
    the timer of the poll interval has fired. *)
Inductive pollsIn (step : PlanStep.t) (udid : string) (w : World) : World -> Prop :=
| pollsFirst : pollsIn step udid w w
| pollsAgain w0 w1 w2 :
    pollsIn step udid w w0 ->
    axeMatchesTarget udid step w0 = ((false, None), w1) ->
    (now w + milliseconds (timeoutBudget step) <? now w1) = false ->
    waitContext (milliseconds (pollInterval step)) w1 = (None, w2) ->
    pollsIn step udid w w2.

(** A poll that goes through took its reply from the queue. *)
Lemma axeMatchesTarget_took udid step w matched w1 :
  axeMatchesTarget udid step w = ((matched, None), w1) ->
  S (List.length (execs w1)) = List.length (execs w).
Proof.
  intros Hpoll.
  destruct (axeMatchesTarget_poll udid step w)
    as (matched' & err & w1' & Hrun & _ & _ & Hexecs & _ & Hfail).
  rewrite Hpoll in Hrun. injection Hrun as <- <- <-.
  destruct (execs w) as [|r rs] eqn:Hq.
  - destruct Hfail as [_ Hfail]; [|done].
    intros j. unfold nextExec. rewrite Hq. discriminate.
  - rewrite Hexecs. reflexivity.
Qed.

(** From a world in which the step polls, the loop goes on as it began. *)
Lemma pollsIn_loop step udid w w0 :
  pollsIn step udid w w0 ->
  (List.length (execs w0) <= List.length (execs w))%nat
  /\ runWaitForStep step udid w
     = waitForLoop (S (List.length (execs w0))) step udid
         (timeoutBudget step) (pollInterval step)
         (now w + milliseconds (timeoutBudget step)) w0.
Proof.
  induction 1 as [|w0 w1 w2 Hreach [Hlen IH] Hpoll Hdl Hsleep].
  - split; [lia|apply runWaitForStep_unfold].
  - pose proof (axeMatchesTarget_took _ _ _ _ _ Hpoll) as Htook.
    destruct (sleep_wait (milliseconds (pollInterval step)) w1)
      as (err2 & w2' & Hsl & _ & Hexecs2 & _).
    unfold waitContext in Hsleep. rewrite Hsleep in Hsl.
    injection Hsl as _ Hw2. rewrite <- Hw2 in Hexecs2.
    split; [rewrite Hexecs2; lia|].
    rewrite IH, <- Htook, <- Hexecs2.
    remember (waitForLoop (S (List.length (execs w2))) step udid (timeoutBudget step)
                (pollInterval step) (now w + milliseconds (timeoutBudget step)) w2)
      as rest eqn:Hrest.
    cbn [waitForLoop]. unfold bind at 1. rewrite Hpoll.
    unfold bind at 1, timeNow at 1. rewrite Hdl.
    unfold bind at 1, waitContext at 1. rewrite Hsleep.
    exact (eq_sym Hrest).
Qed.

(** Every process the loop starts is a poll, made in a world in which
    the step polls. *)
Lemma waitForLoop_polls step udid w : forall turns w0,
  pollsIn step udid w w0 ->
  exists evs,
    trace (waitForLoop turns step udid (timeoutBudget step) (pollInterval step)
             (now w + milliseconds (timeoutBudget step)) w0).2
    = (rev evs ++ trace w0)%list
    /\ forall when argv,
         EvExec when argv ∈ evs ->
         argv = describeUI udid
         /\ exists wp, pollsIn step udid w wp /\ now wp = when.
Proof.
  induction turns as [|turns IH]; intros w0 Hreach.
  - exists []. split; [reflexivity|]. intros when argv Hin. by apply elem_of_nil in Hin.
  - cbn [waitForLoop]. unfold bind at 1.
    destruct (axeMatchesTarget udid step w0) as [[matched err] w1] eqn:Hpoll.
    destruct (axeMatchesTarget_poll udid step w0)
      as (matched' & err' & w1' & Hrun & Htr1 & _).
    rewrite Hpoll in Hrun. injection Hrun as <- <- <-.
    assert (Hone : forall when argv,
               EvExec when argv ∈ [EvExec (now w0) (describeUI udid)] ->
               argv = describeUI udid
               /\ exists wp, pollsIn step udid w wp /\ now wp = when).
    { intros when argv Hin. apply list_elem_of_singleton in Hin.
      injection Hin as -> ->. split; [reflexivity|]. by exists w0. }
    destruct err as [e|].
    { exists [EvExec (now w0) (describeUI udid)]. split; [exact Htr1|exact Hone]. }
    destruct matched.
    { exists [EvExec (now w0) (describeUI udid)]. split; [exact Htr1|exact Hone]. }
    unfold bind at 1, timeNow at 1.
    destruct (now w + milliseconds (timeoutBudget step) <? now w1) eqn:Hdl.
    { exists [EvExec (now w0) (describeUI udid)]. split; [exact Htr1|exact Hone]. }
    unfold bind at 1.
    destruct (waitContext (milliseconds (pollInterval step)) w1) as [err2 w2] eqn:Hsleep.
    destruct (sleep_wait (milliseconds (pollInterval step)) w1)
      as (err2' & w2' & Hsl & Htr2 & _).
    unfold waitContext in Hsleep. rewrite Hsleep in Hsl. injection Hsl as <- <-.
    assert (Htwo : forall when argv,
               EvExec when argv
               ∈ [EvExec (now w0) (describeUI udid);
                  EvWait (now w1) (milliseconds (pollInterval step))] ->
               argv = describeUI udid
               /\ exists wp, pollsIn step udid w wp /\ now wp = when).
    { intros when argv Hin. apply elem_of_cons in Hin as [Hin|Hin].
      - apply Hone. rewrite Hin. by apply list_elem_of_singleton.
      - apply list_elem_of_singleton in Hin. discriminate. }
    destruct err2 as [e|].
    { exists [EvExec (now w0) (describeUI udid);
              EvWait (now w1) (milliseconds (pollInterval step))].
      split; [simpl; rewrite Htr2, Htr1; reflexivity|exact Htwo]. }
    destruct (IH w2 (pollsAgain _ _ _ _ _ _ Hreach Hpoll Hdl Hsleep))
      as (evs & Htr & Hevs).
    exists (EvExec (now w0) (describeUI udid)
            :: EvWait (now w1) (milliseconds (pollInterval step)) :: evs).
    split.
    + rewrite Htr, Htr2, Htr1. simpl. rewrite <- !app_assoc. reflexivity.
    + intros when argv Hin. apply elem_of_cons in Hin as [Hin|Hin].
      * apply Htwo. rewrite Hin. apply elem_of_cons. by left.
      * apply elem_of_cons in Hin as [Hin|Hin]; [discriminate|]. by apply Hevs.
Qed.

(** C10.  A wait_for step starts with a poll, whatever its timeout: the
    first event of the step is the describe-ui call, made at the time
    the step begins, and every process the step starts is such a poll.
    Whichever poll of the step it is, the first or a later one: when its
    process fails or prints something that is not JSON, the step returns
    the error of that poll and the world is as that poll left it, so
    nothing is tried again and no timer is set after it. *)
Theorem runWaitForStep_polls_first_fails_fast (step : PlanStep.t) (udid : string)
    (w : World) :
  (exists rest,
     trace (runWaitForStep step udid w).2
     = (rev (EvExec (now w) (describeUI udid) :: rest) ++ trace w)%list
     /\ forall when argv,
          EvExec when argv ∈ rest ->
          argv = describeUI udid
          /\ exists w0, pollsIn step udid w w0 /\ now w0 = when)
  /\ (forall w0,
        pollsIn step udid w w0 ->
        (forall j, exec_outcome (nextExec w0) <> Exited (WellFormed j)) ->
        exists e w1,
          axeMatchesTarget udid step w0 = ((false, Some e), w1)
          /\ trace w1 = EvExec (now w0) (describeUI udid) :: trace w0
          /\ runWaitForStep step udid w = (Some e, w1))
  /\ (forall w0 matched e w1,
        pollsIn step udid w w0 ->
        axeMatchesTarget udid step w0 = ((matched, Some e), w1) ->
        runWaitForStep step udid w = (Some e, w1)).
Proof.
  assert (Hfast : forall w0 matched e w1,
             pollsIn step udid w w0 ->
             axeMatchesTarget udid step w0 = ((matched, Some e), w1) ->
             runWaitForStep step udid w = (Some e, w1)).
  { intros w0 matched e w1 Hreach Hpoll.
    destruct (pollsIn_loop _ _ _ _ Hreach) as [_ ->].
    cbn [waitForLoop]. unfold bind at 1. rewrite Hpoll. reflexivity. }
  conjs.
  - rewrite runWaitForStep_unfold.
    destruct (waitForLoop_inv step udid (timeoutBudget step) (pollInterval step)
                (now w + milliseconds (timeoutBudget step))
                (S (List.length (execs w))) w)
      as (err & w' & evs & Hrun & Htr & _ & Hfirst & _).
    destruct Hfirst as [rest ->]; [done|].
    exists rest. rewrite Hrun. split; [exact Htr|].
    destruct (waitForLoop_polls step udid w (S (List.length (execs w))) w
                (pollsFirst _ _ _)) as (evs & Htr' & Hevs).
    rewrite Hrun in Htr'. cbn [snd] in Htr'. rewrite Htr in Htr'.
    apply app_inv_tail, rev_inj in Htr'. subst evs.
    intros when argv Hin. apply Hevs. apply elem_of_cons. by right.
  - intros w0 Hreach Hbad.
    destruct (axeMatchesTarget_poll udid step w0)
      as (matched & err & w1 & Hrun & Htr & _ & _ & _ & Hfail).
    destruct (Hfail Hbad) as [-> Herr].
    destruct err as [e|]; [|done].
    exists e, w1. conjs; [exact Hrun|exact Htr|].
    exact (Hfast _ _ _ _ Hreach Hrun).
  - exact Hfast.
Qed.

End WaitFor.

(** A screen that never shows the label waited for, and a timer that
    fires twenty seconds late: the second poll finds the deadline
    passed. *)
Definition blankScreen : ExecReply :=
  {| exec_took := 0; exec_outcome := Exited (WellFormed (JObj [])) |}.

Definition slowWorld : World :=
  {| now := 0; execs := [blankScreen; blankScreen];
     timers := [Fired 20000000000]; captures := []; trace := [];
     cwd := Ok "/home"; mkdirError := fun _ => None |}.

Definition waitForReady (timeoutMS pollMS : option Z) : PlanStep.t :=
  {| PlanStep.Action := "wait_for";
     PlanStep.Label := Some "Ready"; PlanStep.ID := None; PlanStep.Contains := None;
     PlanStep.Text := None; PlanStep.Name := None;
     PlanStep.X := None; PlanStep.Y := None; PlanStep.Keycodes := [];
     PlanStep.DurationMS := None; PlanStep.TimeoutMS := timeoutMS;
     PlanStep.PollIntervalMS := pollMS |}.

Example runWaitForStep_times_out :
  (@runWaitForStep asciiLib (waitForReady None None) "booted" slowWorld).1
  = Some "wait_for timed out after 15000ms".
Proof. vm_compute. reflexivity. Qed.


(** A screen without the label on the first poll and an [axe] that
    crashes on the second: the step ends with the crash, the timeout of
    fifteen seconds far away. *)
Definition crashed : ExecReply :=
  {| exec_took := 0; exec_outcome := Failed "exit status 1" "" (Some "axe crashed") |}.

Definition crashingWorld : World :=
  {| now := 0; execs := [blankScreen; crashed; blankScreen];
     timers := [Fired 0; Fired 0]; captures := []; trace := [];
     cwd := Ok "/home"; mkdirError := fun _ => None |}.

Definition secondPoll : World :=
  (@waitContext (milliseconds 400)
     (@axeMatchesTarget asciiLib "booted" (waitForReady None None) crashingWorld).2).2.

Lemma runWaitForStep_polls_first_fails_fast_witness :
  @pollsIn asciiLib (waitForReady None None) "booted" crashingWorld secondPoll
  /\ now secondPoll = 400000000
  /\ exists w1,
       @runWaitForStep asciiLib (waitForReady None None) "booted" crashingWorld
       = (Some "axe: exit status 1 (output: axe crashed)", w1)
       /\ trace w1 = [EvExec 400000000 (describeUI "booted");
                      EvWait 0 400000000;
                      EvExec 0 (describeUI "booted")]
       /\ List.length (execs w1) = 1%nat.
Proof.
  assert (Hpolls : @pollsIn asciiLib (waitForReady None None) "booted"
                     crashingWorld secondPoll).
  { eapply pollsAgain; [apply pollsFirst| | |];
      [vm_compute; reflexivity|vm_compute; reflexivity|vm_compute; reflexivity]. }
  split; [exact Hpolls|]. split; [vm_compute; reflexivity|].
  destruct (@runWaitForStep_polls_first_fails_fast asciiLib (waitForReady None None) "booted"
              crashingWorld) as (_ & _ & Hfast).
  eexists. split.
  - eapply (Hfast secondPoll); [exact Hpolls|vm_compute; reflexivity].
  - split; vm_compute; reflexivity.
Defined.



(** Beyond [maxMilliseconds] the product with [time.Millisecond] wraps
    around: a timeout of 9223372036855 ms is reported on the first poll
    that finds nothing, with no time gone. *)
Example runWaitForStep_timeout_wraps :
  let '(err, w') :=
    @runWaitForStep asciiLib (waitForReady (Some 9223372036855) None)
                    "booted" slowWorld in
  err = Some "wait_for timed out after 9223372036855ms" /\ now w' = now slowWorld.
Proof. vm_compute. split; reflexivity. Qed.

(** ** Locale and device from a relative path *)

(** Every byte of [s] satisfies [P]. *)
Definition allBytes (P : N -> bool) (s : string) : bool := forallb P (bytes s).

Definition isASCII (s : string) : bool := allBytes (fun b => (b <? 128)%N) s.

Definition isLetterASCII (b : N) : bool :=
  unicode.isUpperASCII b || unicode.isLowerASCII b.

Lemma allBytes_drop P n : forall s,
  allBytes P s = true -> allBytes P (dropBytes n s) = true.
Proof.
  induction n as [|n IH]; intros [|c s] Hs; simpl; try done.
  apply IH. unfold allBytes in *. simpl in Hs.
  by apply andb_true_iff in Hs as [_ ?].
Qed.

Lemma allBytes_take P n : forall s,
  allBytes P s = true -> allBytes P (takeBytes n s) = true.
Proof.
  induction n as [|n IH]; intros [|c s] Hs; simpl; try done.
  unfold allBytes in *. simpl in *.
  apply andb_true_iff in Hs as [Hc Hs]. rewrite Hc. simpl. by apply IH.
Qed.

Lemma allBytes_trimLeft P fuel : forall s,
  allBytes P s = true -> allBytes P (strings.trimLeftSpace fuel s) = true.
Proof.
  induction fuel as [|fuel IH]; intros [|c s] Hs; simpl; try done.
  destruct (utf8.DecodeRuneInString _) as [r w].
  destruct (unicode.IsSpace r); [|done].
  apply IH. by apply allBytes_drop.
Qed.

Lemma allBytes_trimRight P fuel : forall s,
  allBytes P s = true -> allBytes P (strings.trimRightSpace fuel s) = true.
Proof.
  induction fuel as [|fuel IH]; intros [|c s] Hs; simpl; try done.
  destruct (utf8.DecodeLastRuneInString _) as [r w].
  destruct (unicode.IsSpace r); [|done].
  apply IH. by apply allBytes_take.
Qed.

Lemma allBytes_TrimSpace P s :
  allBytes P s = true -> allBytes P (strings.TrimSpace s) = true.
Proof.
  intros Hs. unfold strings.TrimSpace.
  by apply allBytes_trimRight, allBytes_trimLeft.
Qed.

Lemma isASCII_ReplaceAll s :
  isASCII s = true -> isASCII (strings.ReplaceAll s "_" "-") = true.
Proof.
  unfold isASCII, allBytes. induction s as [|c s IH]; simpl; [done|].
  intros Hs. apply andb_true_iff in Hs as [Hc Hs]. rewrite (IH Hs), andb_true_r.
  destruct (Ascii.eqb c "_"); [reflexivity|exact Hc].
Qed.

Lemma Split_not_nil s sep : strings.Split s sep <> [].
Proof.
  destruct s as [|c s]; simpl; [done|].
  destruct (Ascii.eqb c sep); [done|]. by destruct (strings.Split s sep).
Qed.

Lemma allBytes_Split P sep : forall s,
  allBytes P s = true -> Forall (fun part => allBytes P part = true) (strings.Split s sep).
Proof.
  induction s as [|c s IH]; intros Hs; simpl.
  - by repeat constructor.
  - unfold allBytes in Hs. simpl in Hs. apply andb_true_iff in Hs as [Hc Hs].
    specialize (IH Hs).
    destruct (Ascii.eqb c sep); [by constructor|].
    destruct (strings.Split s sep) as [|part parts].
    + repeat constructor. unfold allBytes. simpl. by rewrite Hc.
    + inversion IH; subst. constructor; [|done].
      unfold allBytes in *. simpl. by rewrite Hc.
Qed.

(** On ASCII a [range] loop sees the bytes. *)
Lemma runes_ASCII s : isASCII s = true -> utf8.runes s = bytes s.
Proof.
  unfold utf8.runes. generalize (Nat.le_refl (String.length s)).
  generalize (String.length s) at 2 3 as fuel. intros fuel. revert fuel.
  induction s as [|c s IH]; intros fuel Hfuel Hs.
  - by destruct fuel.
  - destruct fuel as [|fuel]; simpl in Hfuel; [lia|].
    unfold isASCII, allBytes in Hs. simpl in Hs.
    apply andb_true_iff in Hs as [Hc Hs].
    cbn [utf8.runesFuel]. unfold utf8.DecodeRuneInString. cbn [bytes].
    unfold utf8.RuneSelf. rewrite Hc. cbn [dropBytes]. f_equal.
    apply IH; [lia|exact Hs].
Qed.

Section Locale.
Context `{GoLib} `{Collaborators}.

Lemma IsLetter_ASCII s :
  isASCII s = true ->
  forallb unicode.IsLetter (bytes s) = allBytes isLetterASCII s.
Proof.
  unfold isASCII, allBytes. induction s as [|c s IH]; simpl; [done|].
  intros Hs. apply andb_true_iff in Hs as [Hc Hs]. rewrite (IH Hs). f_equal.
  unfold unicode.IsLetter, utf8.RuneSelf. by rewrite Hc.
Qed.

(** A group of the locale shape: between [lo] and [hi] letters. *)
Definition letterGroup (lo hi : Z) (group : string) : bool :=
  (lo <=? len group) && (len group <=? hi) && allBytes isLetterASCII group.

(** The locale shape: with underscores read as hyphens and the white
    space around the token dropped, one to three groups between hyphens,
    the first of 2 to 3 letters, each later one of 2 to 8 letters. *)
Definition localeShape (token : string) : bool :=
  match strings.Split (strings.TrimSpace (strings.ReplaceAll token "_" "-")) "-" with
  | [g1] => letterGroup 2 3 g1
  | [g1; g2] => letterGroup 2 3 g1 && letterGroup 2 8 g2
  | [g1; g2; g3] => letterGroup 2 3 g1 && letterGroup 2 8 g2 && letterGroup 2 8 g3
  | _ => false
  end.

Lemma looksLikeLocaleParts_step index part rest :
  isASCII part = true ->
  looksLikeLocaleParts index (part :: rest)
  = letterGroup 2 (if 0 <? index then 8 else 3) part
    && looksLikeLocaleParts (index + 1) rest.
Proof.
  intros Hpart. cbn [looksLikeLocaleParts]. unfold letterGroup.
  rewrite (runes_ASCII _ Hpart), (IsLetter_ASCII _ Hpart).
  destruct (String.eqb_spec part "") as [->|_]; [reflexivity|].
  set (maxLen := if 0 <? index then 8 else 3).
  destruct (Z.ltb_spec (len part) 2), (Z.leb_spec 2 (len part)); try lia;
    destruct (Z.ltb_spec maxLen (len part)), (Z.leb_spec (len part) maxLen);
    try lia; simpl; try reflexivity.
  by destruct (allBytes _ part).
Qed.

Lemma looksLikeLocale_shape token :
  isASCII token = true -> looksLikeLocale token = localeShape token.
Proof.
  intros Htoken. unfold looksLikeLocale, localeShape.
  set (clean := strings.TrimSpace (strings.ReplaceAll token "_" "-")).
  assert (Hclean : isASCII clean = true)
    by apply allBytes_TrimSpace, isASCII_ReplaceAll, Htoken.
  destruct (String.eqb_spec clean "") as [->|_]; [reflexivity|].
  pose proof (allBytes_Split _ "-" _ Hclean) as Hparts.
  pose proof (Split_not_nil clean "-") as Hne.
  destruct (strings.Split clean "-") as [|g1 [|g2 [|g3 [|g4 more]]]]; try done.
  all: repeat match goal with
              | Hall : Forall _ (_ :: _) |- _ => inversion Hall; subst; clear Hall
              end.
  all: cbn [List.length Nat.ltb Nat.leb];
    rewrite ?looksLikeLocaleParts_step by assumption;
    cbn [looksLikeLocaleParts Z.add Z.ltb Z.compare Pos.add Pos.compare];
    rewrite ?andb_true_r, ?andb_assoc; reflexivity.
Qed.

(** C7, amended.  Of a relative path cut at its slashes, three or more
    segments give the first two as locale and device, and fewer than two
    give neither.  Two segments give the leading one, when it is ASCII, as
    locale exactly when it has the locale shape (underscores read as
    hyphens, surrounding white space dropped, one to three groups of
    letters, the first of 2 to 3 and each later one of 2 to 8 letters)
    and as device otherwise.  So "en/iPhone_Air/home.png" gives
    ("en", "iPhone_Air") and "iPhone_Air/home.png" gives
    ("", "iPhone_Air"). *)
Theorem inferLocaleAndDevice_shape :
  (forall relPath : string,
     match strings.Split relPath "/" with
     | locale :: device :: _ :: _ => inferLocaleAndDevice relPath = (locale, device)
     | [token; _] =>
       isASCII token = true ->
       inferLocaleAndDevice relPath
       = if localeShape token then (token, "") else ("", token)
     | _ => inferLocaleAndDevice relPath = ("", "")
     end)
  /\ inferLocaleAndDevice "en/iPhone_Air/home.png" = ("en", "iPhone_Air")
  /\ inferLocaleAndDevice "iPhone_Air/home.png" = ("", "iPhone_Air").
Proof.
  conjs.
  - intros relPath. unfold inferLocaleAndDevice, filepath.ToSlash.
    destruct (strings.Split relPath "/") as [|p0 [|p1 [|p2 rest]]]; try reflexivity.
    intros Hascii. by rewrite looksLikeLocale_shape.
  - reflexivity.
  - unfold inferLocaleAndDevice, filepath.ToSlash.
    cbn [strings.Split Ascii.eqb Bool.eqb].
    rewrite looksLikeLocale_shape by reflexivity. reflexivity.
Qed.

(** The locale shape as C7 states it: the token cut at hyphens and
    underscores into one to three groups of letters, the first of 2 to 3
    letters, each later one of up to 8. *)
Definition statedGroup (lo hi : nat) (group : string) : bool :=
  let letters := utf8.runes group in
  (lo <=? List.length letters)%nat && (List.length letters <=? hi)%nat
  && forallb unicode.IsLetter letters.

Definition statedLocaleShape (token : string) : bool :=
  match strings.Split (strings.ReplaceAll token "_" "-") "-" with
  | [g1] => statedGroup 2 3 g1
  | [g1; g2] => statedGroup 2 3 g1 && statedGroup 1 8 g2
  | [g1; g2; g3] => statedGroup 2 3 g1 && statedGroup 1 8 g2 && statedGroup 1 8 g3
  | _ => false
  end.

End Locale.

(** C7 as stated fails: "en-a" has two groups of letters, the first of 2
    letters and the second of 1, yet the leading segment of
    "en-a/home.png" is taken as a device, because every group must have
    at least 2 letters. *)
Lemma inferLocaleAndDevice_short_group_counterexample :
  ~ (@inferLocaleAndDevice asciiLib "en-a/home.png"
     = if @statedLocaleShape asciiLib "en-a" then ("en-a", "") else ("", "en-a")).
Proof. vm_compute. discriminate. Qed.

(** ** The raw lookup index *)

Section RawIndex.
Context `{GoLib} `{Collaborators}.

(** The screenshot id of a file: its name without the extension. *)
Definition screenshotIDOf (path : string) : string :=
  strings.TrimSuffix (filepath.Base path) (filepath.Ext path).

(** The bare-id key and the review key under which a raw file is filed. *)
Definition idKeyOf (rawPath : string) : string :=
  rawIndexScreenshotKey (screenshotIDOf rawPath).

Definition reviewKeyOf (rawDir rawPath : string) : string :=
  match filepath.Rel rawDir rawPath with
  | Some relPath =>
    let '(locale, device) := inferLocaleAndDevice relPath in
    rawIndexReviewKey locale device (screenshotIDOf rawPath)
  | None => ""
  end.

(** The first of the files filed under a review key. *)
Definition firstWithReviewKey (rawDir key : string) (rawFiles : list string)
  : option string :=
  List.find (fun q => String.eqb (reviewKeyOf rawDir q) key) rawFiles.

(** What holds of the index and of the ambiguous ids once the files
    [seen] are in. *)
Record rawIndexInv (rawDir : string) (seen : list string)
    (index : gmap string string) (ambiguous : gmap string bool) : Prop := {
  inv_evicted : forall x,
    lookupBool ambiguous ("id|" ++ x) = true -> index !! ("id|" ++ x) = None;
  inv_owner : forall x p,
    index !! ("id|" ++ x) = Some p ->
    forall q, q ∈ seen -> idKeyOf q = "id|" ++ x -> q = p;
  inv_unseen : forall x,
    lookupBool ambiguous ("id|" ++ x) = false ->
    index !! ("id|" ++ x) = None ->
    forall q, q ∈ seen -> idKeyOf q <> "id|" ++ x;
  inv_review : forall y,
    index !! ("review|" ++ y) = firstWithReviewKey rawDir ("review|" ++ y) seen;
}.

Lemma find_snoc {A} (f : A -> bool) l x :
  List.find f (l ++ [x])%list
  = match List.find f l with
    | Some y => Some y
    | None => if f x then Some x else None
    end.
Proof. induction l as [|a l IH]; simpl; [done|]. by destruct (f a). Qed.

Lemma id_not_review x y : "id|" ++ x <> "review|" ++ y.
Proof. discriminate. Qed.

Lemma indexRawFile_inv rawDir seen index ambiguous rawPath index' ambiguous' :
  rawIndexInv rawDir seen index ambiguous ->
  indexRawFile rawDir rawPath (index, ambiguous) = Ok (index', ambiguous') ->
  rawIndexInv rawDir (seen ++ [rawPath])%list index' ambiguous'.
Proof.
  intros [Hev Hown Hun Hrev] Hstep.
  unfold indexRawFile in Hstep.
  fold (screenshotIDOf rawPath) in Hstep. fold (idKeyOf rawPath) in Hstep.
  set (k0 := idKeyOf rawPath) in *.
  assert (Hk0 : k0 = "id|" ++ strings.TrimSpace (screenshotIDOf rawPath)) by reflexivity.
  (* the state after the bare-id part *)
  match type of Hstep with
  | (let '(i, a) := ?st in _) = _ => destruct st as [index1 ambiguous1] eqn:Hid
  end.
  assert (Hinv1 :
    (forall x, lookupBool ambiguous1 ("id|" ++ x) = true -> index1 !! ("id|" ++ x) = None)
    /\ (forall x p, index1 !! ("id|" ++ x) = Some p ->
          forall q, q ∈ (seen ++ [rawPath])%list -> idKeyOf q = "id|" ++ x -> q = p)
    /\ (forall x, lookupBool ambiguous1 ("id|" ++ x) = false ->
          index1 !! ("id|" ++ x) = None ->
          forall q, q ∈ (seen ++ [rawPath])%list -> idKeyOf q <> "id|" ++ x)
    /\ (forall y, index1 !! ("review|" ++ y) = index !! ("review|" ++ y))).
  { unfold lookupBool in *.
    destruct (default false (ambiguous !! k0)) eqn:Hamb.
    - injection Hid as <- <-. conjs.
      + intros x Hx. destruct (decide (k0 = "id|" ++ x)) as [Heq|Hne]; [rewrite <- Heq in *|].
        * apply lookup_delete_eq.
        * rewrite lookup_delete_ne by done. by apply Hev.
      + intros x p Hp q Hq Hqk.
        destruct (decide (k0 = "id|" ++ x)) as [Heq|Hne]; [rewrite <- Heq in *|].
        * by rewrite lookup_delete_eq in Hp.
        * rewrite lookup_delete_ne in Hp by done.
          apply elem_of_app in Hq as [Hq|Hq]; [by eapply Hown|].
          apply list_elem_of_singleton in Hq as ->. done.
      + intros x Hx Hnone q Hq.
        destruct (decide (k0 = "id|" ++ x)) as [Heq|Hne]; [rewrite <- Heq in *|]; [congruence|].
        rewrite lookup_delete_ne in Hnone by done.
        apply elem_of_app in Hq as [Hq|Hq]; [by eapply Hun|].
        apply list_elem_of_singleton in Hq as ->. done.
      + intros y. apply lookup_delete_ne. rewrite Hk0. apply id_not_review.
    - destruct (index !! k0) as [existing|] eqn:Hk.
      + destruct (String.eqb_spec existing rawPath) as [->|Hdiff]; simpl in Hid;
          injection Hid as <- <-.
        * conjs; [done| | |done].
          -- intros x p Hp q Hq Hqk.
             apply elem_of_app in Hq as [Hq|Hq]; [by eapply Hown|].
             apply list_elem_of_singleton in Hq as ->.
             fold k0 in Hqk. rewrite <- Hqk in Hp. congruence.
          -- intros x Hx Hnone q Hq.
             apply elem_of_app in Hq as [Hq|Hq]; [by eapply Hun|].
             apply list_elem_of_singleton in Hq as ->.
             fold k0. intros Hqk. rewrite <- Hqk in Hnone. congruence.
        * conjs.
          -- intros x Hx. destruct (decide (k0 = "id|" ++ x)) as [Heq|Hne]; [rewrite <- Heq in *|].
             ++ apply lookup_delete_eq.
             ++ rewrite lookup_delete_ne by done. apply Hev.
                by rewrite lookup_insert_ne in Hx.
          -- intros x p Hp q Hq Hqk.
             destruct (decide (k0 = "id|" ++ x)) as [Heq|Hne]; [rewrite <- Heq in *|].
             ++ by rewrite lookup_delete_eq in Hp.
             ++ rewrite lookup_delete_ne in Hp by done.
                apply elem_of_app in Hq as [Hq|Hq]; [by eapply Hown|].
                apply list_elem_of_singleton in Hq as ->. done.
          -- intros x Hx Hnone q Hq.
             destruct (decide (k0 = "id|" ++ x)) as [Heq|Hne]; [rewrite <- Heq in *|].
             ++ by rewrite lookup_insert_eq in Hx.
             ++ rewrite lookup_insert_ne in Hx by done.
                rewrite lookup_delete_ne in Hnone by done.
                apply elem_of_app in Hq as [Hq|Hq]; [by eapply Hun|].
                apply list_elem_of_singleton in Hq as ->. done.
          -- intros y. apply lookup_delete_ne. rewrite Hk0. apply id_not_review.
      + injection Hid as <- <-. conjs.
        * intros x Hx. destruct (decide (k0 = "id|" ++ x)) as [Heq|Hne]; [rewrite <- Heq in *|]; [congruence|].
          rewrite lookup_insert_ne by done. by apply Hev.
        * intros x p Hp q Hq Hqk.
          destruct (decide (k0 = "id|" ++ x)) as [Heq|Hne]; [rewrite <- Heq in *|].
          -- rewrite lookup_insert_eq in Hp. injection Hp as <-.
             apply elem_of_app in Hq as [Hq|Hq].
             ++ exfalso. eapply (Hun (strings.TrimSpace (screenshotIDOf rawPath)));
                  rewrite <- ?Hk0; eauto.
             ++ by apply list_elem_of_singleton in Hq.
          -- rewrite lookup_insert_ne in Hp by done.
             apply elem_of_app in Hq as [Hq|Hq]; [by eapply Hown|].
             apply list_elem_of_singleton in Hq as ->. done.
        * intros x Hx Hnone q Hq.
          destruct (decide (k0 = "id|" ++ x)) as [Heq|Hne]; [rewrite <- Heq in *|].
          -- by rewrite lookup_insert_eq in Hnone.
          -- rewrite lookup_insert_ne in Hnone by done.
             apply elem_of_app in Hq as [Hq|Hq]; [by eapply Hun|].
             apply list_elem_of_singleton in Hq as ->. done.
        * intros y. apply lookup_insert_ne. rewrite Hk0. apply id_not_review. }
  clear Hid. destruct Hinv1 as (Hev1 & Hown1 & Hun1 & Hrev1).
  (* the review-key part *)
  assert (Hrk : exists y, reviewKeyOf rawDir rawPath = "review|" ++ y
                /\ (index' = index1 \/ index' = <[reviewKeyOf rawDir rawPath := rawPath]> index1)
                /\ (index1 !! reviewKeyOf rawDir rawPath = None ->
                    index' = <[reviewKeyOf rawDir rawPath := rawPath]> index1)
                /\ (is_Some (index1 !! reviewKeyOf rawDir rawPath) -> index' = index1)
                /\ ambiguous' = ambiguous1).
  { unfold reviewKeyOf.
    destruct (filepath.Rel rawDir rawPath) as [relPath|]; [|discriminate].
    destruct (inferLocaleAndDevice relPath) as [locale device].
    fold (screenshotIDOf rawPath) in Hstep.
    eexists. split; [reflexivity|].
    destruct (index1 !! rawIndexReviewKey locale device (screenshotIDOf rawPath))
      as [taken|] eqn:Htaken; injection Hstep as <- <-; conjs; eauto.
    - intros [=].
    - intros [? [=]]. }
  destruct Hrk as (y0 & Hy0 & Hcases & Hfresh & Hkept & ->).
  split.
  - intros x Hx. destruct Hcases as [->| ->]; [by apply Hev1|].
    rewrite lookup_insert_ne; [by apply Hev1|]. rewrite Hy0.
    intros Heq. by apply (id_not_review x y0).
  - intros x p Hp q Hq Hqk. eapply Hown1; eauto.
    destruct Hcases as [->| ->]; [done|].
    rewrite lookup_insert_ne in Hp; [done|]. rewrite Hy0.
    intros Heq. by apply (id_not_review x y0).
  - intros x Hx Hnone q Hq. eapply Hun1; eauto.
    destruct Hcases as [->| ->]; [done|].
    rewrite lookup_insert_ne in Hnone; [done|]. rewrite Hy0.
    intros Heq. by apply (id_not_review x y0).
  - intros y. unfold firstWithReviewKey. rewrite find_snoc.
    fold (firstWithReviewKey rawDir ("review|" ++ y) seen). rewrite <- Hrev, <- Hrev1.
    destruct (String.eqb_spec (reviewKeyOf rawDir rawPath) ("review|" ++ y)) as [Heq|Hne].
    + rewrite <- Heq.
      destruct (index1 !! reviewKeyOf rawDir rawPath) as [taken|] eqn:Htaken.
      * rewrite Hkept by eauto. done.
      * rewrite Hfresh by done. apply lookup_insert_eq.
    + assert (index' !! ("review|" ++ y) = index1 !! ("review|" ++ y)) as ->.
      { destruct Hcases as [->| ->]; [done|]. by apply lookup_insert_ne. }
      by destruct (index1 !! ("review|" ++ y)).
Qed.

Lemma rawIndexInv_empty rawDir : rawIndexInv rawDir [] ∅ ∅.
Proof.
  split.
  - intros x _. apply lookup_empty.
  - intros x p Hp. by rewrite lookup_empty in Hp.
  - intros x _ _ q Hq. by apply elem_of_nil in Hq.
  - intros y. apply lookup_empty.
Qed.

Lemma indexRawFiles_inv rawDir rest : forall seen index ambiguous final,
  rawIndexInv rawDir seen index ambiguous ->
  indexRawFiles rawDir rest (index, ambiguous) = Ok final ->
  exists ambiguous', rawIndexInv rawDir (seen ++ rest)%list final ambiguous'.
Proof.
  induction rest as [|rawPath rest IH]; intros seen index ambiguous final Hinv Hrun.
  - cbn in Hrun. assert (final = index) as -> by congruence.
    rewrite app_nil_r. eauto.
  - cbn [indexRawFiles] in Hrun.
    destruct (indexRawFile rawDir rawPath (index, ambiguous))
      as [[index1 ambiguous1]|e] eqn:Hstep; [|discriminate].
    pose proof (indexRawFile_inv _ _ _ _ _ _ _ Hinv Hstep) as Hinv1.
    destruct (IH _ _ _ _ Hinv1 Hrun) as [ambiguous' Hfinal].
    exists ambiguous'. by rewrite <- app_assoc in Hfinal.
Qed.

(** C9.  In the index [buildRawIndex] returns, a screenshot id that two
    or more distinct raw files share has no bare-id mapping, however many
    files with that id follow the collision; and each review-key mapping
    is the first raw file with that review key, whatever happens to the
    bare ids. *)
Theorem buildRawIndex_collisions (d : Disk) (rawDir : string)
    (index : gmap string string) :
  buildRawIndex d rawDir true = Ok index ->
  exists rawFiles,
    collectImageFiles d rawDir = Ok rawFiles
    /\ (forall p q, p ∈ rawFiles -> q ∈ rawFiles -> p <> q ->
          idKeyOf p = idKeyOf q -> index !! idKeyOf p = None)
    /\ (forall y, index !! ("review|" ++ y)
                  = firstWithReviewKey rawDir ("review|" ++ y) rawFiles).
Proof.
  unfold buildRawIndex. simpl.
  destruct (collectImageFiles d rawDir) as [rawFiles|e]; [|discriminate].
  intros Hrun. exists rawFiles. split; [reflexivity|].
  destruct (indexRawFiles_inv _ _ _ _ _ _ (rawIndexInv_empty rawDir) Hrun)
    as [ambiguous [_ Hown _ Hrev]].
  simpl in *. split; [|exact Hrev].
  intros p q Hp Hq Hne Hkey.
  destruct (index !! idKeyOf p) as [owner|] eqn:Howner; [|reflexivity].
  exfalso. apply Hne.
  unfold idKeyOf at 1, rawIndexScreenshotKey in Howner.
  rewrite (Hown _ _ Howner p Hp eq_refl).
  rewrite (Hown _ _ Howner q Hq (eq_sym Hkey)). reflexivity.
Qed.

End RawIndex.

(** Three raw captures, two of them named home. *)
Definition rawDisk : Disk :=
  {| ctxErr := None; workdir := Ok "/work";
     statIsDir := fun _ => Ok true;
     walkDir := fun _ => Ok [("/raw/en", true);
                             ("/raw/en/iPhone/home.png", false);
                             ("/raw/en/iPhone/settings.png", false);
                             ("/raw/fr/iPhone/home.png", false);
                             ("/raw/notes.txt", false)];
     imageDimensions := fun _ => Ok (1290, 2796);
     files := ∅;
     readError := fun _ => None; mkdirAllError := fun _ => None;
     writeError := fun _ => None;
     timestamp := "2026-01-01T00:00:00Z"; artifacts := [] |}.

Definition noTables : Collaborators :=
  {| ScreenshotDisplayTypes := ["APP_IPHONE_67"; "IMESSAGE_APP_IPHONE_67"];
     ScreenshotDimensions := fun displayType =>
       if String.eqb displayType "APP_IPHONE_67" then Some [(1290, 2796)]
       else if String.eqb displayType "IMESSAGE_APP_IPHONE_67" then Some [(1290, 2796)]
       else None;
     renderTemplate := fun _ => Ok "<html></html>" |}.

Lemma buildRawIndex_collisions_witness :
  exists index,
    @buildRawIndex asciiLib rawDisk "/raw" true = Ok index
    /\ index !! "id|home" = None
    /\ index !! "id|settings" = Some "/raw/en/iPhone/settings.png"
    /\ exists rawFiles,
         @collectImageFiles asciiLib rawDisk "/raw" = Ok rawFiles
         /\ (forall p q, p ∈ rawFiles -> q ∈ rawFiles -> p <> q ->
               idKeyOf p = idKeyOf q -> index !! idKeyOf p = None)
         /\ (forall y, index !! ("review|" ++ y)
                       = @firstWithReviewKey asciiLib "/raw" ("review|" ++ y) rawFiles).
Proof.
  eexists. split; [vm_compute; reflexivity|].
  split; [vm_compute; reflexivity|]. split; [vm_compute; reflexivity|].
  apply (@buildRawIndex_collisions asciiLib rawDisk "/raw"). vm_compute. reflexivity.
Defined.

(** ** Joining framed and raw files *)

Section ReviewEntries.
Context `{GoLib} `{Collaborators}.

(** A file is agnostic when neither locale nor device is inferred from
    its path. *)
Definition agnostic (locale device : string) : Prop :=
  locale = "" /\ device = "".

(** The candidate's locale and device do not conflict with the framed
    entry's: each segment of the entry is empty or that of the
    candidate. *)
Definition noConflict (locale device candidateLocale candidateDevice : string)
  : Prop :=
  (locale = "" \/ locale = candidateLocale)
  /\ (device = "" \/ device = candidateDevice).

(** What an entry that is built carries over from the lookup. *)
Lemma buildReviewEntry_raw d framedDir rawDir rawIndex approvals framedPath entry :
  buildReviewEntry d framedDir rawDir true rawIndex approvals framedPath = Ok entry ->
  rawMatch rawDir rawIndex (ReviewEntry.Locale entry) (ReviewEntry.Device entry)
           (ReviewEntry.ScreenshotID entry)
  = Ok (ReviewEntry.RawPath entry).
Proof.
  unfold buildReviewEntry.
  destruct (ctxErr d); [discriminate|].
  destruct (filepath.Rel framedDir framedPath) as [relPath|]; [|discriminate].
  destruct (inferLocaleAndDevice relPath) as [locale device].
  destruct (imageDimensions d framedPath) as [[width height]|]; [|discriminate].
  destruct (rawMatch rawDir rawIndex locale device _) as [rawPath|] eqn:Hm;
    [|discriminate].
  destruct (_ && _); [destruct (filepath.Rel rawDir rawPath); [|discriminate]|];
    intros [= <-]; exact Hm.
Qed.

Lemma rawMatch_candidate rawDir rawIndex locale device screenshotID
    candidate candidateRelative :
  lookupString rawIndex (rawIndexReviewKey locale device screenshotID) = "" ->
  lookupString rawIndex (rawIndexScreenshotKey screenshotID) = candidate ->
  candidate <> "" ->
  filepath.Rel rawDir candidate = Some candidateRelative ->
  let accepted :=
    agnostic (inferLocaleAndDevice candidateRelative).1
             (inferLocaleAndDevice candidateRelative).2
    \/ noConflict locale device
                  (inferLocaleAndDevice candidateRelative).1
                  (inferLocaleAndDevice candidateRelative).2 in
  (accepted -> rawMatch rawDir rawIndex locale device screenshotID = Ok candidate)
  /\ (~ accepted -> rawMatch rawDir rawIndex locale device screenshotID = Ok "").
Proof.
  intros Hnone Hcand Hne Hrel. unfold rawMatch.
  rewrite Hnone, Hcand. apply String.eqb_neq in Hne. rewrite Hne, Hrel.
  destruct (inferLocaleAndDevice candidateRelative) as [cl cd].
  unfold agnostic, noConflict. cbn [fst snd negb String.eqb].
  destruct (String.eqb_spec locale ""), (String.eqb_spec device ""),
    (String.eqb_spec cl ""), (String.eqb_spec cd ""),
    (String.eqb_spec locale cl), (String.eqb_spec device cd);
    cbn [andb orb]; split; intros Hacc; try reflexivity;
    exfalso; try (apply Hacc); try tauto; try congruence.
Qed.

(** C5, amended.  When the index has no raw file under the review key
    of a framed entry but has a candidate under its bare screenshot id,
    the entry takes the candidate as its raw path if and only if the
    candidate is agnostic or each of the entry's locale and device is
    empty or equal to the candidate's; its raw path stays empty
    otherwise.  The test is one-sided: a candidate that names no locale
    is turned down for an entry that has one, unless the candidate
    names no device either. *)
Theorem buildReviewEntry_bare_id_candidate
    (d : Disk) (framedDir rawDir framedPath candidate candidateRelative : string)
    (rawIndex : gmap string string) (approvals : gmap string bool)
    (entry : ReviewEntry.t) :
  buildReviewEntry d framedDir rawDir true rawIndex approvals framedPath = Ok entry ->
  lookupString rawIndex
    (rawIndexReviewKey (ReviewEntry.Locale entry) (ReviewEntry.Device entry)
                       (ReviewEntry.ScreenshotID entry)) = "" ->
  lookupString rawIndex (rawIndexScreenshotKey (ReviewEntry.ScreenshotID entry))
  = candidate ->
  candidate <> "" ->
  filepath.Rel rawDir candidate = Some candidateRelative ->
  let accepted :=
    agnostic (inferLocaleAndDevice candidateRelative).1
             (inferLocaleAndDevice candidateRelative).2
    \/ noConflict (ReviewEntry.Locale entry) (ReviewEntry.Device entry)
                  (inferLocaleAndDevice candidateRelative).1
                  (inferLocaleAndDevice candidateRelative).2 in
  (accepted -> ReviewEntry.RawPath entry = candidate)
  /\ (~ accepted -> ReviewEntry.RawPath entry = "").
Proof.
  intros Hentry Hnone Hcand Hne Hrel accepted.
  pose proof (buildReviewEntry_raw _ _ _ _ _ _ _ Hentry) as Hraw.
  destruct (rawMatch_candidate _ _ _ _ _ _ _ Hnone Hcand Hne Hrel) as [Hyes Hno].
  split; intros Hacc.
  - rewrite (Hyes Hacc) in Hraw. congruence.
  - rewrite (Hno Hacc) in Hraw. congruence.
Qed.

End ReviewEntries.

(** A framed home screen for en/iPhone and one raw capture, home.png at
    the top of the raw directory, filed under its bare id only. *)
Lemma buildReviewEntry_bare_id_candidate_witness :
  exists entry,
    @buildReviewEntry asciiLib noTables rawDisk "/framed" "/raw" true
      {[ "id|home" := "/raw/home.png" ]} ∅ "/framed/en/iPhone/home.png" = Ok entry
    /\ ReviewEntry.RawPath entry = "/raw/home.png"
    /\ let accepted :=
         agnostic (@inferLocaleAndDevice asciiLib "home.png").1
                  (@inferLocaleAndDevice asciiLib "home.png").2
         \/ noConflict (ReviewEntry.Locale entry) (ReviewEntry.Device entry)
                       (@inferLocaleAndDevice asciiLib "home.png").1
                       (@inferLocaleAndDevice asciiLib "home.png").2 in
       (accepted -> ReviewEntry.RawPath entry = "/raw/home.png")
       /\ (~ accepted -> ReviewEntry.RawPath entry = "").
Proof.
  eexists. split; [vm_compute; reflexivity|].
  split; [reflexivity|].
  apply (@buildReviewEntry_bare_id_candidate asciiLib noTables rawDisk
           "/framed" "/raw" "/framed/en/iPhone/home.png" "/raw/home.png" "home.png"
           {[ "id|home" := "/raw/home.png" ]} ∅);
    vm_compute; (reflexivity || discriminate).
Defined.

(** C5 as it is worded, read plainly: two segments conflict when both
    are given and they differ, and a candidate does not conflict with
    an entry when neither its locale nor its device does. *)
Definition conflicts (segment candidateSegment : string) : Prop :=
  segment <> "" /\ candidateSegment <> "" /\ segment <> candidateSegment.

Definition statedNoConflict (locale device candidateLocale candidateDevice : string)
  : Prop :=
  ~ conflicts locale candidateLocale /\ ~ conflicts device candidateDevice.

(** One raw capture, filed under its device only. *)
Definition deviceOnlyDisk : Disk :=
  {| ctxErr := None; workdir := Ok "/work";
     statIsDir := fun _ => Ok true;
     walkDir := fun _ => Ok [("/raw/iPhone", true);
                             ("/raw/iPhone/home.png", false)];
     imageDimensions := fun _ => Ok (1290, 2796);
     files := ∅;
     readError := fun _ => None; mkdirAllError := fun _ => None;
     writeError := fun _ => None;
     timestamp := "2026-01-01T00:00:00Z"; artifacts := [] |}.

Definition deviceOnlyIndex : gmap string string :=
  match @buildRawIndex asciiLib deviceOnlyDisk "/raw" true with
  | Ok index => index
  | Err _ => ∅
  end.

(** C5 as stated fails: the framed en/iPhone/home.png finds no raw file
    under its review key and the candidate iPhone/home.png under its
    bare id; the candidate names the same device and no locale, so
    nothing of it conflicts with the entry, yet the entry's raw path
    stays empty, because the entry has a locale and the candidate's is
    not equal to it. *)
Lemma buildReviewEntry_candidate_without_locale_counterexample :
  exists entry,
    @buildRawIndex asciiLib deviceOnlyDisk "/raw" true = Ok deviceOnlyIndex
    /\ @buildReviewEntry asciiLib noTables deviceOnlyDisk "/framed" "/raw" true
         deviceOnlyIndex ∅ "/framed/en/iPhone/home.png" = Ok entry
    /\ lookupString deviceOnlyIndex
         (rawIndexReviewKey (ReviewEntry.Locale entry) (ReviewEntry.Device entry)
                            (ReviewEntry.ScreenshotID entry)) = ""
    /\ lookupString deviceOnlyIndex
         (rawIndexScreenshotKey (ReviewEntry.ScreenshotID entry))
       = "/raw/iPhone/home.png"
    /\ filepath.Rel "/raw" "/raw/iPhone/home.png" = Some "iPhone/home.png"
    /\ ~ (agnostic (@inferLocaleAndDevice asciiLib "iPhone/home.png").1
                   (@inferLocaleAndDevice asciiLib "iPhone/home.png").2
          \/ statedNoConflict (ReviewEntry.Locale entry) (ReviewEntry.Device entry)
               (@inferLocaleAndDevice asciiLib "iPhone/home.png").1
               (@inferLocaleAndDevice asciiLib "iPhone/home.png").2
          <-> ReviewEntry.RawPath entry = "/raw/iPhone/home.png").
Proof.
  eexists. split; [vm_compute; reflexivity|].
  split; [vm_compute; reflexivity|].
  split; [vm_compute; reflexivity|].
  split; [vm_compute; reflexivity|].
  split; [vm_compute; reflexivity|].
  intros [Hclaim _].
  enough (Hraw : "" = "/raw/iPhone/home.png") by discriminate.
  apply Hclaim. right. split.
  - intros (_ & Hcandidate & _). apply Hcandidate. vm_compute. reflexivity.
  - intros (_ & _ & Hdiffer). apply Hdiffer. vm_compute. reflexivity.
Qed.

(** The other way round the candidate is taken: the framed
    iPhone/home.png, which has no locale, takes the raw
    en/iPhone/home.png found under the bare id. *)
Example buildReviewEntry_entry_without_locale :
  exists entry,
    @buildReviewEntry asciiLib noTables deviceOnlyDisk "/framed" "/raw" true
      {[ "id|home" := "/raw/en/iPhone/home.png";
         "review|en|iPhone|home" := "/raw/en/iPhone/home.png" ]} ∅
      "/framed/iPhone/home.png" = Ok entry
    /\ (ReviewEntry.Locale entry, ReviewEntry.Device entry) = ("", "iPhone")
    /\ ReviewEntry.RawPath entry = "/raw/en/iPhone/home.png".
Proof. eexists. split; [vm_compute; reflexivity|]. split; reflexivity. Qed.

(** ** Status and summary *)

Section Status.
Context `{GoLib} `{Collaborators}.

(** Whether the size of a framed image is one an app display type asks
    for. *)
Definition hasValidSize (d : Disk) (framedPath : string) : bool :=
  match imageDimensions d framedPath with
  | Ok (width, height) => (0 <? List.length (matchingAppDisplayTypes width height))%nat
  | Err _ => false
  end.

(** The status of an entry that is built. *)
Lemma buildReviewEntry_status d framedDir rawDir rawAvailable rawIndex approvals
    framedPath entry :
  buildReviewEntry d framedDir rawDir rawAvailable rawIndex approvals framedPath
  = Ok entry ->
  ReviewEntry.Status entry
  = deriveReviewStatus (negb (String.eqb (ReviewEntry.RawPath entry) ""))
                       (ReviewEntry.ValidAppStoreSize entry)
  /\ ReviewEntry.ValidAppStoreSize entry = hasValidSize d framedPath
  /\ (rawAvailable = false -> ReviewEntry.RawPath entry = "").
Proof.
  unfold buildReviewEntry, hasValidSize.
  destruct (ctxErr d); [discriminate|].
  destruct (filepath.Rel framedDir framedPath) as [relPath|]; [|discriminate].
  destruct (inferLocaleAndDevice relPath) as [locale device].
  destruct (imageDimensions d framedPath) as [[width height]|]; [|discriminate].
  destruct rawAvailable.
  - destruct (rawMatch _ _ _ _ _) as [rawPath|]; [|discriminate].
    cbn [andb]. destruct (negb _) eqn:Hn;
      [destruct (filepath.Rel rawDir rawPath); [|discriminate]|];
      intros [= <-]; simpl; rewrite Hn; conjs;
      first [reflexivity | intros [=]].
  - simpl. intros [= <-]. simpl. conjs; reflexivity.
Qed.

(** Without a raw directory an entry is built with no raw path. *)
Lemma buildReviewEntry_no_raw d framedDir rawDir rawIndex approvals framedPath :
  ctxErr d = None ->
  is_Some (filepath.Rel framedDir framedPath) ->
  (exists size, imageDimensions d framedPath = Ok size) ->
  exists entry,
    buildReviewEntry d framedDir rawDir false rawIndex approvals framedPath = Ok entry
    /\ ReviewEntry.Status entry = deriveReviewStatus false (hasValidSize d framedPath).
Proof.
  intros Hctx [relPath Hrel] [[width height] Hsize].
  unfold buildReviewEntry, hasValidSize. rewrite Hctx, Hrel, Hsize.
  destruct (inferLocaleAndDevice relPath) as [locale device].
  simpl. eexists. split; reflexivity.
Qed.

(** C6.  The status of an entry is read off the table of (has a raw
    file, has a valid size): ready, missing_raw, invalid_size,
    missing_raw_invalid_size; every entry that is built has the status
    of its own pair.  When the framed directory holds two images, one of
    a valid size and one not, no raw directory is given and reading and
    writing go through, [GenerateReview] succeeds, its manifest has one
    missing_raw and one missing_raw_invalid_size entry, and it counts 2
    under missing_raw and 1 under invalid_size. *)
Theorem review_status_table_and_counts :
  (deriveReviewStatus true true = "ready"
   /\ deriveReviewStatus false true = "missing_raw"
   /\ deriveReviewStatus true false = "invalid_size"
   /\ deriveReviewStatus false false = "missing_raw_invalid_size")
  /\ (forall d framedDir rawDir rawAvailable rawIndex approvals framedPath entry,
        buildReviewEntry d framedDir rawDir rawAvailable rawIndex approvals framedPath
        = Ok entry ->
        ReviewEntry.Status entry
        = deriveReviewStatus (negb (String.eqb (ReviewEntry.RawPath entry) ""))
                             (ReviewEntry.ValidAppStoreSize entry))
  /\ (forall (req : ReviewRequest.t) (d : Disk) (wd absFramedDir fa fb : string),
        ctxErr d = None ->
        workdir d = Ok wd ->
        strings.TrimSpace (ReviewRequest.FramedDir req) <> "" ->
        absPath (Ok wd) (strings.TrimSpace (ReviewRequest.FramedDir req))
        = Ok absFramedDir ->
        statIsDir d absFramedDir = Ok true ->
        strings.TrimSpace (ReviewRequest.RawDir req) = "" ->
        (forall path, mkdirAllError d path = None) ->
        (forall path, writeError d path = None) ->
        (forall path, exists approvals, loadApprovals d path = Ok approvals) ->
        (forall manifest, exists html, renderTemplate manifest = Ok html) ->
        collectImageFiles d absFramedDir = Ok [fa; fb] ->
        is_Some (filepath.Rel absFramedDir fa) ->
        is_Some (filepath.Rel absFramedDir fb) ->
        (exists size, imageDimensions d fa = Ok size) ->
        (exists size, imageDimensions d fb = Ok size) ->
        hasValidSize d fa = negb (hasValidSize d fb) ->
        exists result manifest html manifestPath htmlPath,
          GenerateReview req d
          = (Ok result,
             writeArtifact htmlPath (ReviewHTML html)
               (writeArtifact manifestPath (ManifestJSON manifest) d))
          /\ ReviewResult.Total result = 2
          /\ ReviewResult.Ready result = 0
          /\ ReviewResult.MissingRaw result = 2
          /\ ReviewResult.InvalidSize result = 1
          /\ ReviewSummary.MissingRaw (ReviewManifest.Summary manifest) = 2
          /\ (map ReviewEntry.Status (ReviewManifest.Entries manifest)
              = ["missing_raw"; "missing_raw_invalid_size"]
              \/ map ReviewEntry.Status (ReviewManifest.Entries manifest)
                 = ["missing_raw_invalid_size"; "missing_raw"])).
Proof.
  conjs; try reflexivity.
  - intros. eapply buildReviewEntry_status; eauto.
  - intros req d wd absFramedDir fa fb Hctx Hwd Hframed Habs Hdir Hraw Hmk Hwr
      Hload Hrender Hfiles Hrela Hrelb Hsa Hsb Hvalid.
    unfold GenerateReview. rewrite Hctx, Hwd.
    apply String.eqb_neq in Hframed. rewrite Hframed, Habs, Hdir.
    match goal with
    | |- context [absPath (Ok wd) (if ?c then defaultReviewOutputDir else ?o)] =>
      destruct (absPath (Ok wd) (if c then defaultReviewOutputDir else o))
        as [absOutputDir|e] eqn:Hout
    end.
    2: { unfold absPath in Hout. destruct (filepath.IsAbs _); discriminate. }
    rewrite Hmk.
    match goal with |- context [loadApprovals d ?p] =>
      set (approvalPath := p); destruct (Hload approvalPath) as [approvals ->] end.
    rewrite Hraw. cbn [String.eqb negb].
    unfold buildRawIndex. cbn [negb].
    unfold buildReviewEntries. rewrite Hfiles. cbn [buildReviewEntriesFrom].
    destruct (buildReviewEntry_no_raw d absFramedDir "" ∅ approvals fa Hctx Hrela Hsa)
      as (ea & -> & Hea).
    destruct (buildReviewEntry_no_raw d absFramedDir "" ∅ approvals fb Hctx Hrelb Hsb)
      as (eb & -> & Heb).
    cbv beta iota. rewrite Hwr.
    match goal with |- context [renderReviewHTML ?m] =>
      set (manifest := m); unfold renderReviewHTML;
      destruct (Hrender manifest) as [html ->] end.
    cbv beta iota. cbn [writeError writeArtifact]. rewrite Hwr.
    eexists _, manifest, html, _, _. split; [reflexivity|].
    unfold manifest. cbn [ReviewResult.Total ReviewResult.Ready
      ReviewResult.MissingRaw ReviewResult.InvalidSize ReviewManifest.Summary
      ReviewManifest.Entries map].
    unfold summarizeReviewEntries. cbn [summarizeFrom List.length].
    rewrite Hea, Heb, Hvalid.
    destruct (hasValidSize d fb); cbn; conjs; auto.
Qed.
End Status.

(** Two framed images, the second of a size no display type asks for. *)
Definition framedDisk : Disk :=
  {| ctxErr := None; workdir := Ok "/work";
     statIsDir := fun _ => Ok true;
     walkDir := fun _ => Ok [("/work/framed/home.png", false);
                             ("/work/framed/odd.png", false)];
     imageDimensions := fun path =>
       if String.eqb path "/work/framed/home.png" then Ok (1290, 2796)
       else Ok (100, 100);
     files := ∅;
     readError := fun _ => None; mkdirAllError := fun _ => None;
     writeError := fun _ => None;
     timestamp := "2026-01-01T00:00:00Z"; artifacts := [] |}.

Definition framedOnly : ReviewRequest.t :=
  {| ReviewRequest.RawDir := ""; ReviewRequest.FramedDir := "framed";
     ReviewRequest.OutputDir := ""; ReviewRequest.ApprovalPath := "" |}.

Lemma review_status_table_and_counts_witness :
  exists result manifest html manifestPath htmlPath,
    @GenerateReview asciiLib noTables framedOnly framedDisk
    = (Ok result,
       writeArtifact htmlPath (ReviewHTML html)
         (writeArtifact manifestPath (ManifestJSON manifest) framedDisk))
    /\ ReviewResult.Total result = 2
    /\ ReviewResult.Ready result = 0
    /\ ReviewResult.MissingRaw result = 2
    /\ ReviewResult.InvalidSize result = 1
    /\ ReviewSummary.MissingRaw (ReviewManifest.Summary manifest) = 2
    /\ (map ReviewEntry.Status (ReviewManifest.Entries manifest)
        = ["missing_raw"; "missing_raw_invalid_size"]
        \/ map ReviewEntry.Status (ReviewManifest.Entries manifest)
           = ["missing_raw_invalid_size"; "missing_raw"]).
Proof.
  destruct (@review_status_table_and_counts asciiLib noTables) as (_ & _ & Hscenario).
  apply (Hscenario framedOnly framedDisk "/work" "/work/framed"
           "/work/framed/home.png" "/work/framed/odd.png");
    try (vm_compute; reflexivity); try (vm_compute; discriminate).
  - intros path. eexists. vm_compute. reflexivity.
  - intros manifest. eexists. reflexivity.
  - eexists. vm_compute. reflexivity.
  - eexists. vm_compute. reflexivity.
  - eexists. vm_compute. reflexivity.
  - eexists. vm_compute. reflexivity.
Defined.

(** ** The approval ledger *)

Section Ledger.
Context `{GoLib}.

(** The two list formats never approve the empty key. *)
Lemma approveKeys_no_empty_key keys : forall approvals : gmap string bool,
  approveKeys keys approvals !! "" = approvals !! "".
Proof.
  induction keys as [|key keys IH]; intros approvals; simpl; [reflexivity|].
  destruct (String.eqb_spec (strings.TrimSpace key) "") as [Hblank|Hkey]; simpl.
  - apply IH.
  - rewrite IH. by apply lookup_insert_ne.
Qed.

End Ledger.

(** A ledger in the object-of-booleans format that approves the empty
    key, and the same ledger in the array format. *)
Definition ledgerPath : string := "/work/review/approved.json".

Definition ledgerDisk (ledger : json) : Disk :=
  {| ctxErr := None; workdir := Ok "/work";
     statIsDir := fun _ => Ok true;
     walkDir := fun _ => Ok [];
     imageDimensions := fun _ => Ok (1290, 2796);
     files := {[ ledgerPath := WellFormed ledger ]};
     readError := fun _ => None; mkdirAllError := fun _ => None;
     writeError := fun _ => None;
     timestamp := "2026-01-01T00:00:00Z"; artifacts := [] |}.

Definition blankKeyObject : json := JObj [("", JBool true)].
Definition blankKeyArray : json := JArr [JStr ""].

(** C2 does not hold of the code.  From the ledger {"": true} the
    object-of-booleans branch of [loadApprovals] loads a set that holds
    the empty key; [SaveApprovals] drops that key and writes
    {"approved": []}, and loading again gives the empty set. *)
Theorem loadApprovals_object_format_empty_key :
  @loadApprovals asciiLib (ledgerDisk blankKeyObject) ledgerPath
  = Ok {[ "" := true ]}
  /\ (SaveApprovals ledgerPath {[ "" := true ]} (ledgerDisk blankKeyObject)).1 = None
  /\ files (SaveApprovals ledgerPath {[ "" := true ]} (ledgerDisk blankKeyObject)).2
       !! ledgerPath
     = Some (WellFormed (JObj [("approved", JArr [])]))
  /\ @loadApprovals asciiLib
       (SaveApprovals ledgerPath {[ "" := true ]} (ledgerDisk blankKeyObject)).2
       ledgerPath
     = Ok ∅.
Proof. vm_compute. conjs; reflexivity. Qed.

(** The array branch leaves the empty key out. *)
Example loadApprovals_array_format_empty_key :
  @loadApprovals asciiLib (ledgerDisk blankKeyArray) ledgerPath = Ok ∅.
Proof. vm_compute. reflexivity. Qed.

(** ** What a run of a plan does to the world *)

Section RunEffects.
Context `{GoLib} `{Package}.

Definition planEvent (bundleID udid outputDir : string) (e : Event) : Prop :=
  match e with
  | EvExec _ argv =>
    argv = ["xcrun"; "simctl"; "launch"; udid; bundleID]
    \/ exists args, argv = ("axe" :: args ++ ["--udid"; udid])%list
  | EvWait _ _ => True
  | EvCapture _ req =>
    CaptureRequest.Provider req = ProviderAXe
    /\ CaptureRequest.BundleID req = ""
    /\ CaptureRequest.UDID req = udid
    /\ CaptureRequest.OutputDir req = outputDir
  end.

Definition grows (P : Event -> Prop) (w w' : World) : Prop :=
  (exists evs, trace w' = (evs ++ trace w)%list /\ Forall P evs)
  /\ now w <= now w'.

Lemma grows_refl P w : grows P w w.
Proof. split; [exists []; split; [reflexivity|constructor]|lia]. Qed.

Lemma grows_trans P w1 w2 w3 : grows P w1 w2 -> grows P w2 w3 -> grows P w1 w3.
Proof.
  intros [(e1 & H1 & F1) N1] [(e2 & H2 & F2) N2]. split; [|lia].
  exists (e2 ++ e1)%list. split.
  - rewrite H2, H1, app_assoc. reflexivity.
  - apply Forall_app; split; assumption.
Qed.

Lemma grows_one P w w' e :
  trace w' = e :: trace w -> P e -> now w <= now w' -> grows P w w'.
Proof.
  intros Ht Hp Hn. split; [|exact Hn]. exists [e]. split; [exact Ht|].
  constructor; [exact Hp|constructor].
Qed.

Lemma runExternalOutput_grows P name args w :
  P (EvExec (now w) (name :: args)) ->
  grows P w (runExternalOutput name args w).2.
Proof.
  intros Hp. unfold runExternalOutput, bind, spawn.
  destruct (exec_outcome (nextExec w)) as [out|err out stderr].
  - apply grows_one with (e := EvExec (now w) (name :: args)); simpl; [done|done|lia].
  - match goal with |- context [if ?c then _ else _] => destruct c end;
      apply grows_one with (e := EvExec (now w) (name :: args)); simpl;
      try done; lia.
Qed.

Lemma runExternal_grows P name args w :
  P (EvExec (now w) (name :: args)) ->
  grows P w (runExternal name args w).2.
Proof.
  intros Hp. pose proof (runExternalOutput_grows P name args w Hp) as Hg.
  unfold runExternal, bind. destruct (runExternalOutput name args w) as [[out err] w1].
  exact Hg.
Qed.

Lemma sleep_grows P duration w :
  P (EvWait (now w) duration) -> grows P w (sleep duration w).2.
Proof.
  intros Hp. unfold sleep.
  destruct (hd _ (timers w)) as [late|after why];
    apply grows_one with (e := EvWait (now w) duration); simpl; try done; lia.
Qed.

Lemma Capture_grows P req w :
  P (EvCapture (now w) req) -> grows P w (Capture req w).2.
Proof.
  intros Hp. unfold Capture.
  apply grows_one with (e := EvCapture (now w) req); simpl; try done; lia.
Qed.

Lemma axe_event bundleID udid outputDir when args :
  planEvent bundleID udid outputDir (EvExec when ("axe" :: args ++ ["--udid"; udid])%list).
Proof. right. exists args. reflexivity. Qed.

Lemma axeMatchesTarget_grows bundleID udid outputDir step w :
  grows (planEvent bundleID udid outputDir) w (axeMatchesTarget udid step w).2.
Proof.
  unfold axeMatchesTarget, bind.
  pose proof (runExternalOutput_grows (planEvent bundleID udid outputDir)
                "axe" ["describe-ui"; "--udid"; udid] w
                (axe_event bundleID udid outputDir (now w) ["describe-ui"])) as Hg.
  destruct (runExternalOutput _ _ w) as [[out err] w1]. simpl in Hg.
  destruct err as [e|]; [exact Hg|].
  destruct (unmarshalAny out); exact Hg.
Qed.

Lemma waitForLoop_grows bundleID udid outputDir step timeout poll deadline :
  forall turns w,
    grows (planEvent bundleID udid outputDir) w
          (waitForLoop turns step udid timeout poll deadline w).2.
Proof.
  induction turns as [|turns IH]; intros w; [apply grows_refl|].
  cbn [waitForLoop]. unfold bind at 1.
  pose proof (axeMatchesTarget_grows bundleID udid outputDir step w) as Hg.
  destruct (axeMatchesTarget udid step w) as [[matched err] w1]. simpl in Hg.
  destruct err as [e|]; [exact Hg|].
  destruct matched; [exact Hg|].
  unfold bind at 1, timeNow at 1.
  destruct (deadline <? now w1); [exact Hg|].
  unfold bind at 1, waitContext.
  pose proof (sleep_grows (planEvent bundleID udid outputDir) (milliseconds poll) w1 I)
    as Hs.
  destruct (sleep (milliseconds poll) w1) as [err2 w2]. simpl in Hs.
  destruct err2 as [e|]; [exact (grows_trans _ _ _ _ Hg Hs)|].
  exact (grows_trans _ _ _ _ (grows_trans _ _ _ _ Hg Hs) (IH w2)).
Qed.

Lemma runWaitForStep_grows bundleID udid outputDir step w :
  grows (planEvent bundleID udid outputDir) w (runWaitForStep step udid w).2.
Proof.
  unfold runWaitForStep, bind, timeNow. apply waitForLoop_grows.
Qed.

Lemma runTapStep_grows bundleID udid outputDir step w :
  grows (planEvent bundleID udid outputDir) w (runTapStep step udid w).2.
Proof.
  unfold runTapStep.
  destruct (hasString (PlanStep.Label step));
    [|destruct (hasString (PlanStep.ID step))];
    apply runExternal_grows.
  - apply (axe_event _ _ _ _ ["tap"; "--label"; _]).
  - apply (axe_event _ _ _ _ ["tap"; "--id"; _]).
  - apply (axe_event _ _ _ _ ["tap"; "-x"; _; "-y"; _]).
Qed.

Lemma runStep_grows action step bundleID udid outputDir w :
  grows (planEvent bundleID udid outputDir) w
        (runStep action step bundleID udid outputDir w).2.
Proof.
  unfold runStep.
  repeat match goal with |- context [if String.eqb ?a ?b then _ else _] =>
           destruct (String.eqb a b) end.
  - apply runExternal_grows. left. reflexivity.
  - apply runTapStep_grows.
  - apply runExternal_grows. apply (axe_event _ _ _ _ ["type"; _]).
  - apply runExternal_grows. apply (axe_event _ _ _ _ ["key-sequence"; "--keycodes"; _]).
  - apply sleep_grows. exact I.
  - apply runWaitForStep_grows.
  - apply Capture_grows. simpl. done.
  - apply grows_refl.
Qed.

Lemma runSteps_grows plan udid outputDir : forall steps i result w,
  grows (planEvent (PlanApp.BundleID (Plan.App plan)) udid outputDir) w
        (runSteps plan udid outputDir i steps result w).2.
Proof.
  induction steps as [|step rest IH]; intros i result w; [apply grows_refl|].
  cbn [runSteps]. unfold bind at 1, timeNow at 1. unfold bind at 1.
  pose proof (runStep_grows (strings.TrimSpace (strings.ToLower (PlanStep.Action step)))
                step (PlanApp.BundleID (Plan.App plan)) udid outputDir w) as Hg.
  destruct (runStep _ step _ udid outputDir w) as [err w1]. simpl in Hg.
  destruct err as [e|]; [exact Hg|].
  unfold bind at 1, timeNow at 1.
  destruct (_ && _ && _).
  - unfold bind at 1, waitContext.
    pose proof (sleep_grows (planEvent (PlanApp.BundleID (Plan.App plan)) udid outputDir)
                  (milliseconds (PlanDefaults.PostActionDelayMS (Plan.Defaults plan)))
                  w1 I) as Hs.
    destruct (sleep _ w1) as [err2 w2]. simpl in Hs.
    destruct err2 as [e|]; [exact (grows_trans _ _ _ _ Hg Hs)|].
    exact (grows_trans _ _ _ _ (grows_trans _ _ _ _ Hg Hs) (IH _ _ w2)).
  - exact (grows_trans _ _ _ _ Hg (IH _ _ w1)).
Qed.

End RunEffects.

(** ** How a run of a plan ends *)

Section RunMore.
Context `{GoLib} `{Package}.

(** The directory [RunPlan] works in: the absolute form of the plan's
    output directory, empty when it cannot be resolved. *)
Definition resolvedOutputDir (plan : Plan.t) (w : World) : string :=
  match absPath (cwd w) (effectiveOutputDir plan) with
  | Ok dir => dir
  | Err _ => ""
  end.

(** X1.  Whatever the plan and the world, everything [RunPlan] does to
    the world is one of four things: it starts [xcrun simctl launch] with
    the run's device and the plan's bundle id; it starts an [axe] command
    whose last arguments are [--udid] and the run's device; it waits; or
    it captures through the AXe provider with an empty bundle id (so a
    screenshot step never launches the app again), on the run's device
    and into the resolved output directory. *)
Theorem RunPlan_drives_only_axe_and_simctl (plan : Plan.t) (w : World) :
  exists evs,
    trace (RunPlan (Some plan) w).2 = (evs ++ trace w)%list
    /\ Forall (planEvent (PlanApp.BundleID (Plan.App plan)) (effectiveUDID plan)
                         (resolvedOutputDir plan w)) evs.
Proof.
  unfold RunPlan, resolvedOutputDir.
  fold (effectiveUDID plan). fold (effectiveOutputDir plan).
  destruct (validatePlan plan) as [e|]; [exists []; split; [reflexivity|constructor]|].
  unfold bind at 1, Abs at 1.
  destruct (absPath (cwd w) (effectiveOutputDir plan)) as [dir|e];
    [|exists []; split; [reflexivity|constructor]].
  unfold bind at 1, MkdirAll at 1.
  destruct (mkdirError w dir) as [e|]; [exists []; split; [reflexivity|constructor]|].
  unfold bind at 1.
  match goal with |- context [runSteps ?p ?u ?d ?i ?s ?r w] =>
    pose proof (runSteps_grows p u d s i r w) as Hg;
    destruct (runSteps p u d i s r w) as [[res err] w'] end.
  exact (proj1 Hg).
Qed.


(** ** outcomes *)

(** The post-action delay follows the step. *)
Definition delayed (plan : Plan.t) (step : PlanStep.t) : Prop :=
  0 < PlanDefaults.PostActionDelayMS (Plan.Defaults plan)
  /\ normalAction step <> ActionWait /\ normalAction step <> ActionWaitFor.

Definition stepError (n : Z) (step : PlanStep.t) (cause : string) : string :=
  "step " ++ strconv.Itoa n ++ " (" ++ normalAction step ++ "): " ++ cause.

(** What a run of the steps, numbered from [n] on, can come to. *)
Inductive stepsOutcome (plan : Plan.t) (n : Z) (steps : list PlanStep.t)
  : list RunStepResult.t -> error -> Prop :=
| allDone rs :
    okReports n steps rs -> stepsOutcome plan n steps rs None
| stepFailed pre step post oks failed cause :
    steps = (pre ++ step :: post)%list ->
    okReports n pre oks ->
    reportOf (n + Z.of_nat (List.length pre)) step "error" cause failed ->
    stepsOutcome plan n steps (oks ++ [failed])
      (Some (stepError (n + Z.of_nat (List.length pre)) step cause))
| delayCancelled pre step post oks why :
    steps = (pre ++ step :: post)%list ->
    okReports n (pre ++ [step]) oks ->
    delayed plan step ->
    stepsOutcome plan n steps oks (Some (contextErrorText why)).

Lemma okReports_one n step r :
  reportOf n step "ok" "" r -> okReports n [step] [r].
Proof. intros Hr. constructor; [exact Hr|constructor]. Qed.

Lemma stepsOutcome_cons plan n step r steps rs err :
  reportOf n step "ok" "" r ->
  stepsOutcome plan (n + 1) steps rs err ->
  stepsOutcome plan n (step :: steps) (r :: rs) err.
Proof.
  intros Hr Ho. destruct Ho as [rs Hok|pre s post oks failed cause -> Hok Hf
                               |pre s post oks why -> Hok Hd].
  - apply allDone. constructor; assumption.
  - replace (n + 1 + Z.of_nat (List.length pre))
      with (n + Z.of_nat (List.length (step :: pre))) in * by (simpl List.length; lia).
    apply (stepFailed plan n _ (step :: pre) s post (r :: oks) failed cause);
      [reflexivity|constructor; assumption|exact Hf].
  - apply (delayCancelled plan n _ (step :: pre) s post (r :: oks) why);
      [reflexivity|simpl; constructor; assumption|exact Hd].
Qed.

Lemma runSteps_outcomes plan udid dir : forall steps i result w res err w',
  runSteps plan udid dir i steps result w = (res, err, w') ->
  exists rs,
    res = {| RunResult.BundleID := RunResult.BundleID result;
             RunResult.UDID := RunResult.UDID result;
             RunResult.OutputDir := RunResult.OutputDir result;
             RunResult.Steps := RunResult.Steps result ++ rs |}
    /\ stepsOutcome plan (i + 1) steps rs err.
Proof.
  induction steps as [|step rest IH]; intros i result w res err w' Hrun.
  - simpl in Hrun. unfold ret in Hrun. injection Hrun as <- <- <-.
    exists []. rewrite app_nil_r. destruct result; split; [reflexivity|].
    apply allDone. constructor.
  - cbn [runSteps] in Hrun. unfold bind at 1, timeNow at 1 in Hrun.
    unfold bind at 1 in Hrun. fold (normalAction step) in Hrun.
    destruct (runStep (normalAction step) step _ udid dir w) as [[cause|] wa] eqn:Hs.
    + unfold bind, timeNow, ret in Hrun. injection Hrun as <- <- <-.
      eexists [_]. split; [reflexivity|].
      pose proof (stepFailed plan (i + 1) (step :: rest) [] step rest []
                    {| RunStepResult.Index := i + 1;
                       RunStepResult.Action := normalAction step;
                       RunStepResult.Status := "error";
                       RunStepResult.DurationMS := Milliseconds (now wa - now w);
                       RunStepResult.Error := cause |} cause eq_refl
                    (okReports_nil _)) as Hf.
      change (Z.of_nat (List.length (@nil PlanStep.t))) with 0 in Hf.
      rewrite !Z.add_0_r in Hf. apply Hf. repeat split.
    + unfold bind at 1, timeNow at 1 in Hrun.
      set (r := {| RunStepResult.Index := i + 1;
                   RunStepResult.Action := normalAction step;
                   RunStepResult.Status := "ok";
                   RunStepResult.DurationMS := Milliseconds (now wa - now w);
                   RunStepResult.Error := "" |}) in *.
      assert (Hr : reportOf (i + 1) step "ok" "" r) by (repeat split).
      destruct (_ && _ && _) eqn:Hd.
      * unfold bind at 1, waitContext in Hrun.
        destruct (sleep_wait (milliseconds
                    (PlanDefaults.PostActionDelayMS (Plan.Defaults plan))) wa)
          as (err2 & wb & Hsl & _ & _ & _ & _ & Hcancel).
        rewrite Hsl in Hrun. destruct err2 as [e|].
        -- unfold ret in Hrun. injection Hrun as <- <- <-.
           destruct (Hcancel _ eq_refl) as [why ->].
           exists [r]. split; [reflexivity|].
           apply (delayCancelled plan (i + 1) _ [] step rest [r] why);
             [reflexivity|apply okReports_one; exact Hr|].
           apply andb_true_iff in Hd as [Hd Hwf].
           apply andb_true_iff in Hd as [Hpos Hwait].
           split; [by apply Z.ltb_lt|].
           split; by apply negb_eqb_true.
        -- destruct (IH _ _ _ _ _ _ Hrun) as (rs & -> & Ho).
           exists (r :: rs). split.
           ++ simpl. rewrite <- app_assoc. reflexivity.
           ++ apply stepsOutcome_cons; assumption.
      * destruct (IH _ _ _ _ _ _ Hrun) as (rs & -> & Ho).
        exists (r :: rs). split.
        -- simpl. rewrite <- app_assoc. reflexivity.
        -- apply stepsOutcome_cons; assumption.
Qed.

(** X2.  A run that yields a result ends in one of three ways.  Every
    step is reported ok, in step order, and no error is returned; or the
    steps before some step are reported ok, that step is reported as an
    error with its cause, no later step is reported, and the error is
    "step k (action): cause"; or the steps up to and with some step are
    reported ok and the error of the cancelled delay after that step is
    returned as it is.  A run that yields no result returns an error. *)
Theorem RunPlan_outcomes (plan : Plan.t) (w : World) :
  match RunPlan (Some plan) w with
  | ((Some result, err), _) =>
    stepsOutcome plan 1 (Plan.Steps plan) (RunResult.Steps result) err
  | ((None, err), _) => err <> None
  end.
Proof.
  unfold RunPlan.
  destruct (validatePlan plan) as [e|]; [simpl; discriminate|].
  unfold bind at 1, Abs at 1.
  destruct (absPath _ _) as [dir|e]; [|simpl; discriminate].
  unfold bind at 1, MkdirAll at 1.
  destruct (mkdirError w dir) as [e|]; [simpl; discriminate|].
  unfold bind at 1.
  match goal with |- context [runSteps ?p ?u ?d ?i ?s ?r w] =>
    destruct (runSteps p u d i s r w) as [[res err] w'] eqn:Hrun end.
  destruct (runSteps_outcomes _ _ _ _ _ _ _ _ _ _ Hrun) as (rs & -> & Ho).
  simpl. exact Ho.
Qed.

(** ** refusals *)
(** X3.  When [RunPlan] returns no result (no plan, a plan that does
    not validate, an output directory that cannot be resolved or
    created) it returns an error and has started no process, set no
    timer and made no capture.  When it returns a result, the plan
    validated, and the result carries the plan's bundle id, a device
    that is never empty ("booted" when the plan names none) and the
    absolute output directory, for which [os.MkdirAll] returned no
    error. *)
Theorem RunPlan_refuses_without_effect (plan : option Plan.t) (w : World) :
  match RunPlan plan w with
  | ((None, err), w') => w' = w /\ err <> None
  | ((Some result, _), _) =>
    exists p, plan = Some p
      /\ validatePlan p = None
      /\ RunResult.BundleID result = PlanApp.BundleID (Plan.App p)
      /\ RunResult.UDID result = effectiveUDID p
      /\ RunResult.UDID result <> ""
      /\ absPath (cwd w) (effectiveOutputDir p) = Ok (RunResult.OutputDir result)
      /\ mkdirError w (RunResult.OutputDir result) = None
  end.
Proof.
  unfold RunPlan. destruct plan as [plan|]; [|simpl; split; [reflexivity|discriminate]].
  fold (effectiveUDID plan). fold (effectiveOutputDir plan).
  destruct (validatePlan plan) as [e|] eqn:Hv; [simpl; split; [reflexivity|discriminate]|].
  unfold bind at 1, Abs at 1.
  destruct (absPath (cwd w) (effectiveOutputDir plan)) as [dir|e] eqn:Habs;
    [|simpl; split; [reflexivity|discriminate]].
  unfold bind at 1, MkdirAll at 1.
  destruct (mkdirError w dir) as [e|] eqn:Hmk; [simpl; split; [reflexivity|discriminate]|].
  unfold bind at 1.
  match goal with |- context [runSteps ?p ?u ?d ?i ?s ?r w] =>
    destruct (runSteps p u d i s r w) as [[res err] w'] eqn:Hrun end.
  destruct (runSteps_outcomes _ _ _ _ _ _ _ _ _ _ Hrun) as (rs & -> & Ho).
  simpl. exists plan. conjs; try done.
  unfold effectiveUDID. destruct (String.eqb _ "") eqn:He; [discriminate|].
  by apply String.eqb_neq.
Qed.

End RunMore.

(** ** Errors of external commands *)

Lemma append_cons (x : ascii) (a b : string) :
  (String x a ++ b = String x (a ++ b))%string.
Proof. reflexivity. Qed.

Lemma append_nil (b : string) : ("" ++ b = b)%string.
Proof. reflexivity. Qed.

Lemma append_nil_r (a : string) : (a ++ "" = a)%string.
Proof. induction a as [|x a IH]; [reflexivity|]. by rewrite append_cons, IH. Qed.

Lemma append_assoc (a b c : string) : ((a ++ b) ++ c = a ++ (b ++ c))%string.
Proof.
  induction a as [|x a IH]; [reflexivity|].
  rewrite !append_cons. by rewrite IH.
Qed.

Lemma HasPrefix_app (a b : string) : strings.HasPrefix (a ++ b) a = true.
Proof.
  induction a as [|x a IH]; [by destruct b|].
  rewrite append_cons. simpl. rewrite Ascii.eqb_refl. exact IH.
Qed.

Lemma Contains_unfold (s sub : string) :
  strings.Contains s sub
  = strings.HasPrefix s sub
    || match s with
       | EmptyString => false
       | String _ s' => strings.Contains s' sub
       end.
Proof. destruct s; reflexivity. Qed.

Lemma Contains_app (a s b : string) : strings.Contains (a ++ s ++ b) s = true.
Proof.
  induction a as [|x a IH].
  - rewrite append_nil, Contains_unfold, HasPrefix_app. reflexivity.
  - rewrite append_cons, Contains_unfold, IH. apply orb_true_r.
Qed.

Lemma Contains_head (s rest : string) : strings.Contains (s ++ rest) s = true.
Proof. apply (Contains_app "" s rest). Qed.

Lemma Contains_self (s : string) : strings.Contains s s = true.
Proof.
  rewrite Contains_unfold.
  assert (Hp : forall t, strings.HasPrefix t t = true).
  { induction t as [|x t IH]; [reflexivity|]. simpl. by rewrite Ascii.eqb_refl. }
  by rewrite Hp.
Qed.

Lemma Contains_skip (a rest s : string) :
  strings.Contains rest s = true -> strings.Contains (a ++ rest) s = true.
Proof.
  intros Hc. induction a as [|x a IH]; [exact Hc|].
  rewrite append_cons, Contains_unfold, IH. apply orb_true_r.
Qed.

Lemma HasPrefix_refl (t : string) : strings.HasPrefix t t = true.
Proof. induction t as [|x t IH]; [reflexivity|]. simpl. by rewrite Ascii.eqb_refl. Qed.

Lemma HasPrefix_skip (a s p : string) :
  strings.HasPrefix s p = true -> strings.HasPrefix (a ++ s) (a ++ p) = true.
Proof.
  intros Hp. induction a as [|x a IH]; [exact Hp|].
  rewrite !append_cons. simpl. by rewrite Ascii.eqb_refl.
Qed.

(** The text is found in a chain of appended pieces. *)
Ltac find_piece :=
  rewrite ?append_assoc;
  repeat first [apply Contains_self | apply Contains_head | apply Contains_skip].

Section RunSteps.
Context `{GoLib} `{Package}.

(** X4.  [runExternalOutput] starts exactly one process, with the
    command line it is given.  When the process exits with status 0 its
    standard output is returned with no error.  When it fails the error
    starts with "name: cause"; it holds the trimmed standard output when
    that is not empty and the trimmed standard error of an exit error
    when that is not empty; with neither it is exactly "name: cause". *)
Theorem runExternalOutput_reports (name : string) (args : list string) (w : World) :
  let '((out, err), w') := runExternalOutput name args w in
  trace w' = EvExec (now w) (name :: args) :: trace w
  /\ execs w' = tl (execs w)
  /\ timers w' = timers w
  /\ match exec_outcome (nextExec w) with
     | Exited stdout => out = stdout /\ err = None
     | Failed cause stdout stderr =>
       exists msg,
         err = Some msg
         /\ strings.HasPrefix msg (name ++ ": " ++ cause) = true
         /\ (strings.TrimSpace stdout <> "" ->
             strings.Contains msg (strings.TrimSpace stdout) = true)
         /\ (forall text, stderr = Some text -> strings.TrimSpace text <> "" ->
             strings.Contains msg (strings.TrimSpace text) = true)
         /\ (strings.TrimSpace stdout = ""
             /\ (forall text, stderr = Some text -> strings.TrimSpace text = "") ->
             msg = name ++ ": " ++ cause)
     end.
Proof.
  assert (Hpre : forall cause rest,
            strings.HasPrefix (name ++ ": " ++ cause ++ rest) (name ++ ": " ++ cause)
            = true).
  { intros cause rest. do 2 apply HasPrefix_skip. apply HasPrefix_app. }
  unfold runExternalOutput, bind, spawn, ret.
  destruct (exec_outcome (nextExec w)) as [stdout|cause stdout stderr].
  - simpl. conjs; reflexivity.
  - set (o := strings.TrimSpace stdout). clearbody o.
    assert (Hmsg : forall output : string,
      exists msg,
        (if String.eqb output "" then name ++ ": " ++ cause
         else name ++ ": " ++ cause ++ " (output: " ++ output ++ ")") = msg
        /\ strings.HasPrefix msg (name ++ ": " ++ cause) = true
        /\ (forall pre s post, output = pre ++ s ++ post -> s <> "" ->
            strings.Contains msg s = true)
        /\ (output = "" -> msg = name ++ ": " ++ cause)).
    { intros output. eexists. split; [reflexivity|].
      destruct (String.eqb_spec output "") as [Hz|Hz]; conjs.
      - apply HasPrefix_refl.
      - intros pre s post -> Hs. destruct pre, s; try discriminate Hz. contradiction.
      - reflexivity.
      - apply Hpre.
      - intros pre s post -> Hs. find_piece.
      - contradiction. }
    assert (Hout : exists output,
      (match stderr with
       | Some exitStderr =>
         if negb (String.eqb (strings.TrimSpace exitStderr) "") then
           if negb (String.eqb o "")
           then o ++ newline ++ strings.TrimSpace exitStderr
           else strings.TrimSpace exitStderr
         else o
       | None => o
       end) = output
      /\ (o <> "" -> exists post, output = "" ++ o ++ post)
      /\ (forall text, stderr = Some text -> strings.TrimSpace text <> "" ->
          exists pre, output = pre ++ strings.TrimSpace text ++ "")
      /\ (o = "" /\ (forall text, stderr = Some text -> strings.TrimSpace text = "") ->
          output = "")).
    { eexists. split; [reflexivity|].
      destruct stderr as [text|].
      - destruct (String.eqb_spec (strings.TrimSpace text) "") as [He|He],
                 (String.eqb_spec o "") as [Ho|Ho]; simpl negb; cbv iota.
        + split; [intros; contradiction|].
          split; [intros t [= <-] Hne; contradiction|].
          intros _. exact Ho.
        + split; [intros _; exists ""; by rewrite append_nil_r|].
          split; [intros t [= <-] Hne; contradiction|].
          intros [Hq _]. contradiction.
        + split; [intros; contradiction|].
          split; [intros t [= <-] _; exists ""; by rewrite append_nil_r|].
          intros [_ Hq]. specialize (Hq _ eq_refl). contradiction.
        + split; [intros _; exists (newline ++ strings.TrimSpace text); reflexivity|].
          split; [intros t [= <-] _; exists (o ++ newline);
                  by rewrite append_assoc, append_nil_r|].
          intros [Hq _]. contradiction.
      - split; [intros _; exists ""; by rewrite append_nil_r|].
        split; [intros t [=]|].
        intros [Ho _]. exact Ho. }
    destruct Hout as (output & Hout & Ho & He & Hb).
    rewrite Hout. clear Hout.
    destruct (Hmsg output) as (msg & Hm & Hp & Hc & Hz).
    assert (Hret : forall w0 : World,
      (if String.eqb output ""
       then fun w1 : World => (noOutput, Some (name ++ ": " ++ cause), w1)
       else fun w1 : World =>
              (noOutput,
               Some (name ++ ": " ++ cause ++ " (output: " ++ output ++ ")"), w1)) w0
      = (noOutput, Some msg, w0)).
    { intros w0. rewrite <- Hm. by destruct (String.eqb output ""). }
    rewrite Hret. simpl. conjs; try reflexivity.
    exists msg. conjs; try done.
    + intros Hne. destruct (Ho Hne) as [post ->]. eapply Hc; [reflexivity|exact Hne].
    + intros text Ht Hne. destruct (He _ Ht Hne) as [pre ->].
      eapply Hc; [reflexivity|exact Hne].
    + intros Hblank. apply Hz, Hb, Hblank.
Qed.

End RunSteps.

(** ** One step at a time *)

Section RunTable.
Context `{GoLib} `{Package}.

Lemma runExternal_once name args w :
  let '(err, w') := runExternal name args w in
  trace w' = EvExec (now w) (name :: args) :: trace w
  /\ execs w' = tl (execs w)
  /\ timers w' = timers w
  /\ captures w' = captures w
  /\ (err = None <-> exists out, exec_outcome (nextExec w) = Exited out).
Proof.
  unfold runExternal, runExternalOutput, bind, spawn, ret.
  destruct (exec_outcome (nextExec w)) as [out|cause stdout stderr].
  - simpl. conjs; try reflexivity. split; eauto.
  - match goal with |- context [if ?c then _ else _] => destruct c end;
      simpl; conjs; try reflexivity; (split; [discriminate|intros [out [=]]]).
Qed.

(** X5.  What one step does to the world.  A launch, tap, type or
    key_sequence step starts exactly one process and nothing else, and
    succeeds exactly when that process exits with status 0, whichever
    selector a tap uses.  A wait step sets exactly one timer, of its
    duration, starts no process, and, for a duration whose nanoseconds
    fit in 64 bits, returns without error only when the duration has
    passed.  A screenshot step makes exactly one capture, with an empty
    bundle id, the step's name, the device and the output directory.
    An action that is none of the seven fails with "unsupported action"
    and leaves the world untouched. *)
Theorem runStep_one_effect (action : StepAction) (step : PlanStep.t)
    (bundleID udid outputDir : string) (w : World) :
  let '(err, w') := runStep action step bundleID udid outputDir w in
  (In action [ActionLaunch; ActionTap; ActionType; ActionKeySequence] ->
   (exists argv, trace w' = EvExec (now w) argv :: trace w)
   /\ execs w' = tl (execs w) /\ timers w' = timers w /\ captures w' = captures w
   /\ (err = None <-> exists out, exec_outcome (nextExec w) = Exited out))
  /\ (action = ActionWait ->
      let ms := intValue (PlanStep.DurationMS step) in
      trace w' = EvWait (now w) (milliseconds ms) :: trace w
      /\ execs w' = execs w /\ timers w' = tl (timers w) /\ captures w' = captures w
      /\ (err = None -> ms <= maxMilliseconds -> now w + ms * 1000000 <= now w'))
  /\ (action = ActionScreenshot ->
      trace w'
      = EvCapture (now w)
          {| CaptureRequest.Provider := ProviderAXe;
             CaptureRequest.BundleID := "";
             CaptureRequest.UDID := udid;
             CaptureRequest.Name := stringValue (PlanStep.Name step);
             CaptureRequest.OutputDir := outputDir |} :: trace w
      /\ execs w' = execs w /\ timers w' = timers w /\ captures w' = tl (captures w))
  /\ (~ In action [ActionLaunch; ActionTap; ActionType; ActionKeySequence;
                   ActionWait; ActionWaitFor; ActionScreenshot] ->
      err = Some ("unsupported action " ++ quote action) /\ w' = w).
Proof.
  destruct (runStep action step bundleID udid outputDir w) as [err w'] eqn:Hrun.
  conjs.
  - intros Hin.
    assert (Hone : exists name args, runStep action step bundleID udid outputDir w
                                     = runExternal name args w).
    { simpl in Hin. destruct Hin as [<-|[<-|[<-|[<-|[]]]]]; unfold runStep; simpl.
      - eauto.
      - unfold runTapStep. destruct (hasString _); [eauto|].
        destruct (hasString _); eauto.
      - eauto.
      - eauto. }
    destruct Hone as (name & args & Hone). rewrite Hone in Hrun.
    pose proof (runExternal_once name args w) as Ho. rewrite Hrun in Ho.
    destruct Ho as (Ht & He & Hti & Hc & Hok). conjs; eauto.
  - intros ->. unfold runStep in Hrun. simpl in Hrun. unfold waitContext in Hrun.
    destruct (sleep_wait (milliseconds (intValue (PlanStep.DurationMS step))) w)
      as (err2 & w2 & Hsl & Htr & Hex & Hnow & Hfired & _).
    rewrite Hsl in Hrun. injection Hrun as <- <-.
    cbv zeta. conjs; try done.
    + unfold sleep in Hsl. destruct (hd _ (timers w)); injection Hsl as _ <-; reflexivity.
    + unfold sleep in Hsl. destruct (hd _ (timers w)); injection Hsl as _ <-; reflexivity.
    + intros Hnone Hmax. specialize (Hfired Hnone).
      destruct (Z.le_gt_cases 0 (intValue (PlanStep.DurationMS step))) as [Hpos|Hneg].
      * rewrite milliseconds_exact in Hfired by lia. exact Hfired.
      * lia.
  - intros ->. unfold runStep in Hrun. simpl in Hrun. unfold Capture in Hrun.
    injection Hrun as <- <-. simpl. conjs; reflexivity.
  - intros Hnot. unfold runStep in Hrun.
    repeat match type of Hrun with
           | context [String.eqb action ?a] =>
             destruct (String.eqb_spec action a) as [->|_];
               [exfalso; apply Hnot; simpl; tauto|]
           end.
    unfold ret in Hrun. injection Hrun as <- <-. split; reflexivity.
Qed.

End RunTable.

(** ** When wait_for succeeds, and what a run takes *)

Section WaitForMore.
Context `{GoLib}.

(** The tree [j] holds a node that answers the step's selectors. *)
Definition showsTarget (step : PlanStep.t) (j : json) : bool :=
  nodeMatches (decodeAny j)
    (strings.TrimSpace (stringValue (PlanStep.ID step)))
    (strings.TrimSpace (stringValue (PlanStep.Label step)))
    (strings.ToLower (strings.TrimSpace (stringValue (PlanStep.Contains step)))).

(** A poll that printed the tree [j], with the answer of the matcher. *)
Definition pollFinds (step : PlanStep.t) (answer : bool) (r : ExecReply) : Prop :=
  exists j, exec_outcome r = Exited (WellFormed j) /\ showsTarget step j = answer.

Definition fired (t : TimerReply) : Prop := exists late, t = Fired late.

Lemma axeMatchesTarget_ok udid step w matched w1 :
  axeMatchesTarget udid step w = ((matched, None), w1) ->
  exists r,
    execs w = r :: execs w1 /\ timers w1 = timers w /\ pollFinds step matched r.
Proof.
  unfold axeMatchesTarget, runExternalOutput, bind, spawn, ret, nextExec.
  destruct (execs w) as [|r rest] eqn:Hq; simpl.
  - intros [=].
  - destruct (exec_outcome r) as [[text e|j]|cause out stderr] eqn:Hr; simpl.
    + intros [=].
    + intros [= <- <-]. simpl. exists r. conjs; try reflexivity.
      exists j. split; [exact Hr|reflexivity].
    + match goal with |- context [if ?c then _ else _] => destruct c end;
        simpl; intros [=].
Qed.

Lemma sleep_ok duration w w1 :
  sleep duration w = (None, w1) ->
  exists t, timers w = t :: timers w1 /\ fired t /\ execs w1 = execs w.
Proof.
  unfold sleep. destruct (timers w) as [|t rest] eqn:Hq; simpl; [intros [=]|].
  destruct t as [late|after why]; intros [= <-]; simpl.
  exists (Fired late). conjs; try reflexivity. by exists late.
Qed.

Lemma waitForLoop_success step udid timeout poll deadline : forall turns w w',
  waitForLoop turns step udid timeout poll deadline w = (None, w') ->
  exists before r waits,
    execs w = (before ++ r :: execs w')%list
    /\ Forall (pollFinds step false) before
    /\ pollFinds step true r
    /\ timers w = (waits ++ timers w')%list
    /\ Forall fired waits
    /\ List.length waits = List.length before.
Proof.
  induction turns as [|turns IH]; intros w w' Hrun; [discriminate|].
  cbn [waitForLoop] in Hrun. unfold bind at 1 in Hrun.
  destruct (axeMatchesTarget udid step w) as [[matched err] w1] eqn:Hpoll.
  destruct err as [e|]; [discriminate|].
  destruct (axeMatchesTarget_ok _ _ _ _ _ Hpoll) as (r & Hex & Hti & Hshow).
  destruct matched.
  - unfold ret in Hrun. injection Hrun as <-.
    exists [], r, []. simpl. conjs; try done; constructor.
  - unfold bind at 1, timeNow at 1 in Hrun.
    destruct (deadline <? now w1); [discriminate|].
    unfold bind at 1, waitContext in Hrun.
    destruct (sleep (milliseconds poll) w1) as [err2 w2] eqn:Hsl.
    destruct err2 as [e|]; [discriminate|].
    destruct (sleep_ok _ _ _ Hsl) as (t & Hti2 & Hf & Hex2).
    destruct (IH _ _ Hrun) as (before & r' & waits & Hex3 & Hb & Hr' & Hti3 & Hw & Hlen).
    exists (r :: before), r', (t :: waits). conjs.
    + rewrite Hex, <- Hex2, Hex3. reflexivity.
    + constructor; assumption.
    + exact Hr'.
    + rewrite <- Hti, Hti2, Hti3. reflexivity.
    + constructor; assumption.
    + simpl. by rewrite Hlen.
Qed.

(** X6.  A wait_for step returns without error only on a match: the
    poll it stops on printed a tree in which the matcher finds the
    target, every poll before it printed a tree without the target, and
    between two polls exactly one timer fired. *)
Theorem runWaitForStep_succeeds_on_match (step : PlanStep.t) (udid : string)
    (w w' : World) :
  runWaitForStep step udid w = (None, w') ->
  exists before r waits,
    execs w = (before ++ r :: execs w')%list
    /\ Forall (pollFinds step false) before
    /\ pollFinds step true r
    /\ timers w = (waits ++ timers w')%list
    /\ Forall fired waits
    /\ List.length waits = List.length before.
Proof.
  unfold runWaitForStep, bind, timeNow. apply waitForLoop_success.
Qed.

Lemma nodeMatches_blank root : nodeMatches root "" "" "" = false.
Proof.
  destruct (nodeMatches root "" "" "") eqn:Hm; [|reflexivity].
  apply nodeMatches_iff in Hm as (n & _ & [[Hne _]|[[Hne _]|[Hne _]]]);
    contradiction.
Qed.

(** X7.  A wait_for step whose id, label and contains text are all
    absent or blank matches no tree, so it never returns without an
    error, whatever the screen shows. *)
Theorem runWaitForStep_blank_selectors_never_succeed (step : PlanStep.t)
    (udid : string) (w : World) :
  strings.TrimSpace (stringValue (PlanStep.ID step)) = "" ->
  strings.TrimSpace (stringValue (PlanStep.Label step)) = "" ->
  strings.TrimSpace (stringValue (PlanStep.Contains step)) = "" ->
  (runWaitForStep step udid w).1 <> None.
Proof.
  intros Hid Hlabel Hcontains Hnone.
  destruct (runWaitForStep step udid w) as [err w'] eqn:Hrun. simpl in Hnone. subst err.
  unfold runWaitForStep, bind, timeNow in Hrun.
  apply waitForLoop_success in Hrun
    as (before & r & waits & _ & _ & (j & _ & Hshow) & _).
  unfold showsTarget in Hshow. rewrite Hid, Hlabel, Hcontains in Hshow.
  change (strings.ToLower "") with "" in Hshow.
  rewrite nodeMatches_blank in Hshow. discriminate.
Qed.

End WaitForMore.

Section Durations.
Context `{GoLib} `{Package}.

(** The milliseconds the step results add up to. *)
Definition totalMS (rs : list RunStepResult.t) : Z :=
  fold_right (fun r acc => RunStepResult.DurationMS r + acc) 0 rs.

Lemma totalMS_app rs1 rs2 : totalMS (rs1 ++ rs2) = totalMS rs1 + totalMS rs2.
Proof. induction rs1 as [|r rs1 IH]; simpl; [reflexivity|]. rewrite IH. lia. Qed.

Lemma Milliseconds_bounds d :
  0 <= d -> 0 <= Milliseconds d /\ 1000000 * Milliseconds d <= d.
Proof.
  intros Hd. unfold Milliseconds. split.
  - apply Z.quot_pos; lia.
  - apply Z.mul_quot_le; lia.
Qed.

Lemma runSteps_durations plan udid dir : forall steps i result w res err w',
  runSteps plan udid dir i steps result w = (res, err, w') ->
  exists rs,
    RunResult.Steps res = (RunResult.Steps result ++ rs)%list
    /\ Forall (fun r => 0 <= RunStepResult.DurationMS r) rs
    /\ 1000000 * totalMS rs <= now w' - now w.
Proof.
  induction steps as [|step rest IH]; intros i result w res err w' Hrun.
  - simpl in Hrun. unfold ret in Hrun. injection Hrun as <- <- <-.
    exists []. rewrite app_nil_r. simpl. conjs; [reflexivity|constructor|lia].
  - cbn [runSteps] in Hrun. unfold bind at 1, timeNow at 1 in Hrun.
    unfold bind at 1 in Hrun.
    pose proof (runStep_grows (strings.TrimSpace (strings.ToLower (PlanStep.Action step)))
                  step (PlanApp.BundleID (Plan.App plan)) udid dir w) as [_ Hnow].
    destruct (runStep _ step _ udid dir w) as [[cause|] wa] eqn:Hs; simpl in Hnow.
    + unfold bind, timeNow, ret in Hrun. injection Hrun as <- <- <-.
      destruct (Milliseconds_bounds (now wa - now w)) as [Hd0 Hd1]; [lia|].
      eexists [_]. simpl. conjs; [reflexivity|repeat constructor; exact Hd0|].
      simpl. lia.
    + unfold bind at 1, timeNow at 1 in Hrun.
      destruct (Milliseconds_bounds (now wa - now w)) as [Hd0 Hd1]; [lia|].
      assert (Hrest : exists wb, now wa <= now wb /\
        ((exists e, (res, err, w') = (appendStep result
           {| RunStepResult.Index := i + 1;
              RunStepResult.Action :=
                strings.TrimSpace (strings.ToLower (PlanStep.Action step));
              RunStepResult.Status := "ok";
              RunStepResult.DurationMS := Milliseconds (now wa - now w);
              RunStepResult.Error := "" |}, Some e, wb))
         \/ runSteps plan udid dir (i + 1) rest
             (appendStep result
                {| RunStepResult.Index := i + 1;
                   RunStepResult.Action :=
                     strings.TrimSpace (strings.ToLower (PlanStep.Action step));
                   RunStepResult.Status := "ok";
                   RunStepResult.DurationMS := Milliseconds (now wa - now w);
                   RunStepResult.Error := "" |}) wb = (res, err, w'))).
      { destruct (_ && _ && _).
        - unfold bind at 1, waitContext in Hrun.
          destruct (sleep_wait (milliseconds
                      (PlanDefaults.PostActionDelayMS (Plan.Defaults plan))) wa)
            as (err2 & wb & Hsl & _ & _ & Hnow2 & _).
          rewrite Hsl in Hrun. exists wb. split; [exact Hnow2|].
          destruct err2 as [e|]; [left; exists e; unfold ret in Hrun; congruence|].
          right. exact Hrun.
        - exists wa. split; [lia|]. right. exact Hrun. }
      destruct Hrest as (wb & Hnowb & [[e Heq]|Hrest]).
      * injection Heq as -> -> ->. eexists [_]. simpl.
        conjs; [reflexivity|repeat constructor; exact Hd0|]. simpl. lia.
      * destruct (IH _ _ _ _ _ _ Hrest) as (rs & Hsteps & Hall & Hsum).
        eexists (_ :: rs). conjs.
        -- rewrite Hsteps. simpl. rewrite <- app_assoc. reflexivity.
        -- constructor; [exact Hd0|exact Hall].
        -- simpl. lia.
Qed.

(** X8.  On the clock of the world, which processes, timers and
    captures advance and nothing sets back, every step result of a run
    has a duration of 0 ms or more, and the durations of all steps add
    up to no more than the time the run took; a run that is refused
    does not advance that clock. *)
Theorem RunPlan_durations (plan : option Plan.t) (w : World) :
  match RunPlan plan w with
  | ((Some result, _), w') =>
    Forall (fun r => 0 <= RunStepResult.DurationMS r) (RunResult.Steps result)
    /\ 1000000 * totalMS (RunResult.Steps result) <= now w' - now w
  | ((None, _), w') => now w' = now w
  end.
Proof.
  unfold RunPlan. destruct plan as [plan|]; [|reflexivity].
  destruct (validatePlan plan) as [e|]; [reflexivity|].
  unfold bind at 1, Abs at 1.
  destruct (absPath _ _) as [dir|e]; [|reflexivity].
  unfold bind at 1, MkdirAll at 1.
  destruct (mkdirError w dir) as [e|]; [reflexivity|].
  unfold bind at 1.
  match goal with |- context [runSteps ?p ?u ?d ?i ?s ?r w] =>
    destruct (runSteps p u d i s r w) as [[res err] w'] eqn:Hrun end.
  destruct (runSteps_durations _ _ _ _ _ _ _ _ _ _ Hrun) as (rs & Hsteps & Hall & Hsum).
  simpl in Hsteps. simpl. rewrite Hsteps. split; assumption.
Qed.

End Durations.

(** The screen shows nothing on the first poll and an element labelled
    Ready on the second. *)
Definition readyScreen : ExecReply :=
  {| exec_took := 0;
     exec_outcome := Exited (WellFormed (JObj [("AXLabel", JStr "Ready")])) |}.

Definition readyWorld : World :=
  {| now := 0; execs := [blankScreen; readyScreen; blankScreen];
     timers := [Fired 0; Fired 0]; captures := []; trace := [];
     cwd := Ok "/home"; mkdirError := fun _ => None |}.

Lemma runWaitForStep_succeeds_on_match_witness :
  exists before r waits,
    execs readyWorld = (before ++ r :: [blankScreen])%list
    /\ Forall (@pollFinds asciiLib (waitForReady None None) false) before
    /\ @pollFinds asciiLib (waitForReady None None) true r
    /\ timers readyWorld = (waits ++ [Fired 0])%list
    /\ Forall fired waits
    /\ List.length waits = List.length before.
Proof.
  apply (@runWaitForStep_succeeds_on_match asciiLib (waitForReady None None) "booted"
           readyWorld
           {| now := 400000000; execs := [blankScreen]; timers := [Fired 0];
              captures := [];
              trace := [EvExec 400000000 ["axe"; "describe-ui"; "--udid"; "booted"];
                        EvWait 0 400000000;
                        EvExec 0 ["axe"; "describe-ui"; "--udid"; "booted"]];
              cwd := Ok "/home"; mkdirError := fun _ => None |}).
  vm_compute. reflexivity.
Defined.

Lemma runWaitForStep_blank_selectors_never_succeed_witness :
  (@runWaitForStep asciiLib (bareStep "wait_for") "booted" readyWorld).1 <> None.
Proof.
  apply (@runWaitForStep_blank_selectors_never_succeed asciiLib (bareStep "wait_for")
           "booted" readyWorld); reflexivity.
Defined.

(** ** The AXe provider *)

Section Provider.
Context `{GoLib}.

(** The device, the bundle and the file of a capture request. *)
Definition captureUDID (req : CaptureRequest.t) : string :=
  let udid := strings.TrimSpace (CaptureRequest.UDID req) in
  if String.eqb udid "" then "booted" else udid.

Definition captureBundle (req : CaptureRequest.t) : string :=
  strings.TrimSpace (CaptureRequest.BundleID req).

Definition capturePath (req : CaptureRequest.t) : string :=
  filepath.Join [CaptureRequest.OutputDir req; CaptureRequest.Name req ++ ".png"].

Definition launchCommand (req : CaptureRequest.t) : list string :=
  ["xcrun"; "simctl"; "launch"; captureUDID req; captureBundle req].

Definition screenshotCommand (req : CaptureRequest.t) : list string :=
  ["axe"; "screenshot"; "--output"; capturePath req; "--udid"; captureUDID req].

(** X9.  The commands of a capture.  Without a bundle id (absent or
    blank) the provider starts exactly one process, [axe screenshot],
    with [--output] the file named after the request in its output
    directory and [--udid] the device, "booted" when the request names
    none: it launches nothing.  With a bundle id it first starts
    [xcrun simctl launch]; when that fails it starts nothing else and
    returns an error that names the quoted bundle id and the cause;
    when it goes through, [axe screenshot] follows.  An error always
    comes with an empty path. *)
Theorem AXeProvider_Capture_commands (req : CaptureRequest.t)
    (h : AXeProvider.Host) :
  let '((path, err), h') := AXeProvider.Capture req h in
  AXeProvider.statError h' = AXeProvider.statError h
  /\ (err <> None -> path = "")
  /\ (captureBundle req = "" ->
      AXeProvider.started h' = screenshotCommand req :: AXeProvider.started h
      /\ AXeProvider.replies h' = tl (AXeProvider.replies h))
  /\ (captureBundle req <> "" ->
      match AXeProvider.failure (hd AXeProvider.notStarted (AXeProvider.replies h)) with
      | Some launchErr =>
        AXeProvider.started h' = launchCommand req :: AXeProvider.started h
        /\ path = ""
        /\ exists msg, err = Some msg
             /\ strings.Contains msg (quote (captureBundle req)) = true
             /\ strings.Contains msg launchErr = true
      | None =>
        AXeProvider.started h'
        = screenshotCommand req :: launchCommand req :: AXeProvider.started h
      end).
Proof.
  unfold AXeProvider.Capture, AXeProvider.CombinedOutput.
  fold (captureUDID req). fold (captureBundle req). fold (capturePath req).
  fold (launchCommand req). fold (screenshotCommand req).
  destruct (String.eqb_spec (captureBundle req) "") as [Hb|Hb]; simpl negb; cbv iota.
  - cbv beta iota zeta. simpl AXeProvider.failure.
    destruct (AXeProvider.failure (hd _ (AXeProvider.replies h))) as [e|]; simpl.
    + conjs; try done.
    + destruct (AXeProvider.statError h (capturePath req)) as [e|]; simpl;
        conjs; try done.
  - cbv beta iota zeta.
    destruct (AXeProvider.failure (hd _ (AXeProvider.replies h))) as [e|]; simpl.
    + conjs; try done. intros _. conjs; try done.
      eexists. split; [reflexivity|]. split; find_piece.
    + destruct (AXeProvider.failure (hd _ (tl (AXeProvider.replies h)))) as [e|]; simpl.
      * conjs; try done.
      * destruct (AXeProvider.statError h (capturePath req)) as [e|]; simpl;
          conjs; try done.
Qed.

(** X10.  A capture that returns no error returns the path it told
    [axe] to write, and that file was found by [os.Stat]; the device is
    never empty; and every process it started, one without a bundle id
    and two with one, went through. *)
Theorem AXeProvider_Capture_success (req : CaptureRequest.t)
    (h h' : AXeProvider.Host) (path : string) :
  AXeProvider.Capture req h = ((path, None), h') ->
  path = capturePath req
  /\ AXeProvider.statError h path = None
  /\ hd [] (AXeProvider.started h')
     = ["axe"; "screenshot"; "--output"; path; "--udid"; captureUDID req]
  /\ captureUDID req <> ""
  /\ exists ran,
       AXeProvider.replies h = (ran ++ AXeProvider.replies h')%list
       /\ Forall (fun r => AXeProvider.failure r = None) ran
       /\ List.length ran = if String.eqb (captureBundle req) "" then 1%nat else 2%nat.
Proof.
  unfold AXeProvider.Capture, AXeProvider.CombinedOutput.
  fold (captureUDID req). fold (captureBundle req). fold (capturePath req).
  assert (Hudid : captureUDID req <> "").
  { unfold captureUDID.
    destruct (String.eqb_spec (strings.TrimSpace (CaptureRequest.UDID req)) "");
      done. }
  destruct (String.eqb_spec (captureBundle req) "") as [Hb|Hb]; simpl negb; cbv iota.
  - cbv beta iota zeta. simpl AXeProvider.failure.
    destruct (AXeProvider.replies h) as [|r rest] eqn:Hq; [discriminate|].
    simpl. destruct (AXeProvider.failure r) as [e|] eqn:Hr; [discriminate|].
    destruct (AXeProvider.statError h (capturePath req)) as [e|] eqn:Hs; [discriminate|].
    intros [= <- <-]. simpl. conjs; try done.
    exists [r]. conjs; try done. repeat constructor. exact Hr.
  - cbv beta iota zeta.
    destruct (AXeProvider.replies h) as [|r rest] eqn:Hq; [discriminate|].
    simpl. destruct (AXeProvider.failure r) as [e|] eqn:Hr; [discriminate|].
    destruct rest as [|r2 rest]; [discriminate|].
    simpl. destruct (AXeProvider.failure r2) as [e|] eqn:Hr2; [discriminate|].
    destruct (AXeProvider.statError h (capturePath req)) as [e|] eqn:Hs; [discriminate|].
    intros [= <- <-]. simpl. conjs; try done.
    exists [r; r2]. conjs; try done. repeat constructor; assumption.
Qed.

End Provider.

(** A capture of the home screen on a machine where both commands go
    through and the file is there afterwards. *)
Definition homeCapture : CaptureRequest.t :=
  {| CaptureRequest.Provider := "axe";
     CaptureRequest.BundleID := "com.example.app";
     CaptureRequest.UDID := " ";
     CaptureRequest.Name := "home";
     CaptureRequest.OutputDir := "/tmp/shots" |}.

Definition quietHost : AXeProvider.Host :=
  {| AXeProvider.replies :=
       [{| AXeProvider.combined := "com.example.app: 4242";
           AXeProvider.failure := None |};
        {| AXeProvider.combined := ""; AXeProvider.failure := None |}];
     AXeProvider.started := [];
     AXeProvider.statError := fun _ => None |}.

Lemma AXeProvider_Capture_success_witness :
  "/tmp/shots/home.png" = capturePath homeCapture
  /\ AXeProvider.statError quietHost "/tmp/shots/home.png" = None
  /\ hd [] [["axe"; "screenshot"; "--output"; "/tmp/shots/home.png"; "--udid"; "booted"];
            ["xcrun"; "simctl"; "launch"; "booted"; "com.example.app"]]
     = ["axe"; "screenshot"; "--output"; "/tmp/shots/home.png"; "--udid";
        captureUDID homeCapture]
  /\ captureUDID homeCapture <> ""
  /\ exists ran,
       AXeProvider.replies quietHost = (ran ++ [])%list
       /\ Forall (fun r => AXeProvider.failure r = None) ran
       /\ List.length ran
          = if String.eqb (captureBundle homeCapture) "" then 1%nat else 2%nat.
Proof.
  apply (@AXeProvider_Capture_success asciiLib homeCapture quietHost
           {| AXeProvider.replies := [];
              AXeProvider.started :=
                [["axe"; "screenshot"; "--output"; "/tmp/shots/home.png";
                  "--udid"; "booted"];
                 ["xcrun"; "simctl"; "launch"; "booted"; "com.example.app"]];
              AXeProvider.statError := fun _ => None |}
           "/tmp/shots/home.png").
  vm_compute. reflexivity.
Defined.

(** ** The outcomes of a review *)

Section ReviewRun.
Context `{GoLib} `{Collaborators}.

(** The approval ledger a request names, given the output directory. *)
Definition approvalPathOf (req : ReviewRequest.t) (absOutputDir : string) : string :=
  let approvalPath := strings.TrimSpace (ReviewRequest.ApprovalPath req) in
  let approvalPath :=
    if String.eqb approvalPath ""
    then filepath.Join [absOutputDir; defaultReviewApprovalsName]
    else approvalPath in
  if negb (filepath.IsAbs approvalPath)
  then filepath.Join [absOutputDir; approvalPath]
  else approvalPath.

(** The raw directory a request names, and whether it is there. *)
Definition rawDirOf (req : ReviewRequest.t) (d : Disk) : result (string * bool) :=
  let rawDir := strings.TrimSpace (ReviewRequest.RawDir req) in
  if negb (String.eqb rawDir "") then
    match absPath (workdir d) rawDir with
    | Err e => Err ("resolve raw directory: " ++ e)
    | Ok absRawDir =>
      match statIsDir d absRawDir with
      | Ok true => Ok (absRawDir, true)
      | _ => Ok (absRawDir, false)
      end
    end
  else Ok ("", false).

(** The manifest of a run. *)
Definition manifestOf (d : Disk) (absFramedDir absOutputDir approvalPath absRawDir : string)
    (rawAvailable : bool) (entries : list ReviewEntry.t) : ReviewManifest.t :=
  {| ReviewManifest.GeneratedAt := timestamp d;
     ReviewManifest.RawDir := if negb rawAvailable then "" else absRawDir;
     ReviewManifest.FramedDir := absFramedDir;
     ReviewManifest.OutputDir := absOutputDir;
     ReviewManifest.ApprovalPath := approvalPath;
     ReviewManifest.Summary := summarizeReviewEntries entries;
     ReviewManifest.Entries := entries |}.

Definition resultOf (manifest : ReviewManifest.t) : ReviewResult.t :=
  let summary := ReviewManifest.Summary manifest in
  {| ReviewResult.ManifestPath :=
       filepath.Join [ReviewManifest.OutputDir manifest; defaultReviewManifestName];
     ReviewResult.HTMLPath :=
       filepath.Join [ReviewManifest.OutputDir manifest; defaultReviewHTMLName];
     ReviewResult.ApprovalPath := ReviewManifest.ApprovalPath manifest;
     ReviewResult.FramedDir := ReviewManifest.FramedDir manifest;
     ReviewResult.Total := ReviewSummary.Total summary;
     ReviewResult.Ready := ReviewSummary.Ready summary;
     ReviewResult.MissingRaw := ReviewSummary.MissingRaw summary;
     ReviewResult.InvalidSize := ReviewSummary.InvalidSize summary;
     ReviewResult.Approved := ReviewSummary.Approved summary;
     ReviewResult.Pending := ReviewSummary.PendingApproval summary |}.

(** What a run of [GenerateReview] that got as far as writing has done. *)
Record generated (req : ReviewRequest.t) (d : Disk) (manifest : ReviewManifest.t)
  : Prop := {
  gen_ctx : ctxErr d = None;
  gen_framed : absPath (workdir d) (strings.TrimSpace (ReviewRequest.FramedDir req))
               = Ok (ReviewManifest.FramedDir manifest);
  gen_framed_given : strings.TrimSpace (ReviewRequest.FramedDir req) <> "";
  gen_framed_dir : statIsDir d (ReviewManifest.FramedDir manifest) = Ok true;
  gen_output : ResolveReviewOutputDir d (ReviewRequest.OutputDir req)
               = Ok (ReviewManifest.OutputDir manifest);
  gen_mkdir : mkdirAllError d (ReviewManifest.OutputDir manifest) = None;
  gen_approval : ReviewManifest.ApprovalPath manifest
                 = approvalPathOf req (ReviewManifest.OutputDir manifest);
  gen_entries :
    exists approvals absRawDir rawAvailable rawIndex,
      loadApprovals d (ReviewManifest.ApprovalPath manifest) = Ok approvals
      /\ rawDirOf req d = Ok (absRawDir, rawAvailable)
      /\ buildRawIndex d absRawDir rawAvailable = Ok rawIndex
      /\ buildReviewEntries d (ReviewManifest.FramedDir manifest) absRawDir
           rawAvailable rawIndex approvals = Ok (ReviewManifest.Entries manifest)
      /\ manifest = manifestOf d (ReviewManifest.FramedDir manifest)
                      (ReviewManifest.OutputDir manifest)
                      (ReviewManifest.ApprovalPath manifest) absRawDir rawAvailable
                      (ReviewManifest.Entries manifest);
  gen_write : writeError d (filepath.Join [ReviewManifest.OutputDir manifest;
                                           defaultReviewManifestName]) = None;
}.

(** What [GenerateReview] comes to: it fails before its first write; or
    it writes the manifest and fails on the report, which cannot be
    rendered or written; or it writes both. *)
Inductive generateOutcome (req : ReviewRequest.t) (d : Disk)
  : result ReviewResult.t * Disk -> Prop :=
| refused e : generateOutcome req d (Err e, d)
| manifestOnly manifest e :
    generated req d manifest ->
    renderReviewHTML manifest = Err e
    \/ (exists cause,
          writeError d (filepath.Join [ReviewManifest.OutputDir manifest;
                                       defaultReviewHTMLName]) = Some cause
          /\ e = "write review HTML: " ++ cause) ->
    generateOutcome req d
      (Err e,
       writeArtifact (filepath.Join [ReviewManifest.OutputDir manifest;
                                     defaultReviewManifestName])
                     (ManifestJSON manifest) d)
| complete manifest html :
    generated req d manifest ->
    renderTemplate manifest = Ok html ->
    generateOutcome req d
      (Ok (resultOf manifest),
       writeArtifact (filepath.Join [ReviewManifest.OutputDir manifest;
                                     defaultReviewHTMLName])
                     (ReviewHTML html)
         (writeArtifact (filepath.Join [ReviewManifest.OutputDir manifest;
                                        defaultReviewManifestName])
                        (ManifestJSON manifest) d)).

Lemma GenerateReview_cases req d : generateOutcome req d (GenerateReview req d).
Proof.
  unfold GenerateReview.
  destruct (ctxErr d) as [why|] eqn:Hctx; [apply refused|].
  destruct (String.eqb_spec (strings.TrimSpace (ReviewRequest.FramedDir req)) "")
    as [Hf|Hf]; [apply refused|].
  destruct (absPath (workdir d) (strings.TrimSpace (ReviewRequest.FramedDir req)))
    as [absFramedDir|e] eqn:Hframed; [|apply refused].
  destruct (statIsDir d absFramedDir) as [[|]|e] eqn:Hstat; try apply refused.
  match goal with |- context [absPath (workdir d) ?o] =>
    destruct (absPath (workdir d) o) as [absOutputDir|e] eqn:Hout end;
    [|apply refused].
  destruct (mkdirAllError d absOutputDir) as [e|] eqn:Hmk; [apply refused|].
  fold (approvalPathOf req absOutputDir).
  destruct (loadApprovals d (approvalPathOf req absOutputDir)) as [approvals|e] eqn:Hload;
    [|apply refused].
  fold (rawDirOf req d).
  destruct (rawDirOf req d) as [[absRawDir rawAvailable]|e] eqn:Hraw; [|apply refused].
  destruct (buildRawIndex d absRawDir rawAvailable) as [rawIndex|e] eqn:Hindex;
    [|apply refused].
  destruct (buildReviewEntries d absFramedDir absRawDir rawAvailable rawIndex approvals)
    as [entries|e] eqn:Hentries; [|apply refused].
  fold (manifestOf d absFramedDir absOutputDir (approvalPathOf req absOutputDir)
          absRawDir rawAvailable entries).
  set (manifest := manifestOf d absFramedDir absOutputDir
                     (approvalPathOf req absOutputDir) absRawDir rawAvailable entries).
  destruct (writeError d (filepath.Join [absOutputDir; defaultReviewManifestName]))
    as [e|] eqn:Hwrite; [apply refused|].
  assert (Hgen : generated req d manifest).
  { constructor; simpl; try done.
    - unfold ResolveReviewOutputDir. by rewrite Hout.
    - exists approvals, absRawDir, rawAvailable, rawIndex. conjs; done. }
  destruct (renderReviewHTML manifest) as [html|e] eqn:Hrender.
  - unfold renderReviewHTML in Hrender.
    destruct (renderTemplate manifest) as [html'|e] eqn:Ht; [|discriminate].
    injection Hrender as ->.
    cbn [writeError writeArtifact].
    destruct (writeError d (filepath.Join [absOutputDir; defaultReviewHTMLName]))
      as [e|] eqn:Hw2.
    + apply (manifestOnly req d manifest _ Hgen). right. by exists e.
    + apply (complete req d manifest html Hgen Ht).
  - apply (manifestOnly req d manifest _ Hgen). by left.
Qed.

End ReviewRun.

(** ** Entries and the files they describe *)

Section Entries.
Context `{GoLib} `{Collaborators}.

Lemma buildReviewEntriesFrom_each d framedDir rawDir rawAvailable rawIndex approvals :
  forall framedFiles entries,
    buildReviewEntriesFrom d framedDir rawDir rawAvailable rawIndex approvals framedFiles
    = Ok entries ->
    Forall2 (fun framedPath entry =>
               buildReviewEntry d framedDir rawDir rawAvailable rawIndex approvals
                                framedPath = Ok entry)
            framedFiles entries.
Proof.
  induction framedFiles as [|p rest IH]; intros entries Hrun.
  - simpl in Hrun. injection Hrun as <-. constructor.
  - cbn [buildReviewEntriesFrom] in Hrun.
    destruct (buildReviewEntry _ _ _ _ _ _ p) as [entry|e] eqn:He; [|discriminate].
    destruct (buildReviewEntriesFrom _ _ _ _ _ _ rest) as [es|e]; [|discriminate].
    injection Hrun as <-. constructor; [exact He|]. by apply IH.
Qed.

(** What an entry says about the framed file it was built from. *)
Record describes (d : Disk) (framedDir : string) (approvals : gmap string bool)
    (framedPath : string) (entry : ReviewEntry.t) : Prop := {
  desc_path : ReviewEntry.FramedPath entry = framedPath;
  desc_relative :
    filepath.Rel framedDir framedPath = Some (ReviewEntry.FramedRelative entry);
  desc_id : ReviewEntry.ScreenshotID entry = screenshotIDOf framedPath;
  desc_place :
    (ReviewEntry.Locale entry, ReviewEntry.Device entry)
    = inferLocaleAndDevice (ReviewEntry.FramedRelative entry);
  desc_key :
    ReviewEntry.Key entry
    = makeReviewKey (ReviewEntry.Locale entry) (ReviewEntry.Device entry)
                    (ReviewEntry.ScreenshotID entry);
  desc_size :
    imageDimensions d framedPath
    = Ok (ReviewEntry.Width entry, ReviewEntry.Height entry);
  desc_types :
    ReviewEntry.DisplayTypes entry
    = matchingAppDisplayTypes (ReviewEntry.Width entry) (ReviewEntry.Height entry);
  desc_valid :
    ReviewEntry.ValidAppStoreSize entry = true <-> ReviewEntry.DisplayTypes entry <> [];
  desc_status :
    ReviewEntry.Status entry
    = deriveReviewStatus (negb (String.eqb (ReviewEntry.RawPath entry) ""))
                         (ReviewEntry.ValidAppStoreSize entry);
  desc_approved :
    ReviewEntry.Approved entry = lookupBool approvals (ReviewEntry.Key entry);
  desc_state :
    ReviewEntry.ApprovalState entry
    = if ReviewEntry.Approved entry then "approved" else "pending";
}.

Lemma buildReviewEntry_describes d framedDir rawDir rawAvailable rawIndex approvals
    framedPath entry :
  buildReviewEntry d framedDir rawDir rawAvailable rawIndex approvals framedPath
  = Ok entry ->
  describes d framedDir approvals framedPath entry.
Proof.
  unfold buildReviewEntry.
  destruct (ctxErr d); [discriminate|].
  destruct (filepath.Rel framedDir framedPath) as [relPath|] eqn:Hrel; [|discriminate].
  destruct (inferLocaleAndDevice relPath) as [locale device] eqn:Hplace.
  destruct (imageDimensions d framedPath) as [[width height]|] eqn:Hsize; [|discriminate].
  match goal with |- context [match ?found with Ok _ => _ | Err _ => _ end] =>
    destruct found as [rawPath|e] end; [|discriminate].
  match goal with |- context [match ?rel with Ok _ => _ | Err _ => _ end] =>
    destruct rel as [rawRelative|e] end; [|discriminate].
  intros [= <-]. constructor; simpl; try done.
  destruct (matchingAppDisplayTypes width height); simpl; split; done.
Qed.

Lemma buildReviewEntriesFrom_error d framedDir rawDir rawAvailable rawIndex approvals :
  forall framedFiles e,
    buildReviewEntriesFrom d framedDir rawDir rawAvailable rawIndex approvals framedFiles
    = Err e ->
    exists before framedPath after entries,
      framedFiles = (before ++ framedPath :: after)%list
      /\ Forall2 (fun path entry =>
                    buildReviewEntry d framedDir rawDir rawAvailable rawIndex approvals
                                     path = Ok entry)
                 before entries
      /\ buildReviewEntry d framedDir rawDir rawAvailable rawIndex approvals framedPath
         = Err e.
Proof.
  induction framedFiles as [|p rest IH]; intros e Hrun; [discriminate|].
  cbn [buildReviewEntriesFrom] in Hrun.
  destruct (buildReviewEntry _ _ _ _ _ _ p) as [entry|e0] eqn:He.
  - destruct (buildReviewEntriesFrom _ _ _ _ _ _ rest) as [es|e1] eqn:Hrest;
      [discriminate|].
    injection Hrun as <-.
    destruct (IH _ eq_refl) as (before & q & after & entries & -> & Hall & Hq).
    exists (p :: before), q, after, (entry :: entries).
    split; [reflexivity|]. split; [by constructor|exact Hq].
  - injection Hrun as <-. exists [], p, rest, [].
    split; [reflexivity|]. split; [constructor|exact He].
Qed.

(** X11.  When [buildReviewEntries] succeeds it returns exactly one
    entry for each image file collected under the framed directory, in
    the order of the collected files, and each entry describes its file:
    the framed path and its path relative to the framed directory, the
    screenshot id (the file name without its extension), the locale and
    device inferred from the relative path, the review key made of the
    three, the dimensions read from the image, the app display types of
    that size, a valid-size flag that is set exactly when there is one,
    the status of the table, and the approval looked up under the key
    with its wording.  When it fails, the error is that of collecting
    the files or that of the first file for which no entry can be
    built, the files before it having been described. *)
Theorem buildReviewEntries_one_entry_per_image (d : Disk) (framedDir rawDir : string)
    (rawAvailable : bool) (rawIndex : gmap string string)
    (approvals : gmap string bool) :
  match buildReviewEntries d framedDir rawDir rawAvailable rawIndex approvals with
  | Ok entries =>
    exists framedFiles,
      collectImageFiles d framedDir = Ok framedFiles
      /\ Forall2 (describes d framedDir approvals) framedFiles entries
  | Err e =>
    collectImageFiles d framedDir = Err e
    \/ exists before framedPath after entries,
         collectImageFiles d framedDir = Ok (before ++ framedPath :: after)%list
         /\ Forall2 (describes d framedDir approvals) before entries
         /\ buildReviewEntry d framedDir rawDir rawAvailable rawIndex approvals
                             framedPath = Err e
  end.
Proof.
  unfold buildReviewEntries.
  destruct (collectImageFiles d framedDir) as [framedFiles|e]; [|by left].
  destruct (buildReviewEntriesFrom _ _ _ _ _ _ framedFiles) as [entries|e] eqn:Hrun.
  - exists framedFiles. split; [reflexivity|].
    apply buildReviewEntriesFrom_each in Hrun.
    eapply Forall2_impl; [exact Hrun|].
    intros p e. apply buildReviewEntry_describes.
  - right.
    apply buildReviewEntriesFrom_error in Hrun
      as (before & p & after & entries & -> & Hall & Hp).
    exists before, p, after, entries. split; [reflexivity|]. split; [|exact Hp].
    eapply Forall2_impl; [exact Hall|].
    intros q e'. apply buildReviewEntry_describes.
Qed.

(** X26.  [matchingAppDisplayTypes] returns, in the order of the table
    of display types, exactly the display types whose name starts with
    [APP_] and whose dimensions list the given width and height; so a
    type of another family, iMessage for one, never makes a size
    valid. *)
Theorem matchingAppDisplayTypes_exact (width height : Z) :
  sublist (matchingAppDisplayTypes width height) ScreenshotDisplayTypes
  /\ forall displayType,
       displayType ∈ matchingAppDisplayTypes width height
       <-> displayType ∈ ScreenshotDisplayTypes
           /\ strings.HasPrefix displayType "APP_" = true
           /\ exists dimensions,
                ScreenshotDimensions displayType = Some dimensions
                /\ (width, height) ∈ dimensions.
Proof.
  unfold matchingAppDisplayTypes. split.
  - induction ScreenshotDisplayTypes as [|t ts IH]; simpl; [constructor|].
    destruct (_ && _); [by apply sublist_skip|by apply sublist_cons].
  - intros displayType. rewrite list_elem_of_In, filter_In, <- list_elem_of_In.
    rewrite andb_true_iff. split.
    + intros (Hin & Hp & Hd). split; [done|]. split; [done|].
      destruct (ScreenshotDimensions displayType) as [dimensions|]; [|discriminate].
      exists dimensions. split; [reflexivity|].
      apply existsb_exists in Hd as ([w h] & Hwh & Heq).
      simpl in Heq. apply andb_true_iff in Heq as [Hw Hh].
      apply Z.eqb_eq in Hw, Hh. subst. by apply list_elem_of_In.
    + intros (Hin & Hp & dimensions & Hd & Hwh). split; [done|]. split; [done|].
      rewrite Hd. apply existsb_exists. exists (width, height).
      split; [by apply list_elem_of_In|]. simpl. by rewrite !Z.eqb_refl.
Qed.

End Entries.

Section RawIndexSound.
Context `{GoLib} `{Collaborators}.

(** Whatever the index holds was put there for a file seen, under one
    of the two keys of that file; and an id is marked ambiguous only when
    two files seen share it. *)
Record rawIndexSound (rawDir : string) (seen : list string)
    (index : gmap string string) (ambiguous : gmap string bool) : Prop := {
  snd_value : forall k p,
    index !! k = Some p ->
    p ∈ seen /\ (k = idKeyOf p \/ k = reviewKeyOf rawDir p);
  snd_twice : forall k,
    lookupBool ambiguous k = true ->
    exists p q, p ∈ seen /\ q ∈ seen /\ p <> q /\ idKeyOf p = k /\ idKeyOf q = k;
}.

Lemma reviewKeyOf_not_id rawDir p x : reviewKeyOf rawDir p <> "id|" ++ x.
Proof.
  unfold reviewKeyOf.
  destruct (filepath.Rel rawDir p) as [rel|]; [|discriminate].
  destruct (inferLocaleAndDevice rel). discriminate.
Qed.

Lemma indexRawFile_sound rawDir seen index ambiguous rawPath index' ambiguous' :
  rawIndexSound rawDir seen index ambiguous ->
  indexRawFile rawDir rawPath (index, ambiguous) = Ok (index', ambiguous') ->
  rawIndexSound rawDir (seen ++ [rawPath])%list index' ambiguous'.
Proof.
  intros [Hval Htw] Hstep.
  unfold indexRawFile in Hstep.
  fold (screenshotIDOf rawPath) in Hstep. fold (idKeyOf rawPath) in Hstep.
  assert (Hkey : forall rel, filepath.Rel rawDir rawPath = Some rel ->
            (let '(locale, device) := inferLocaleAndDevice rel in
             rawIndexReviewKey locale device (screenshotIDOf rawPath))
            = reviewKeyOf rawDir rawPath).
  { intros rel Hrel. unfold reviewKeyOf. by rewrite Hrel. }
  (* the state after the bare-id part *)
  assert (Hmid : exists index1 ambiguous1,
    rawIndexSound rawDir (seen ++ [rawPath])%list index1 ambiguous1
    /\ match filepath.Rel rawDir rawPath with
       | None => Err ("resolve raw relative path: " ++ relError rawDir rawPath)
       | Some relPath =>
         let '(locale, device) := inferLocaleAndDevice relPath in
         let reviewKey := rawIndexReviewKey locale device (screenshotIDOf rawPath) in
         match index1 !! reviewKey with
         | Some _ => Ok (index1, ambiguous1)
         | None => Ok (<[reviewKey := rawPath]> index1, ambiguous1)
         end
       end = Ok (index', ambiguous')).
  { assert (Hweak : rawIndexSound rawDir (seen ++ [rawPath])%list index ambiguous).
    { split.
      - intros k p Hp. destruct (Hval _ _ Hp) as [Hin Hk].
        split; [apply elem_of_app; by left|exact Hk].
      - intros k Hk. destruct (Htw _ Hk) as (p & q & Hp & Hq & Hrest).
        exists p, q. split; [apply elem_of_app; by left|].
        split; [apply elem_of_app; by left|exact Hrest]. }
    destruct Hweak as [Hval' Htw'].
    destruct (default false (ambiguous !! idKeyOf rawPath)) eqn:Hamb.
    - exists (delete (idKeyOf rawPath) index), ambiguous. split; [|exact Hstep].
      split; [|exact Htw'].
      intros k p Hp. apply lookup_delete_Some in Hp as [_ Hp]. by apply Hval'.
    - destruct (index !! idKeyOf rawPath) as [existingPath|] eqn:Hex.
      + destruct (String.eqb_spec existingPath rawPath) as [Heq|Hne]; simpl negb in Hstep;
          cbv iota in Hstep.
        * exists index, ambiguous. split; [split; assumption|exact Hstep].
        * exists (delete (idKeyOf rawPath) index), (<[idKeyOf rawPath := true]> ambiguous).
          split; [|exact Hstep]. split.
          -- intros k p Hp. apply lookup_delete_Some in Hp as [_ Hp]. by apply Hval'.
          -- intros k Hk. unfold lookupBool in Hk.
             destruct (decide (k = idKeyOf rawPath)) as [->|Hnk].
             ++ destruct (Hval _ _ Hex) as [Hin [Hid|Hrv]].
                ** exists existingPath, rawPath.
                   split; [apply elem_of_app; by left|].
                   split; [apply elem_of_app; right; by apply list_elem_of_singleton|].
                   split; [exact Hne|]. split; [by symmetry|reflexivity].
                ** exfalso. unfold idKeyOf, rawIndexScreenshotKey in Hrv.
                   by apply (reviewKeyOf_not_id rawDir existingPath
                               (strings.TrimSpace (screenshotIDOf rawPath))).
             ++ rewrite lookup_insert_ne in Hk by done. by apply Htw'.
      + exists (<[idKeyOf rawPath := rawPath]> index), ambiguous.
        split; [|exact Hstep]. split; [|exact Htw'].
        intros k p Hp. apply lookup_insert_Some in Hp as [[<- <-]|[_ Hp]].
        * split; [apply elem_of_app; right; by apply list_elem_of_singleton|by left].
        * by apply Hval'. }
  destruct Hmid as (index1 & ambiguous1 & [Hval1 Htw1] & Hrest).
  destruct (filepath.Rel rawDir rawPath) as [relPath|] eqn:Hrel; [|discriminate].
  specialize (Hkey _ eq_refl).
  destruct (inferLocaleAndDevice relPath) as [locale device].
  cbv zeta in Hrest.
  destruct (index1 !! rawIndexReviewKey locale device (screenshotIDOf rawPath)) eqn:Hl.
  - injection Hrest as <- <-. split; assumption.
  - injection Hrest as <- <-. split; [|exact Htw1].
    intros k p Hp. apply lookup_insert_Some in Hp as [[<- <-]|[_ Hp]].
    + split; [apply elem_of_app; right; by apply list_elem_of_singleton|].
      right. by symmetry.
    + by apply Hval1.
Qed.

Lemma indexRawFiles_sound rawDir rest : forall seen index ambiguous final,
  rawIndexInv rawDir seen index ambiguous ->
  rawIndexSound rawDir seen index ambiguous ->
  indexRawFiles rawDir rest (index, ambiguous) = Ok final ->
  exists ambiguous',
    rawIndexInv rawDir (seen ++ rest)%list final ambiguous'
    /\ rawIndexSound rawDir (seen ++ rest)%list final ambiguous'.
Proof.
  induction rest as [|rawPath rest IH]; intros seen index ambiguous final Hinv Hsnd Hrun.
  - cbn in Hrun. assert (final = index) as -> by congruence.
    rewrite app_nil_r. eauto.
  - cbn [indexRawFiles] in Hrun.
    destruct (indexRawFile rawDir rawPath (index, ambiguous))
      as [[index1 ambiguous1]|e] eqn:Hstep; [|discriminate].
    pose proof (indexRawFile_inv _ _ _ _ _ _ _ Hinv Hstep) as Hinv1.
    pose proof (indexRawFile_sound _ _ _ _ _ _ _ Hsnd Hstep) as Hsnd1.
    destruct (IH _ _ _ _ Hinv1 Hsnd1 Hrun) as [ambiguous' Hfinal].
    exists ambiguous'. by rewrite <- app_assoc in Hfinal.
Qed.

Lemma rawIndexSound_empty rawDir : rawIndexSound rawDir [] ∅ ∅.
Proof.
  split.
  - intros k p Hp. by rewrite lookup_empty in Hp.
  - intros k Hk. unfold lookupBool in Hk. by rewrite lookup_empty in Hk.
Qed.

(** X12.  The index [buildRawIndex] returns holds nothing but
    collected raw image files, each under its own bare-id key or its own
    review key; and a raw file whose screenshot id no other collected
    raw file shares is indexed under its bare id. *)
Theorem buildRawIndex_sound_and_complete (d : Disk) (rawDir : string)
    (index : gmap string string) :
  buildRawIndex d rawDir true = Ok index ->
  exists rawFiles,
    collectImageFiles d rawDir = Ok rawFiles
    /\ (forall k p, index !! k = Some p ->
          p ∈ rawFiles /\ (k = idKeyOf p \/ k = reviewKeyOf rawDir p))
    /\ (forall p, p ∈ rawFiles ->
          (forall q, q ∈ rawFiles -> idKeyOf q = idKeyOf p -> q = p) ->
          index !! idKeyOf p = Some p).
Proof.
  unfold buildRawIndex. simpl.
  destruct (collectImageFiles d rawDir) as [rawFiles|e]; [|discriminate].
  intros Hrun. exists rawFiles. split; [reflexivity|].
  destruct (indexRawFiles_sound _ _ _ _ _ _ (rawIndexInv_empty rawDir)
              (rawIndexSound_empty rawDir) Hrun)
    as (ambiguous & [Hev Hown Hun Hrev] & [Hval Htw]).
  simpl in *. conjs.
  - exact Hval.
  - intros p Hp Hunique.
    destruct (lookupBool ambiguous (idKeyOf p)) eqn:Hamb.
    + destruct (Htw _ Hamb) as (a & b & Ha & Hb & Hne & Hka & Hkb).
      exfalso. apply Hne. rewrite (Hunique a Ha Hka), (Hunique b Hb Hkb). reflexivity.
    + destruct (index !! idKeyOf p) as [owner|] eqn:Howner.
      * f_equal. symmetry. exact (Hown _ _ Howner p Hp eq_refl).
      * exfalso. exact (Hun _ Hamb Howner p Hp eq_refl).
Qed.

Lemma rawMatch_found rawDir rawIndex locale device screenshotID rawPath :
  rawMatch rawDir rawIndex locale device screenshotID = Ok rawPath ->
  (lookupString rawIndex (rawIndexReviewKey locale device screenshotID) <> "" ->
   rawPath = lookupString rawIndex (rawIndexReviewKey locale device screenshotID))
  /\ (rawPath <> "" ->
      rawIndex !! rawIndexReviewKey locale device screenshotID = Some rawPath
      \/ rawIndex !! rawIndexScreenshotKey screenshotID = Some rawPath).
Proof.
  unfold rawMatch, lookupString.
  set (exact := default "" (rawIndex !! rawIndexReviewKey locale device screenshotID)).
  set (candidate := default "" (rawIndex !! rawIndexScreenshotKey screenshotID)).
  assert (Hex : exact <> "" ->
                rawIndex !! rawIndexReviewKey locale device screenshotID = Some exact).
  { subst exact.
    destruct (rawIndex !! rawIndexReviewKey locale device screenshotID);
      unfold default; [done|intros Hn; by destruct Hn]. }
  assert (Hca : candidate <> "" ->
                rawIndex !! rawIndexScreenshotKey screenshotID = Some candidate).
  { subst candidate.
    destruct (rawIndex !! rawIndexScreenshotKey screenshotID);
      unfold default; [done|intros Hn; by destruct Hn]. }
  clearbody exact candidate.
  destruct (String.eqb_spec exact "") as [->|Hne]; cbv iota.
  - destruct (String.eqb_spec candidate "") as [->|Hc]; cbn [negb]; cbv iota.
    + intros [= <-]. split; done.
    + destruct (String.eqb locale "" && String.eqb device "").
      * intros [= <-]. split; [done|]. intros _. right. by apply Hca.
      * destruct (filepath.Rel rawDir candidate) as [rel|]; [|discriminate].
        destruct (inferLocaleAndDevice rel) as [cl cd].
        destruct (_ || _); intros [= <-]; split; try done.
        intros _. right. by apply Hca.
  - intros [= <-]. split; [done|]. intros _. left. by apply Hex.
Qed.

Lemma buildReviewEntry_raw_relative d framedDir rawDir rawIndex approvals framedPath
    entry :
  buildReviewEntry d framedDir rawDir true rawIndex approvals framedPath = Ok entry ->
  ReviewEntry.RawPath entry <> "" ->
  filepath.Rel rawDir (ReviewEntry.RawPath entry) = Some (ReviewEntry.RawRelative entry).
Proof.
  unfold buildReviewEntry.
  destruct (ctxErr d); [discriminate|].
  destruct (filepath.Rel framedDir framedPath) as [relPath|]; [|discriminate].
  destruct (inferLocaleAndDevice relPath) as [locale device].
  destruct (imageDimensions d framedPath) as [[width height]|]; [|discriminate].
  destruct (rawMatch rawDir rawIndex locale device _) as [rawPath|] eqn:Hm;
    [|discriminate].
  cbn [andb].
  destruct (String.eqb_spec rawPath "") as [->|Hne]; cbn [negb].
  - intros [= <-]. simpl. done.
  - destruct (filepath.Rel rawDir rawPath) as [rawRelative|] eqn:Hrel; [|discriminate].
    intros [= <-] _. simpl. exact Hrel.
Qed.

(** X13.  An entry built over the index of the raw directory takes
    the raw file filed under the entry's review key whenever there is
    one; and whenever the entry has a raw file at all, that file is one
    of the image files collected under the raw directory, its relative
    path is the one recorded, and it has the entry's review key or the
    entry's screenshot id. *)
Theorem review_entry_raw_file_comes_from_index (d : Disk)
    (framedDir rawDir framedPath : string) (rawIndex : gmap string string)
    (approvals : gmap string bool) (entry : ReviewEntry.t) :
  buildRawIndex d rawDir true = Ok rawIndex ->
  buildReviewEntry d framedDir rawDir true rawIndex approvals framedPath = Ok entry ->
  let reviewKey :=
    rawIndexReviewKey (ReviewEntry.Locale entry) (ReviewEntry.Device entry)
                      (ReviewEntry.ScreenshotID entry) in
  (lookupString rawIndex reviewKey <> "" ->
   ReviewEntry.RawPath entry = lookupString rawIndex reviewKey)
  /\ (ReviewEntry.RawPath entry <> "" ->
      exists rawFiles,
        collectImageFiles d rawDir = Ok rawFiles
        /\ ReviewEntry.RawPath entry ∈ rawFiles
        /\ filepath.Rel rawDir (ReviewEntry.RawPath entry)
           = Some (ReviewEntry.RawRelative entry)
        /\ (reviewKeyOf rawDir (ReviewEntry.RawPath entry) = reviewKey
            \/ idKeyOf (ReviewEntry.RawPath entry)
               = rawIndexScreenshotKey (ReviewEntry.ScreenshotID entry))).
Proof.
  intros Hindex Hentry reviewKey.
  pose proof (buildReviewEntry_raw _ _ _ _ _ _ _ Hentry) as Hraw.
  destruct (rawMatch_found _ _ _ _ _ _ Hraw) as [Hexact Hfound].
  split; [exact Hexact|]. intros Hne.
  unfold buildRawIndex in Hindex. simpl in Hindex.
  destruct (collectImageFiles d rawDir) as [rawFiles|e]; [|discriminate].
  destruct (indexRawFiles_sound _ _ _ _ _ _ (rawIndexInv_empty rawDir)
              (rawIndexSound_empty rawDir) Hindex)
    as (ambiguous & _ & [Hval _]).
  simpl in Hval. exists rawFiles. split; [reflexivity|].
  destruct (Hfound Hne) as [Hk|Hk]; destruct (Hval _ _ Hk) as [Hin Hkey].
  - conjs; [exact Hin|by apply (buildReviewEntry_raw_relative _ _ _ _ _ _ _ Hentry)|].
    left. destruct Hkey as [Hid|Hrv]; [discriminate Hid|by symmetry].
  - conjs; [exact Hin|by apply (buildReviewEntry_raw_relative _ _ _ _ _ _ _ Hentry)|].
    right. destruct Hkey as [Hid|Hrv]; [by symmetry|].
    exfalso. unfold rawIndexScreenshotKey in Hrv.
    by apply (reviewKeyOf_not_id rawDir (ReviewEntry.RawPath entry)
                (strings.TrimSpace (ReviewEntry.ScreenshotID entry))).
Qed.

End RawIndexSound.

(** The index of the raw captures of [rawDisk]. *)
Definition rawDiskIndex : gmap string string :=
  match @buildRawIndex asciiLib rawDisk "/raw" true with
  | Ok index => index
  | Err _ => ∅
  end.

Lemma buildRawIndex_sound_and_complete_witness :
  exists rawFiles,
    @collectImageFiles asciiLib rawDisk "/raw" = Ok rawFiles
    /\ (forall k p, rawDiskIndex !! k = Some p ->
          p ∈ rawFiles
          /\ (k = idKeyOf p \/ k = @reviewKeyOf asciiLib "/raw" p))
    /\ (forall p, p ∈ rawFiles ->
          (forall q, q ∈ rawFiles -> idKeyOf q = idKeyOf p -> q = p) ->
          rawDiskIndex !! idKeyOf p = Some p).
Proof.
  apply (@buildRawIndex_sound_and_complete asciiLib rawDisk "/raw" rawDiskIndex).
  vm_compute. reflexivity.
Defined.

(** The framed settings screen for en/iPhone, over the raw captures of
    [rawDisk]. *)
Lemma review_entry_raw_file_comes_from_index_witness :
  exists entry,
    @buildReviewEntry asciiLib noTables rawDisk "/framed" "/raw" true rawDiskIndex ∅
      "/framed/en/iPhone/settings.png" = Ok entry
    /\ ReviewEntry.RawPath entry = "/raw/en/iPhone/settings.png"
    /\ let reviewKey :=
         rawIndexReviewKey (ReviewEntry.Locale entry) (ReviewEntry.Device entry)
                           (ReviewEntry.ScreenshotID entry) in
       (lookupString rawDiskIndex reviewKey <> "" ->
        ReviewEntry.RawPath entry = lookupString rawDiskIndex reviewKey)
       /\ (ReviewEntry.RawPath entry <> "" ->
           exists rawFiles,
             @collectImageFiles asciiLib rawDisk "/raw" = Ok rawFiles
             /\ ReviewEntry.RawPath entry ∈ rawFiles
             /\ filepath.Rel "/raw" (ReviewEntry.RawPath entry)
                = Some (ReviewEntry.RawRelative entry)
             /\ (@reviewKeyOf asciiLib "/raw" (ReviewEntry.RawPath entry) = reviewKey
                 \/ idKeyOf (ReviewEntry.RawPath entry)
                    = rawIndexScreenshotKey (ReviewEntry.ScreenshotID entry))).
Proof.
  eexists.
  split; [vm_compute; reflexivity|].
  split; [reflexivity|].
  eapply (@review_entry_raw_file_comes_from_index asciiLib noTables rawDisk
            "/framed" "/raw" "/framed/en/iPhone/settings.png" rawDiskIndex ∅ _);
    vm_compute; reflexivity.
Defined.

(** ** Counting entries *)

Section Summary.
Context `{GoLib} `{Collaborators}.

(** The status is one of the four of the table. *)
Definition tabled (entry : ReviewEntry.t) : Prop :=
  exists hasRaw hasValidSize,
    ReviewEntry.Status entry = deriveReviewStatus hasRaw hasValidSize.

Lemma summarizeFrom_counts : forall entries summary,
  let s := summarizeFrom entries summary in
  let n := Z.of_nat (List.length entries) in
  ReviewSummary.Total s = ReviewSummary.Total summary
  /\ ReviewSummary.Approved s + ReviewSummary.PendingApproval s
     = ReviewSummary.Approved summary + ReviewSummary.PendingApproval summary + n
  /\ ReviewSummary.Ready summary <= ReviewSummary.Ready s
     <= ReviewSummary.Ready summary + n
  /\ ReviewSummary.MissingRaw summary <= ReviewSummary.MissingRaw s
     <= ReviewSummary.MissingRaw summary + n
  /\ ReviewSummary.InvalidSize summary <= ReviewSummary.InvalidSize s
     <= ReviewSummary.InvalidSize summary + n
  /\ ReviewSummary.Approved summary <= ReviewSummary.Approved s
  /\ ReviewSummary.PendingApproval summary <= ReviewSummary.PendingApproval s
  /\ (Forall tabled entries ->
      ReviewSummary.Ready s + ReviewSummary.MissingRaw s
      <= ReviewSummary.Ready summary + ReviewSummary.MissingRaw summary + n
      /\ ReviewSummary.Ready s + ReviewSummary.InvalidSize s
         <= ReviewSummary.Ready summary + ReviewSummary.InvalidSize summary + n
      /\ ReviewSummary.Ready summary + ReviewSummary.MissingRaw summary
         + ReviewSummary.InvalidSize summary + n
         <= ReviewSummary.Ready s + ReviewSummary.MissingRaw s
            + ReviewSummary.InvalidSize s).
Proof.
  induction entries as [|entry rest IH]; intros summary.
  - simpl. conjs; lia.
  - cbn [summarizeFrom List.length].
    match goal with |- context [summarizeFrom rest ?s'] =>
      set (s1 := s') in *; specialize (IH s1) end.
    cbv zeta in IH |- *.
    set (sf := summarizeFrom rest s1) in *. clearbody sf.
    subst s1.
    cbn [ReviewSummary.Total ReviewSummary.Ready
      ReviewSummary.MissingRaw ReviewSummary.InvalidSize ReviewSummary.Approved
      ReviewSummary.PendingApproval] in IH.
    destruct IH as (Ht & Hap & Hr & Hm & Hi & Ha & Hp & Htab).
    rewrite Nat2Z.inj_succ.
    unfold countIf in *.
    assert (Hst : Forall tabled (entry :: rest) ->
                  Forall tabled rest
                  /\ exists hasRaw valid,
                       ReviewEntry.Status entry = deriveReviewStatus hasRaw valid).
    { intros Hall. inversion Hall; subst. split; assumption. }
    set (st := ReviewEntry.Status entry) in *. clearbody st.
    set (ap := ReviewEntry.Approved entry) in *. clearbody ap.
    set (n := Z.of_nat (List.length rest)) in *.
    assert (Hn : 0 <= n) by lia. clearbody n.
    conjs; try exact Ht;
      try (destruct ap, (String.eqb st reviewStatusReady),
             (strings.Contains st reviewStatusMissingRaw),
             (strings.Contains st reviewStatusInvalidSize); cbn [negb] in *; lia).
    intros Hall. destruct (Hst Hall) as (Hrest & hasRaw & valid & ->).
    specialize (Htab Hrest).
    assert (Hcase :
        (String.eqb (deriveReviewStatus hasRaw valid) reviewStatusReady,
         strings.Contains (deriveReviewStatus hasRaw valid) reviewStatusMissingRaw,
         strings.Contains (deriveReviewStatus hasRaw valid) reviewStatusInvalidSize)
        = (hasRaw && valid, negb hasRaw, negb valid)).
    { destruct hasRaw, valid; vm_compute; reflexivity. }
    injection Hcase as Hc1 Hc2 Hc3. rewrite Hc1, Hc2, Hc3 in *.
    destruct hasRaw, valid; cbn [andb negb] in *; lia.
Qed.

(** X14.  The counts of a summary.  The total is the number of
    entries; approved and pending add up to the total; no count is
    negative or above the total.  When every status is one of the four
    of the table, an entry counts as ready or as missing a raw file, not
    both, and as ready or as of invalid size, not both, and every entry
    counts under at least one of the three. *)
Theorem summarizeReviewEntries_counts (entries : list ReviewEntry.t) :
  let s := summarizeReviewEntries entries in
  ReviewSummary.Total s = Z.of_nat (List.length entries)
  /\ ReviewSummary.Approved s + ReviewSummary.PendingApproval s = ReviewSummary.Total s
  /\ 0 <= ReviewSummary.Approved s
  /\ 0 <= ReviewSummary.PendingApproval s
  /\ 0 <= ReviewSummary.Ready s <= ReviewSummary.Total s
  /\ 0 <= ReviewSummary.MissingRaw s <= ReviewSummary.Total s
  /\ 0 <= ReviewSummary.InvalidSize s <= ReviewSummary.Total s
  /\ (Forall tabled entries ->
      ReviewSummary.Ready s + ReviewSummary.MissingRaw s <= ReviewSummary.Total s
      /\ ReviewSummary.Ready s + ReviewSummary.InvalidSize s <= ReviewSummary.Total s
      /\ ReviewSummary.Total s
         <= ReviewSummary.Ready s + ReviewSummary.MissingRaw s
            + ReviewSummary.InvalidSize s).
Proof.
  unfold summarizeReviewEntries.
  match goal with |- context [summarizeFrom entries ?s0] =>
    pose proof (summarizeFrom_counts entries s0) as Hc end.
  cbv zeta in Hc |- *. cbn [ReviewSummary.Total ReviewSummary.Ready
    ReviewSummary.MissingRaw ReviewSummary.InvalidSize ReviewSummary.Approved
    ReviewSummary.PendingApproval] in Hc.
  destruct Hc as (Ht & Hap & Hr & Hm & Hi & Ha & Hp & Htab).
  rewrite Ht. conjs; try lia.
  intros Hall. specialize (Htab Hall). lia.
Qed.

End Summary.

(** ** Where a review is written *)

Lemma IsAbs_cons path : filepath.IsAbs path = true -> exists rest, path = String "/" rest.
Proof.
  unfold filepath.IsAbs. destruct path as [|c rest]; [discriminate|].
  simpl. destruct (Ascii.eqb_spec c "/") as [->|]; [|discriminate]. eauto.
Qed.

Lemma IsAbs_Clean path : filepath.IsAbs path = true -> filepath.IsAbs (filepath.Clean path) = true.
Proof.
  intros Habs. unfold filepath.Clean. rewrite Habs.
  unfold filepath.IsAbs. apply (HasPrefix_app "/").
Qed.

Lemma IsAbs_Join dir rest :
  filepath.IsAbs dir = true -> filepath.IsAbs (filepath.Join (dir :: rest)) = true.
Proof.
  intros Habs. destruct (IsAbs_cons _ Habs) as [tail ->].
  unfold filepath.Join. cbn [List.filter String.eqb negb].
  apply IsAbs_Clean. cbn [strings.Join].
  unfold filepath.IsAbs.
  destruct (List.filter _ rest); [apply (HasPrefix_app "/" tail)|].
  rewrite append_cons. apply (HasPrefix_app "/").
Qed.

Lemma absPath_IsAbs wd dir path absolute :
  wd = Ok dir -> filepath.IsAbs dir = true ->
  absPath wd path = Ok absolute -> filepath.IsAbs absolute = true.
Proof.
  intros -> Hdir. unfold absPath.
  destruct (filepath.IsAbs path) eqn:Hp; intros [= <-].
  - by apply IsAbs_Clean.
  - by apply IsAbs_Join.
Qed.

Lemma absPath_total dir path :
  exists absolute, absPath (Ok dir) path = Ok absolute.
Proof. unfold absPath. destruct (filepath.IsAbs path); eauto. Qed.

Section ReviewPaths.
Context `{GoLib} `{Collaborators}.

Lemma summarizeReviewEntries_total entries :
  ReviewSummary.Total (summarizeReviewEntries entries) = Z.of_nat (List.length entries).
Proof.
  unfold summarizeReviewEntries.
  match goal with |- context [summarizeFrom entries ?s0] =>
    destruct (summarizeFrom_counts entries s0) as [Ht _]; exact Ht end.
Qed.

(** X15.  With an absolute working directory
    [ResolveReviewOutputDir] never fails and returns an absolute path;
    for an output directory that is empty or blank it is
    [./screenshots/review] under the working directory. *)
Theorem ResolveReviewOutputDir_absolute (d : Disk) (wd outputDir : string) :
  workdir d = Ok wd ->
  filepath.IsAbs wd = true ->
  exists dir,
    ResolveReviewOutputDir d outputDir = Ok dir
    /\ filepath.IsAbs dir = true
    /\ (strings.TrimSpace outputDir = "" ->
        dir = filepath.Join [wd; defaultReviewOutputDir]).
Proof.
  intros Hwd Habs. unfold ResolveReviewOutputDir. rewrite Hwd.
  match goal with |- context [absPath (Ok wd) ?p] =>
    destruct (absPath_total wd p) as [dir Hdir]; rewrite Hdir end.
  exists dir. conjs; [reflexivity|exact (absPath_IsAbs _ _ _ _ eq_refl Habs Hdir)|].
  intros Hblank. rewrite Hblank in Hdir. cbn in Hdir. congruence.
Qed.

(** The approval of every entry is the one its key has in the
    approvals the entries were built with. *)
Lemma buildReviewEntries_approved d framedDir rawDir rawAvailable rawIndex approvals
    entries :
  buildReviewEntries d framedDir rawDir rawAvailable rawIndex approvals = Ok entries ->
  Forall (fun entry =>
            ReviewEntry.Approved entry = lookupBool approvals (ReviewEntry.Key entry))
         entries.
Proof.
  unfold buildReviewEntries.
  destruct (collectImageFiles d framedDir) as [framedFiles|e]; [|discriminate].
  intros Hrun. apply buildReviewEntriesFrom_each in Hrun.
  induction Hrun as [|framedPath entry framedFiles entries Hentry _ IH]; constructor.
  - exact (desc_approved _ _ _ _ _ (buildReviewEntry_describes _ _ _ _ _ _ _ _ Hentry)).
  - exact IH.
Qed.

(** X16.  When [GenerateReview] succeeds, exactly two of its writes
    went through, that of the manifest first and that of the report
    second, at the paths of its result; the report is the rendering of
    that manifest, the result repeats the manifest's paths and counts,
    the summary of the manifest is the summary of its entries, its
    timestamp is the time of the run, and the approval of every entry
    is the one its key has in the ledger as it was before the first
    write.  When it fails, none of its writes went through, or that of
    the manifest alone, and then the error is that of rendering the
    report or of writing it. *)
Theorem GenerateReview_artifacts (req : ReviewRequest.t) (d : Disk) :
  let '(res, d') := GenerateReview req d in
  match res with
  | Ok r =>
    exists manifest html approvals,
      artifacts d'
      = (ReviewResult.HTMLPath r, ReviewHTML html)
        :: (ReviewResult.ManifestPath r, ManifestJSON manifest) :: artifacts d
      /\ renderTemplate manifest = Ok html
      /\ r = resultOf manifest
      /\ ReviewManifest.Summary manifest
         = summarizeReviewEntries (ReviewManifest.Entries manifest)
      /\ ReviewManifest.GeneratedAt manifest = timestamp d
      /\ loadApprovals d (ReviewResult.ApprovalPath r) = Ok approvals
      /\ Forall (fun entry =>
                   ReviewEntry.Approved entry
                   = lookupBool approvals (ReviewEntry.Key entry))
                (ReviewManifest.Entries manifest)
  | Err e =>
    artifacts d' = artifacts d
    \/ exists manifest,
         artifacts d'
         = (filepath.Join [ReviewManifest.OutputDir manifest; defaultReviewManifestName],
            ManifestJSON manifest) :: artifacts d
         /\ (renderReviewHTML manifest = Err e
             \/ exists cause,
                  writeError d (filepath.Join [ReviewManifest.OutputDir manifest;
                                               defaultReviewHTMLName]) = Some cause
                  /\ e = "write review HTML: " ++ cause)
  end.
Proof.
  destruct (GenerateReview_cases req d)
    as [e|manifest e Hgen Hwhy|manifest html Hgen Hhtml].
  - by left.
  - right. exists manifest. split; [reflexivity|exact Hwhy].
  - destruct Hgen as [_ _ _ _ _ _ _ (approvals & absRawDir & rawAvailable & rawIndex
                                      & Hload & _ & _ & Hentries & Hm) _].
    exists manifest, html, approvals.
    conjs; try done; try (rewrite Hm; reflexivity).
    exact (buildReviewEntries_approved _ _ _ _ _ _ _ Hentries).
Qed.

(** X17.  A successful [GenerateReview] names, as the paths of its
    manifest and report, [manifest.json] and [index.html] in the
    directory [ResolveReviewOutputDir] gives for the request's output
    directory, for which [os.MkdirAll] returned no error.  With an
    absolute working directory all paths of the result are absolute;
    the ledger is [approved.json] in the output directory when the
    request names none, and a relative ledger path is taken relative to
    the output directory. *)
Theorem GenerateReview_writes_into_resolved_dir (req : ReviewRequest.t) (d d' : Disk)
    (r : ReviewResult.t) :
  GenerateReview req d = (Ok r, d') ->
  exists dir,
    ResolveReviewOutputDir d (ReviewRequest.OutputDir req) = Ok dir
    /\ mkdirAllError d dir = None
    /\ ReviewResult.ManifestPath r = filepath.Join [dir; defaultReviewManifestName]
    /\ ReviewResult.HTMLPath r = filepath.Join [dir; defaultReviewHTMLName]
    /\ (forall wd, workdir d = Ok wd -> filepath.IsAbs wd = true ->
        filepath.IsAbs dir = true
        /\ filepath.IsAbs (ReviewResult.ManifestPath r) = true
        /\ filepath.IsAbs (ReviewResult.HTMLPath r) = true
        /\ filepath.IsAbs (ReviewResult.ApprovalPath r) = true
        /\ filepath.IsAbs (ReviewResult.FramedDir r) = true
        /\ (strings.TrimSpace (ReviewRequest.ApprovalPath req) = "" ->
            ReviewResult.ApprovalPath r
            = filepath.Join [dir; defaultReviewApprovalsName])
        /\ (filepath.IsAbs (strings.TrimSpace (ReviewRequest.ApprovalPath req)) = false ->
            strings.TrimSpace (ReviewRequest.ApprovalPath req) <> "" ->
            ReviewResult.ApprovalPath r
            = filepath.Join [dir; strings.TrimSpace (ReviewRequest.ApprovalPath req)])).
Proof.
  intros Hrun.
  pose proof (GenerateReview_cases req d) as Hcases. rewrite Hrun in Hcases.
  inversion Hcases as [| |manifest html Hgen Hhtml]; subst.
  destruct Hgen as [_ Hframed _ _ Hout Hmk Happ _ _].
  exists (ReviewManifest.OutputDir manifest).
  cbn [resultOf ReviewResult.ManifestPath ReviewResult.HTMLPath
       ReviewResult.ApprovalPath ReviewResult.FramedDir].
  conjs; try done.
  intros wd Hwd Habs.
  assert (Hdir : filepath.IsAbs (ReviewManifest.OutputDir manifest) = true).
  { unfold ResolveReviewOutputDir in Hout.
    match type of Hout with context [absPath (workdir d) ?p] =>
      destruct (absPath (workdir d) p) as [dir|e] eqn:Hd; [|discriminate] end.
    injection Hout as <-. exact (absPath_IsAbs _ _ _ _ Hwd Habs Hd). }
  conjs; try (by apply IsAbs_Join); try done.
  - rewrite Happ. unfold approvalPathOf.
    destruct (String.eqb _ ""); [rewrite IsAbs_Join by done; by apply IsAbs_Join|].
    destruct (filepath.IsAbs (strings.TrimSpace (ReviewRequest.ApprovalPath req)))
      eqn:Hp; cbn [negb]; [exact Hp|by apply IsAbs_Join].
  - exact (absPath_IsAbs _ _ _ _ Hwd Habs Hframed).
  - intros Hblank. rewrite Happ. unfold approvalPathOf. rewrite Hblank.
    cbn [String.eqb]. by rewrite IsAbs_Join.
  - intros Hrel Hne. rewrite Happ. unfold approvalPathOf.
    apply String.eqb_neq in Hne. by rewrite Hne, Hrel.
Qed.

(** Without a raw directory no entry has a raw file. *)
Lemma buildReviewEntries_no_raw d framedDir rawDir rawIndex approvals entries :
  buildReviewEntries d framedDir rawDir false rawIndex approvals = Ok entries ->
  Forall (fun entry =>
            ReviewEntry.RawPath entry = ""
            /\ ReviewEntry.Status entry
               = deriveReviewStatus false (ReviewEntry.ValidAppStoreSize entry))
         entries.
Proof.
  unfold buildReviewEntries.
  destruct (collectImageFiles d framedDir) as [framedFiles|e]; [|discriminate].
  intros Hrun. apply buildReviewEntriesFrom_each in Hrun.
  induction Hrun as [|p entry ps es Hentry _ IH]; constructor; [|exact IH].
  destruct (buildReviewEntry_status _ _ _ _ _ _ _ _ Hentry) as (Hst & _ & Hraw).
  specialize (Hraw eq_refl). rewrite Hraw in Hst. split; assumption.
Qed.

Lemma summarizeFrom_no_raw : forall entries summary,
  Forall (fun entry =>
            ReviewEntry.RawPath entry = ""
            /\ ReviewEntry.Status entry
               = deriveReviewStatus false (ReviewEntry.ValidAppStoreSize entry))
         entries ->
  ReviewSummary.Ready (summarizeFrom entries summary) = ReviewSummary.Ready summary
  /\ ReviewSummary.MissingRaw (summarizeFrom entries summary)
     = ReviewSummary.MissingRaw summary + Z.of_nat (List.length entries).
Proof.
  induction entries as [|entry rest IH]; intros summary Hall.
  - simpl. split; lia.
  - inversion Hall as [|? ? [_ Hst] Hrest]; subst.
    cbn [summarizeFrom List.length]. rewrite Hst.
    match goal with |- context [summarizeFrom rest ?s'] =>
      destruct (IH s' Hrest) as [Hr Hm]; rewrite Hr, Hm end.
    cbn [ReviewSummary.Ready ReviewSummary.MissingRaw].
    rewrite Nat2Z.inj_succ.
    assert (Hcase : forall v,
      String.eqb (deriveReviewStatus false v) reviewStatusReady = false
      /\ strings.Contains (deriveReviewStatus false v) reviewStatusMissingRaw = true).
    { intros [|]; vm_compute; split; reflexivity. }
    destruct (Hcase (ReviewEntry.ValidAppStoreSize entry)) as [-> ->].
    unfold countIf. split; lia.
Qed.

(** X18.  When the request names no raw directory, or the one it
    names is not a directory, a successful [GenerateReview] reports
    nothing as ready and every entry as missing its raw file; the
    manifest it writes has no raw directory and no entry with a raw
    path. *)
Theorem GenerateReview_without_raw_dir (req : ReviewRequest.t) (d d' : Disk)
    (r : ReviewResult.t) :
  GenerateReview req d = (Ok r, d') ->
  (strings.TrimSpace (ReviewRequest.RawDir req) = ""
   \/ forall absRawDir,
        absPath (workdir d) (strings.TrimSpace (ReviewRequest.RawDir req)) = Ok absRawDir ->
        statIsDir d absRawDir <> Ok true) ->
  ReviewResult.Ready r = 0
  /\ ReviewResult.MissingRaw r = ReviewResult.Total r
  /\ exists manifest,
       (ReviewResult.ManifestPath r, ManifestJSON manifest) ∈ artifacts d'
       /\ ReviewManifest.RawDir manifest = ""
       /\ Forall (fun entry => ReviewEntry.RawPath entry = "")
                 (ReviewManifest.Entries manifest).
Proof.
  intros Hrun Hnoraw.
  pose proof (GenerateReview_cases req d) as Hcases. rewrite Hrun in Hcases.
  inversion Hcases as [| |manifest html Hgen Hhtml]; subst.
  destruct Hgen as [_ _ _ _ _ _ _ (approvals & absRawDir & rawAvailable & rawIndex
                                    & _ & Hraw & _ & Hentries & Hm) _].
  assert (rawAvailable = false) as ->.
  { unfold rawDirOf in Hraw.
    destruct (String.eqb_spec (strings.TrimSpace (ReviewRequest.RawDir req)) "")
      as [Hb|Hb]; cbn [negb] in Hraw; [congruence|].
    destruct Hnoraw as [Hblank|Hmissing]; [contradiction|].
    match type of Hraw with context [absPath (workdir d) ?p] =>
      destruct (absPath (workdir d) p) as [a|e] eqn:Ha; [|discriminate] end.
    specialize (Hmissing _ eq_refl).
    destruct (statIsDir d a) as [[|]|e]; congruence. }
  apply buildReviewEntries_no_raw in Hentries.
  destruct (summarizeFrom_no_raw _
              {| ReviewSummary.Total :=
                   Z.of_nat (List.length (ReviewManifest.Entries manifest));
                 ReviewSummary.Ready := 0; ReviewSummary.MissingRaw := 0;
                 ReviewSummary.InvalidSize := 0; ReviewSummary.Approved := 0;
                 ReviewSummary.PendingApproval := 0 |} Hentries) as [Hready Hmissing].
  pose proof (summarizeReviewEntries_total (ReviewManifest.Entries manifest)) as Htotal.
  assert (Hsum : ReviewManifest.Summary manifest
                 = summarizeReviewEntries (ReviewManifest.Entries manifest))
    by (rewrite Hm; reflexivity).
  cbn [resultOf ReviewResult.Ready ReviewResult.MissingRaw ReviewResult.Total
       ReviewResult.ManifestPath].
  rewrite Hsum. unfold summarizeReviewEntries at 1 2. rewrite Hready, Hmissing, Htotal.
  conjs; [reflexivity|simpl; lia|].
  exists manifest. conjs.
  - cbn [writeArtifact artifacts]. apply elem_of_cons. right. apply elem_of_cons. by left.
  - rewrite Hm. reflexivity.
  - eapply Forall_impl; [exact Hentries|]. by intros e [He _].
Qed.

End ReviewPaths.

Lemma ResolveReviewOutputDir_absolute_witness :
  exists dir,
    ResolveReviewOutputDir framedDisk " " = Ok dir
    /\ filepath.IsAbs dir = true
    /\ (strings.TrimSpace " " = "" ->
        dir = filepath.Join ["/work"; defaultReviewOutputDir]).
Proof.
  apply (ResolveReviewOutputDir_absolute framedDisk "/work" " "); reflexivity.
Defined.

Lemma GenerateReview_writes_into_resolved_dir_witness :
  exists r d',
    @GenerateReview asciiLib noTables framedOnly framedDisk = (Ok r, d')
    /\ exists dir,
         ResolveReviewOutputDir framedDisk (ReviewRequest.OutputDir framedOnly) = Ok dir
         /\ mkdirAllError framedDisk dir = None
         /\ ReviewResult.ManifestPath r = filepath.Join [dir; defaultReviewManifestName]
         /\ ReviewResult.HTMLPath r = filepath.Join [dir; defaultReviewHTMLName]
         /\ (forall wd, workdir framedDisk = Ok wd -> filepath.IsAbs wd = true ->
             filepath.IsAbs dir = true
             /\ filepath.IsAbs (ReviewResult.ManifestPath r) = true
             /\ filepath.IsAbs (ReviewResult.HTMLPath r) = true
             /\ filepath.IsAbs (ReviewResult.ApprovalPath r) = true
             /\ filepath.IsAbs (ReviewResult.FramedDir r) = true
             /\ (strings.TrimSpace (ReviewRequest.ApprovalPath framedOnly) = "" ->
                 ReviewResult.ApprovalPath r
                 = filepath.Join [dir; defaultReviewApprovalsName])
             /\ (filepath.IsAbs (strings.TrimSpace (ReviewRequest.ApprovalPath framedOnly))
                 = false ->
                 strings.TrimSpace (ReviewRequest.ApprovalPath framedOnly) <> "" ->
                 ReviewResult.ApprovalPath r
                 = filepath.Join [dir; strings.TrimSpace
                                         (ReviewRequest.ApprovalPath framedOnly)])).
Proof.
  eexists _, _. split; [vm_compute; reflexivity|].
  eapply (@GenerateReview_writes_into_resolved_dir asciiLib noTables framedOnly
            framedDisk).
  vm_compute. reflexivity.
Defined.

Lemma GenerateReview_without_raw_dir_witness :
  exists r d',
    @GenerateReview asciiLib noTables framedOnly framedDisk = (Ok r, d')
    /\ ReviewResult.Ready r = 0
    /\ ReviewResult.MissingRaw r = ReviewResult.Total r
    /\ exists manifest,
         (ReviewResult.ManifestPath r, ManifestJSON manifest) ∈ artifacts d'
         /\ ReviewManifest.RawDir manifest = ""
         /\ Forall (fun entry => ReviewEntry.RawPath entry = "")
                   (ReviewManifest.Entries manifest).
Proof.
  eexists _, _. split; [vm_compute; reflexivity|].
  eapply (@GenerateReview_without_raw_dir asciiLib noTables framedOnly framedDisk).
  - vm_compute. reflexivity.
  - left. reflexivity.
Defined.

(** ** Saving and loading approvals *)

Lemma sort_insert_elem (x y : string) (l : list string) :
  y ∈ sort.insert x l <-> y = x \/ y ∈ l.
Proof.
  induction l as [|z l IH]; simpl.
  - rewrite list_elem_of_singleton, elem_of_nil. tauto.
  - destruct (sort.less z x).
    + rewrite !elem_of_cons, IH. tauto.
    + rewrite !elem_of_cons. tauto.
Qed.

Lemma sort_Strings_elem (y : string) (l : list string) :
  y ∈ sort.Strings l <-> y ∈ l.
Proof.
  unfold sort.Strings. induction l as [|x l IH]; simpl; [done|].
  rewrite sort_insert_elem, elem_of_cons, IH. tauto.
Qed.

Lemma decodeStrings_strs (keys : list string) :
  decodeStrings (map JStr keys) = Some keys.
Proof. induction keys as [|k keys IH]; simpl; [done|]. by rewrite IH. Qed.

Section LedgerMore.
Context `{GoLib}.

Lemma approveKeys_lookup keys : forall (approvals : gmap string bool) k,
  (approveKeys keys approvals !! k = Some true
   <-> approvals !! k = Some true
       \/ (k <> "" /\ exists key, key ∈ keys /\ strings.TrimSpace key = k))
  /\ (forall v, approveKeys keys approvals !! k = Some v ->
        v = true \/ approvals !! k = Some v).
Proof.
  induction keys as [|key rest IH]; intros approvals k.
  - simpl. split; [|by right]. split; [by left|].
    intros [Hk|[_ (x & Hx & _)]]; [done|by apply elem_of_nil in Hx].
  - cbn [approveKeys].
    destruct (String.eqb_spec (strings.TrimSpace key) "") as [Hblank|Hne]; cbn [negb].
    + destruct (IH approvals k) as [Hiff Hval]. split; [|exact Hval].
      rewrite Hiff. split.
      * intros [Hk|[Hk (x & Hx & Ht)]]; [by left|right].
        split; [done|]. exists x. split; [by right|done].
      * intros [Hk|[Hk (x & Hx & Ht)]]; [by left|].
        apply elem_of_cons in Hx as [->|Hx]; [congruence|].
        right. split; [done|]. by exists x.
    + destruct (IH (<[strings.TrimSpace key := true]> approvals) k) as [Hiff Hval].
      split.
      * rewrite Hiff. split.
        -- intros [Hk|[Hk (x & Hx & Ht)]].
           ++ apply lookup_insert_Some in Hk as [[<- _]|[_ Hk]]; [|by left].
              right. split; [done|]. exists key. split; [by left|done].
           ++ right. split; [done|]. exists x. split; [by right|done].
        -- intros [Hk|[Hk (x & Hx & Ht)]].
           ++ left. destruct (decide (strings.TrimSpace key = k)) as [<-|Hnk];
                [by rewrite lookup_insert_eq|by rewrite lookup_insert_ne].
           ++ apply elem_of_cons in Hx as [->|Hx].
              ** left. subst k. by rewrite lookup_insert_eq.
              ** right. split; [done|]. by exists x.
      * intros v Hv. destruct (Hval v Hv) as [->|Hk]; [by left|].
        apply lookup_insert_Some in Hk as [[_ <-]|[_ Hk]]; [by left|by right].
Qed.

(** The keys [SaveApprovals] writes. *)
Definition savedKeys (approvals : gmap string bool) : list string :=
  sort.Strings
    (omap (fun entry : string * bool =>
             if negb entry.2 then None
             else
               let trimmed := strings.TrimSpace entry.1 in
               if String.eqb trimmed "" then None else Some trimmed)
          (map_to_list approvals)).

Lemma savedKeys_elem approvals k :
  k ∈ savedKeys approvals
  <-> k <> "" /\ exists key, approvals !! key = Some true /\ strings.TrimSpace key = k.
Proof.
  unfold savedKeys. rewrite sort_Strings_elem, list_elem_of_omap. split.
  - intros ([key v] & Hin & Hf). apply elem_of_map_to_list in Hin.
    simpl in Hf. destruct v; cbn [negb] in Hf; [|discriminate].
    destruct (String.eqb_spec (strings.TrimSpace key) "") as [|Hne]; [discriminate|].
    injection Hf as <-. split; [done|]. by exists key.
  - intros [Hne (key & Hk & <-)]. exists (key, true).
    split; [by apply elem_of_map_to_list|].
    simpl. apply String.eqb_neq in Hne. by rewrite Hne.
Qed.

Lemma loadApprovals_saved d path approvals :
  readError d path = None ->
  loadApprovals (writeFile path (marshalWrapped (savedKeys approvals)) d) path
  = Ok (approveKeys (map validUTF8 (savedKeys approvals)) ∅).
Proof.
  intros Hread. unfold loadApprovals. cbn [readError writeFile files].
  rewrite Hread, lookup_insert_eq.
  unfold marshalWrapped.
  cbn [unmarshalMapBool decodeBoolMembers unmarshalStringList decodeStringList
       unmarshalWrapped decodeWrappedMembers].
  assert (Hfield : fieldMatches "approved" "approved" = true) by reflexivity.
  rewrite Hfield. cbn [decodeStringList].
  rewrite <- (map_map validUTF8 JStr), decodeStrings_strs. reflexivity.
Qed.

(** X19.  When the directory can be created and the file written and
    read, [SaveApprovals] succeeds and [loadApprovals] reads back a set:
    every key it holds is approved, and it holds exactly the keys that
    were approved, each trimmed, made valid UTF-8 and trimmed again,
    those that are blank left out.  So for approvals whose approved keys
    are not empty, carry no surrounding white space and are valid UTF-8,
    saving and loading gives back exactly the approved keys. *)
Theorem SaveApprovals_then_loadApprovals (path : string)
    (approvals : gmap string bool) (d : Disk) :
  mkdirAllError d (filepath.Dir path) = None ->
  writeError d path = None ->
  readError d path = None ->
  exists d' loaded,
    SaveApprovals path approvals d = (None, d')
    /\ loadApprovals d' path = Ok loaded
    /\ (forall k v, loaded !! k = Some v -> v = true)
    /\ (forall k,
          loaded !! k = Some true
          <-> k <> ""
              /\ exists key,
                   approvals !! key = Some true
                   /\ strings.TrimSpace key <> ""
                   /\ strings.TrimSpace (validUTF8 (strings.TrimSpace key)) = k)
    /\ ((forall key, approvals !! key = Some true ->
           key <> "" /\ strings.TrimSpace key = key /\ validUTF8 key = key) ->
        forall k, loaded !! k = Some true <-> approvals !! k = Some true).
Proof.
  intros Hmk Hwr Hrd.
  unfold SaveApprovals. fold (savedKeys approvals). rewrite Hmk, Hwr.
  eexists _, _. split; [reflexivity|].
  split; [by apply loadApprovals_saved|].
  assert (Hlaw : forall k,
    approveKeys (map validUTF8 (savedKeys approvals)) ∅ !! k = Some true
    <-> k <> ""
        /\ exists key,
             approvals !! key = Some true
             /\ strings.TrimSpace key <> ""
             /\ strings.TrimSpace (validUTF8 (strings.TrimSpace key)) = k).
  { intros k.
    destruct (approveKeys_lookup (map validUTF8 (savedKeys approvals)) ∅ k) as [-> _].
    rewrite lookup_empty. split.
    - intros [Hk|[Hk (x & Hx & Ht)]]; [done|]. split; [done|].
      apply list_elem_of_fmap in Hx as (s & -> & Hs).
      apply savedKeys_elem in Hs as [Hs (key & Hkey & <-)].
      exists key. conjs; done.
    - intros [Hk (key & Hkey & Hne & Ht)]. right. split; [done|].
      exists (validUTF8 (strings.TrimSpace key)). split; [|done].
      apply list_elem_of_fmap. exists (strings.TrimSpace key). split; [done|].
      apply savedKeys_elem. split; [done|]. by exists key. }
  conjs.
  - intros k v Hv.
    destruct (approveKeys_lookup (map validUTF8 (savedKeys approvals)) ∅ k) as [_ Hval].
    destruct (Hval v Hv) as [->|Hk]; [done|]. by rewrite lookup_empty in Hk.
  - exact Hlaw.
  - intros Hclean k. rewrite Hlaw. split.
    + intros [Hk (key & Hkey & Hne & <-)].
      destruct (Hclean _ Hkey) as (_ & Ht & Hv). by rewrite Ht, Hv, Ht.
    + intros Hk. destruct (Hclean _ Hk) as (Hne & Ht & Hv).
      split; [done|]. exists k. rewrite Ht, Hv, Ht. conjs; done.
Qed.

End LedgerMore.

Definition homeApproved : gmap string bool :=
  {[ "en|iPhone|home" := true; "fr|iPhone|home" := false ]}.

Lemma SaveApprovals_then_loadApprovals_witness :
  exists d' loaded,
    SaveApprovals ledgerPath homeApproved (ledgerDisk blankKeyObject) = (None, d')
    /\ @loadApprovals asciiLib d' ledgerPath = Ok loaded
    /\ (forall k v, loaded !! k = Some v -> v = true)
    /\ (forall k,
          loaded !! k = Some true
          <-> k <> ""
              /\ exists key,
                   homeApproved !! key = Some true
                   /\ strings.TrimSpace key <> ""
                   /\ strings.TrimSpace (validUTF8 (strings.TrimSpace key)) = k)
    /\ ((forall key, homeApproved !! key = Some true ->
           key <> "" /\ strings.TrimSpace key = key /\ validUTF8 key = key) ->
        forall k, loaded !! k = Some true <-> homeApproved !! k = Some true).
Proof.
  apply (@SaveApprovals_then_loadApprovals asciiLib ledgerPath homeApproved
           (ledgerDisk blankKeyObject)); reflexivity.
Defined.

Section LedgerFormats.
Context `{GoLib}.

(** The keys of a list of keys that count: trimmed, and then not empty. *)
Definition listed (keys : list string) (k : string) : Prop :=
  k <> "" /\ exists key, key ∈ keys /\ strings.TrimSpace key = k.

Lemma approveMembers (mapFormat : gmap string bool) :
  let approvals :=
    map_fold (fun key (approved : bool) approvals =>
                if approved
                then <[strings.TrimSpace key := true]> approvals
                else approvals)
             (∅ : gmap string bool) mapFormat in
  (forall k v, approvals !! k = Some v -> v = true)
  /\ (forall k, approvals !! k = Some true
                <-> exists key, mapFormat !! key = Some true
                                /\ strings.TrimSpace key = k).
Proof.
  cbv zeta.
  apply (map_fold_weak_ind
           (fun (r : gmap string bool) (m : gmap string bool) =>
              (forall k v, r !! k = Some v -> v = true)
              /\ (forall k, r !! k = Some true
                            <-> exists key, m !! key = Some true
                                            /\ strings.TrimSpace key = k))).
  - split.
    + intros k v Hk. by rewrite lookup_empty in Hk.
    + intros k. rewrite lookup_empty. split; [done|].
      intros (key & Hkey & _). by rewrite lookup_empty in Hkey.
  - intros i x m r Hi [Hval Hiff]. destruct x.
    + split.
      * intros k v Hk. apply lookup_insert_Some in Hk as [[_ <-]|[_ Hk]]; [done|].
        by eapply Hval.
      * intros k. split.
        -- intros Hk. apply lookup_insert_Some in Hk as [[<- _]|[_ Hk]].
           ++ exists i. by rewrite lookup_insert_eq.
           ++ apply Hiff in Hk as (key & Hkey & Ht). exists key. split; [|done].
              rewrite lookup_insert_ne; [done|]. intros ->. congruence.
        -- intros (key & Hkey & Ht).
           apply lookup_insert_Some in Hkey as [[<- _]|[_ Hkey]].
           ++ subst k. by rewrite lookup_insert_eq.
           ++ destruct (decide (strings.TrimSpace i = k)) as [<-|Hne];
                [by rewrite lookup_insert_eq|].
              rewrite lookup_insert_ne by done. apply Hiff. by exists key.
    + split; [exact Hval|]. intros k. rewrite Hiff. split.
      * intros (key & Hkey & Ht). exists key. split; [|done].
        rewrite lookup_insert_ne; [done|]. intros ->. congruence.
      * intros (key & Hkey & Ht).
        apply lookup_insert_Some in Hkey as [[_ [=]]|[_ Hkey]]. by exists key.
Qed.

Lemma approveKeys_listed keys :
  (forall k v, approveKeys keys ∅ !! k = Some v -> v = true)
  /\ (forall k, approveKeys keys ∅ !! k = Some true <-> listed keys k).
Proof.
  split.
  - intros k v Hv. destruct (approveKeys_lookup keys ∅ k) as [_ Hval].
    destruct (Hval v Hv) as [->|Hk]; [done|]. by rewrite lookup_empty in Hk.
  - intros k. destruct (approveKeys_lookup keys ∅ k) as [-> _].
    rewrite lookup_empty. unfold listed. split; [|by right].
    intros [Hk|Hk]; done.
Qed.

(** X20.  What [loadApprovals] reads.  Its result maps keys to true
    and to nothing else, and is empty when the file does not exist.
    The file is read as an object of booleans if it decodes as one: the
    approved keys are the trimmed keys of its true members.  Otherwise
    it is read as an array of strings, and otherwise as an object with
    an approved array: the approved keys are the trimmed strings that
    are not empty.  It fails only when the file cannot be read or
    decodes as none of the three. *)
Theorem loadApprovals_formats (d : Disk) (path : string) :
  match loadApprovals d path with
  | Ok approvals =>
    readError d path = None
    /\ (forall k v, approvals !! k = Some v -> v = true)
    /\ match files d !! path with
       | None => approvals = ∅
       | Some data =>
         forall k,
           approvals !! k = Some true
           <-> match unmarshalMapBool data with
               | Some mapFormat =>
                 exists key, mapFormat !! key = Some true
                             /\ strings.TrimSpace key = k
               | None =>
                 match unmarshalStringList data with
                 | Some listFormat => listed listFormat k
                 | None =>
                   match unmarshalWrapped data with
                   | Some wrapped => listed wrapped k
                   | None => False
                   end
                 end
               end
       end
  | Err _ =>
    readError d path <> None
    \/ exists data,
         files d !! path = Some data
         /\ unmarshalMapBool data = None
         /\ unmarshalStringList data = None
         /\ unmarshalWrapped data = None
  end.
Proof.
  unfold loadApprovals.
  destruct (readError d path) as [e|] eqn:Hread; [by left|].
  destruct (files d !! path) as [data|] eqn:Hfile.
  - destruct (unmarshalMapBool data) as [mapFormat|] eqn:Hmap.
    + destruct (approveMembers mapFormat) as [Hval Hiff]. conjs; done.
    + destruct (unmarshalStringList data) as [listFormat|] eqn:Hlist.
      * destruct (approveKeys_listed listFormat) as [Hval Hiff]. conjs; done.
      * destruct (unmarshalWrapped data) as [wrapped|] eqn:Hwrapped.
        -- destruct (approveKeys_listed wrapped) as [Hval Hiff]. conjs; done.
        -- right. exists data. conjs; done.
  - conjs; done.
Qed.

End LedgerFormats.

(** ** The order of collected files, and review keys *)

(** ** The order of Go strings *)

Lemma compare_le_trans : forall a b c : string,
  String.compare a b <> Gt -> String.compare b c <> Gt -> String.compare a c <> Gt.
Proof.
  induction a as [|x a IH]; intros b c Hab Hbc.
  - destruct c; simpl; discriminate.
  - destruct b as [|y b]; [simpl in Hab; congruence|].
    destruct c as [|z c]; [simpl in Hbc; congruence|].
    simpl in *. unfold Ascii.compare in *.
    destruct (N.compare_spec (N_of_ascii x) (N_of_ascii y)) as [Hxy|Hxy|Hxy];
      destruct (N.compare_spec (N_of_ascii y) (N_of_ascii z)) as [Hyz|Hyz|Hyz];
      destruct (N.compare_spec (N_of_ascii x) (N_of_ascii z)) as [Hxz|Hxz|Hxz];
      try congruence; try lia.
    by apply (IH b c).
Qed.

(** [a] is not after [b]. *)
Definition notAfter (a b : string) : Prop := sort.less b a = false.

Lemma notAfter_compare a b : notAfter a b <-> String.compare a b <> Gt.
Proof.
  unfold notAfter, sort.less, String.ltb. rewrite (String.compare_antisym a b).
  destruct (String.compare b a); simpl; split; congruence.
Qed.

Lemma notAfter_trans a b c : notAfter a b -> notAfter b c -> notAfter a c.
Proof. rewrite !notAfter_compare. apply compare_le_trans. Qed.

Lemma less_notAfter a b : sort.less a b = true -> notAfter a b.
Proof.
  unfold notAfter, sort.less, String.ltb. rewrite (String.compare_antisym b a).
  destruct (String.compare a b); simpl; congruence.
Qed.

Lemma sort_insert_sorted x l :
  StronglySorted notAfter l -> StronglySorted notAfter (sort.insert x l).
Proof.
  induction 1 as [|y l Hl IH Hy]; simpl.
  - repeat constructor.
  - destruct (sort.less y x) eqn:Hless.
    + constructor; [exact IH|].
      apply Forall_forall. intros z Hz. apply sort_insert_elem in Hz as [->|Hz].
      * by apply less_notAfter.
      * rewrite Forall_forall in Hy. by apply Hy.
    + constructor; [by constructor|].
      constructor; [exact Hless|].
      eapply Forall_impl; [exact Hy|]. intros z Hz.
      exact (notAfter_trans x y z Hless Hz).
Qed.

Lemma sort_Strings_sorted l : StronglySorted notAfter (sort.Strings l).
Proof.
  unfold sort.Strings. induction l as [|x l IH]; simpl; [constructor|].
  by apply sort_insert_sorted.
Qed.

Lemma sort_insert_perm x l : Permutation (sort.insert x l) (x :: l).
Proof.
  induction l as [|y l IH]; simpl; [done|].
  destruct (sort.less y x); [|done].
  rewrite IH. apply perm_swap.
Qed.

Lemma sort_Strings_perm l : Permutation (sort.Strings l) l.
Proof.
  unfold sort.Strings. induction l as [|x l IH]; simpl; [done|].
  by rewrite sort_insert_perm, IH.
Qed.

Section Collect.
Context `{GoLib}.

(** X21.  [collectImageFiles] returns the files the walk visits that
    are not directories and have an image extension, each as often as
    the walk visits it, in byte-wise ascending order; an error of the
    walk is returned as "scan screenshot directory: cause". *)
Theorem collectImageFiles_sorted_images (d : Disk) (root : string) :
  match collectImageFiles d root with
  | Ok files =>
    exists visited,
      walkDir d root = Ok visited
      /\ StronglySorted notAfter files
      /\ Permutation files
           (map fst (List.filter (fun entry : string * bool =>
                                    negb entry.2 && isImageFile entry.1) visited))
      /\ (forall path, path ∈ files
                       <-> (path, false) ∈ visited /\ isImageFile path = true)
  | Err e =>
    exists cause, walkDir d root = Err cause
                  /\ e = "scan screenshot directory: " ++ cause
  end.
Proof.
  unfold collectImageFiles.
  destruct (walkDir d root) as [visited|cause]; [|by exists cause].
  exists visited. conjs.
  - reflexivity.
  - apply sort_Strings_sorted.
  - apply sort_Strings_perm.
  - intros path. rewrite sort_Strings_elem, list_elem_of_fmap. split.
    + intros ([p isdir] & -> & Hin). apply list_elem_of_In, filter_In in Hin as [Hin Hok].
      simpl in *. apply andb_true_iff in Hok as [Hd Hi].
      destruct isdir; [discriminate|]. split; [by apply list_elem_of_In|done].
    + intros [Hin Hi]. exists (path, false). split; [done|].
      apply list_elem_of_In, filter_In. split; [by apply list_elem_of_In|].
      simpl. by rewrite Hi.
Qed.

(** ** Review keys *)

Lemma no_bar_cons c s :
  strings.Contains (String c s) "|" = false ->
  c <> "|"%char /\ strings.Contains s "|" = false.
Proof.
  rewrite Contains_unfold. intros Hc. apply orb_false_iff in Hc as [Hp Hrest].
  split; [|exact Hrest]. intros ->. simpl in Hp. destruct s; discriminate.
Qed.

Lemma bar_append (r : string) : "|" ++ r = String "|" r.
Proof. reflexivity. Qed.

Lemma cut_at_bar : forall a a' r r' : string,
  strings.Contains a "|" = false -> strings.Contains a' "|" = false ->
  a ++ "|" ++ r = a' ++ "|" ++ r' -> a = a' /\ r = r'.
Proof.
  induction a as [|c a IH]; intros a' r r' Ha Ha' Heq.
  - destruct a' as [|c' a']; rewrite ?append_cons, ?append_nil, ?bar_append in Heq.
    + injection Heq as ->. done.
    + apply no_bar_cons in Ha' as [Hc _]. injection Heq as <- _. done.
  - apply no_bar_cons in Ha as [Hc Ha].
    destruct a' as [|c' a']; rewrite ?append_cons, ?append_nil, ?bar_append in Heq.
    + injection Heq as -> _. done.
    + apply no_bar_cons in Ha' as [_ Ha'].
      injection Heq as <- Heq.
      destruct (IH _ _ _ Ha Ha' Heq) as [-> ->]. done.
Qed.

(** X22.  Review keys tell entries apart: when the trimmed locales
    and devices hold no vertical bar, two review keys are equal only if
    the trimmed locales, the trimmed devices and the trimmed screenshot
    ids are. *)
Theorem makeReviewKey_injective (locale device screenshotID : string)
    (locale' device' screenshotID' : string) :
  strings.Contains (strings.TrimSpace locale) "|" = false ->
  strings.Contains (strings.TrimSpace device) "|" = false ->
  strings.Contains (strings.TrimSpace locale') "|" = false ->
  strings.Contains (strings.TrimSpace device') "|" = false ->
  makeReviewKey locale device screenshotID = makeReviewKey locale' device' screenshotID' ->
  strings.TrimSpace locale = strings.TrimSpace locale'
  /\ strings.TrimSpace device = strings.TrimSpace device'
  /\ strings.TrimSpace screenshotID = strings.TrimSpace screenshotID'.
Proof.
  unfold makeReviewKey. intros Hl Hd Hl' Hd' Heq.
  apply cut_at_bar in Heq as [-> Heq]; try done.
  apply cut_at_bar in Heq as [-> ->]; done.
Qed.

End Collect.

Lemma makeReviewKey_injective_witness :
  strings.TrimSpace "en" = strings.TrimSpace " en"
  /\ strings.TrimSpace "iPhone_Air" = strings.TrimSpace "iPhone_Air "
  /\ strings.TrimSpace " home" = strings.TrimSpace "home".
Proof.
  apply (makeReviewKey_injective "en" "iPhone_Air" " home" " en" "iPhone_Air " "home");
    reflexivity.
Defined.

(** ** Raw counterparts, and the framed directory *)

Section Counterparts.
Context `{GoLib} `{Collaborators}.

(** Every collected file has an image extension, so none has an empty
    path. *)
Lemma collectImageFiles_images d root files path :
  collectImageFiles d root = Ok files -> path ∈ files -> isImageFile path = true.
Proof.
  unfold collectImageFiles.
  destruct (walkDir d root) as [visited|e]; [|discriminate].
  intros [= <-] Hin.
  apply sort_Strings_elem, list_elem_of_fmap in Hin as ([p isdir] & -> & Hin).
  apply list_elem_of_In, filter_In in Hin as [_ Hok].
  simpl in *. by apply andb_true_iff in Hok as [_ Hi].
Qed.

Lemma collectImageFiles_nonempty d root files path :
  collectImageFiles d root = Ok files -> path ∈ files -> path <> "".
Proof.
  intros Hc Hin ->. by pose proof (collectImageFiles_images _ _ _ _ Hc Hin).
Qed.

Lemma deriveReviewStatus_raw hasValidSize :
  (deriveReviewStatus true hasValidSize = reviewStatusReady
   \/ deriveReviewStatus true hasValidSize = reviewStatusInvalidSize)
  /\ (deriveReviewStatus false hasValidSize = reviewStatusMissingRaw
      \/ deriveReviewStatus false hasValidSize = reviewStatusMissingAndInvalid).
Proof. destruct hasValidSize; split; auto. Qed.

(** X27.  A framed screenshot finds its raw counterpart.  When a
    collected raw file has the review key of the entry (the same
    trimmed locale, device and screenshot id), the entry takes the
    first such file in the order of collection, its raw path is not
    empty, and its status is ready or invalid_size.  When no collected
    raw file has the entry's review key or its screenshot id, the entry
    has no raw path and its status is missing_raw or
    missing_raw_invalid_size. *)
Theorem review_entry_raw_counterpart (d : Disk)
    (framedDir rawDir framedPath : string) (rawFiles : list string)
    (rawIndex : gmap string string) (approvals : gmap string bool)
    (entry : ReviewEntry.t) :
  collectImageFiles d rawDir = Ok rawFiles ->
  buildRawIndex d rawDir true = Ok rawIndex ->
  buildReviewEntry d framedDir rawDir true rawIndex approvals framedPath = Ok entry ->
  let reviewKey :=
    rawIndexReviewKey (ReviewEntry.Locale entry) (ReviewEntry.Device entry)
                      (ReviewEntry.ScreenshotID entry) in
  (forall rawPath,
     firstWithReviewKey rawDir reviewKey rawFiles = Some rawPath ->
     ReviewEntry.RawPath entry = rawPath
     /\ rawPath <> ""
     /\ (ReviewEntry.Status entry = reviewStatusReady
         \/ ReviewEntry.Status entry = reviewStatusInvalidSize))
  /\ (firstWithReviewKey rawDir reviewKey rawFiles = None ->
      (forall q, q ∈ rawFiles ->
                 idKeyOf q <> rawIndexScreenshotKey (ReviewEntry.ScreenshotID entry)) ->
      ReviewEntry.RawPath entry = ""
      /\ (ReviewEntry.Status entry = reviewStatusMissingRaw
          \/ ReviewEntry.Status entry = reviewStatusMissingAndInvalid)).
Proof.
  intros Hfiles Hindex Hentry reviewKey.
  pose proof (buildReviewEntry_raw _ _ _ _ _ _ _ Hentry) as Hraw.
  pose proof (desc_status _ _ _ _ _
                (buildReviewEntry_describes _ _ _ _ _ _ _ _ Hentry)) as Hstatus.
  unfold buildRawIndex in Hindex. simpl in Hindex. rewrite Hfiles in Hindex.
  destruct (indexRawFiles_sound _ _ _ _ _ _ (rawIndexInv_empty rawDir)
              (rawIndexSound_empty rawDir) Hindex)
    as (ambiguous & [_ _ _ Hrev] & [Hval _]).
  simpl in Hrev, Hval.
  specialize (Hrev (makeReviewKey (ReviewEntry.Locale entry) (ReviewEntry.Device entry)
                                  (ReviewEntry.ScreenshotID entry))).
  fold (rawIndexReviewKey (ReviewEntry.Locale entry) (ReviewEntry.Device entry)
                          (ReviewEntry.ScreenshotID entry)) in Hrev.
  fold reviewKey in Hrev.
  split.
  - intros rawPath Hfirst.
    assert (Hne : rawPath <> "").
    { apply find_some in Hfirst as [Hin _].
      apply list_elem_of_In in Hin.
      exact (collectImageFiles_nonempty _ _ _ _ Hfiles Hin). }
    assert (Hpath : ReviewEntry.RawPath entry = rawPath).
    { unfold rawMatch, lookupString in Hraw. fold reviewKey in Hraw.
      rewrite Hrev, Hfirst in Hraw. cbn [default from_option id] in Hraw.
      apply String.eqb_neq in Hne. rewrite Hne in Hraw. congruence. }
    split; [exact Hpath|]. split; [exact Hne|].
    rewrite Hstatus, Hpath. apply String.eqb_neq in Hne. rewrite Hne.
    apply deriveReviewStatus_raw.
  - intros Hfirst Hnone.
    assert (Hpath : ReviewEntry.RawPath entry = "").
    { destruct (rawIndex !! rawIndexScreenshotKey (ReviewEntry.ScreenshotID entry))
        as [p|] eqn:Hid.
      - destruct (Hval _ _ Hid) as [Hin [Hk|Hk]].
        + exfalso. by apply (Hnone p Hin).
        + exfalso. unfold rawIndexScreenshotKey in Hk.
          by apply (reviewKeyOf_not_id rawDir p
                      (strings.TrimSpace (ReviewEntry.ScreenshotID entry))).
      - unfold rawMatch, lookupString in Hraw. fold reviewKey in Hraw.
        rewrite Hrev, Hfirst, Hid in Hraw. cbn in Hraw. congruence. }
    split; [exact Hpath|].
    rewrite Hstatus, Hpath. apply deriveReviewStatus_raw.
Qed.

(** What [GenerateReview] asks of the framed directory. *)
(** X28.  What [GenerateReview] asks of the framed directory.  With a
    context that is done it returns the context's error; with a framed
    directory that is empty or blank, "framed directory is required";
    with one that is a file, "framed directory must be a directory";
    with one that cannot be read, "read framed directory: cause"; and
    in each of these cases it writes nothing.  When it succeeds the
    framed directory is a directory and the result names its absolute
    path. *)
Theorem GenerateReview_needs_framed_directory (req : ReviewRequest.t) (d : Disk) :
  let framedDir := strings.TrimSpace (ReviewRequest.FramedDir req) in
  (forall why, ctxErr d = Some why ->
     GenerateReview req d = (Err (contextErrorText why), d))
  /\ (ctxErr d = None ->
      (framedDir = "" ->
       GenerateReview req d = (Err "framed directory is required", d))
      /\ (forall absFramedDir,
            framedDir <> "" -> absPath (workdir d) framedDir = Ok absFramedDir ->
            (statIsDir d absFramedDir = Ok false ->
             GenerateReview req d = (Err "framed directory must be a directory", d))
            /\ (forall cause, statIsDir d absFramedDir = Err cause ->
                  GenerateReview req d = (Err ("read framed directory: " ++ cause), d))
            /\ (forall result d', GenerateReview req d = (Ok result, d') ->
                  statIsDir d absFramedDir = Ok true
                  /\ ReviewResult.FramedDir result = absFramedDir))).
Proof.
  intros framedDir. split.
  - intros why Hctx. unfold GenerateReview. by rewrite Hctx.
  - intros Hctx. split.
    + intros Hblank. unfold GenerateReview. rewrite Hctx. fold framedDir.
      by rewrite Hblank.
    + intros absFramedDir Hne Habs.
      apply String.eqb_neq in Hne.
      conjs.
      * intros Hstat. unfold GenerateReview. rewrite Hctx. fold framedDir.
        by rewrite Hne, Habs, Hstat.
      * intros cause Hstat. unfold GenerateReview. rewrite Hctx. fold framedDir.
        by rewrite Hne, Habs, Hstat.
      * intros result d' Hrun.
        pose proof (GenerateReview_cases req d) as Hcase. rewrite Hrun in Hcase.
        inversion Hcase as [| |manifest html Hgen Hhtml Hresult]; subst.
        destruct Hgen as [_ Hframed _ Hdir _ _ _ _ _].
        fold framedDir in Hframed. rewrite Habs in Hframed.
        injection Hframed as ->. split; [exact Hdir|reflexivity].
Qed.

End Counterparts.

(** The framed home screen for fr/iPhone, over the raw captures of
    [rawDisk]: two raw files are named home, so only the review key
    finds its counterpart. *)
Lemma review_entry_raw_counterpart_witness :
  exists entry,
    @buildReviewEntry asciiLib noTables rawDisk "/framed" "/raw" true rawDiskIndex ∅
      "/framed/fr/iPhone/home.png" = Ok entry
    /\ ReviewEntry.RawPath entry = "/raw/fr/iPhone/home.png"
    /\ rawDiskIndex !! "id|home" = None
    /\ let rawFiles := ["/raw/en/iPhone/home.png"; "/raw/en/iPhone/settings.png";
                        "/raw/fr/iPhone/home.png"] in
       let reviewKey :=
         rawIndexReviewKey (ReviewEntry.Locale entry) (ReviewEntry.Device entry)
                           (ReviewEntry.ScreenshotID entry) in
       (forall rawPath,
          @firstWithReviewKey asciiLib "/raw" reviewKey rawFiles = Some rawPath ->
          ReviewEntry.RawPath entry = rawPath
          /\ rawPath <> ""
          /\ (ReviewEntry.Status entry = reviewStatusReady
              \/ ReviewEntry.Status entry = reviewStatusInvalidSize))
       /\ (@firstWithReviewKey asciiLib "/raw" reviewKey rawFiles = None ->
           (forall q, q ∈ rawFiles ->
                      idKeyOf q
                      <> rawIndexScreenshotKey (ReviewEntry.ScreenshotID entry)) ->
           ReviewEntry.RawPath entry = ""
           /\ (ReviewEntry.Status entry = reviewStatusMissingRaw
               \/ ReviewEntry.Status entry = reviewStatusMissingAndInvalid)).
Proof.
  eexists.
  split; [vm_compute; reflexivity|].
  split; [reflexivity|].
  split; [vm_compute; reflexivity|].
  eapply (@review_entry_raw_counterpart asciiLib noTables rawDisk
            "/framed" "/raw" "/framed/fr/iPhone/home.png" _ rawDiskIndex ∅ _);
    vm_compute; reflexivity.
Defined.

(** ** Links to local files *)

(** The bytes a path-only URL is made of: those [escape] leaves alone
    and the percent sign of an escape. *)
Definition urlByte (b : N) : bool := negb (url.shouldEscape b) || (b =? 37)%N.

Lemma hexDigit_urlByte n : urlByte (byte (url.hexDigit n)) = true.
Proof.
  unfold url.hexDigit. generalize (N.to_nat n) as k. intros k.
  do 16 (destruct k as [|k]; [reflexivity|]). reflexivity.
Qed.

Lemma escape_urlBytes s : allBytes urlByte (url.escape s) = true.
Proof.
  unfold allBytes. induction s as [|c s IH]; [reflexivity|].
  simpl. destruct (url.shouldEscape (byte c)) eqn:Hc; simpl.
  - rewrite !hexDigit_urlByte, IH. reflexivity.
  - rewrite IH. unfold urlByte. rewrite Hc. reflexivity.
Qed.

Lemma escape_plain s :
  allBytes (fun b => negb (url.shouldEscape b)) s = true -> url.escape s = s.
Proof.
  unfold allBytes. induction s as [|c s IH]; [reflexivity|].
  simpl. intros Hall. apply andb_true_iff in Hall as [Hc Hs].
  apply negb_true_iff in Hc. rewrite Hc, (IH Hs). reflexivity.
Qed.

Lemma pathOnlyURLPath_rooted rest :
  pathOnlyURLPath (String "/" rest) = String "/" rest.
Proof.
  unfold pathOnlyURLPath, filepath.ToSlash.
  destruct (_ && _ && _); reflexivity.
Qed.

Lemma pathString_rooted rest :
  url.pathString (String "/" rest) = String "/" (url.escape rest).
Proof.
  unfold url.pathString, url.EscapedPath.
  assert (Hstar : String.eqb (String "/" rest) "*" = false) by reflexivity.
  rewrite Hstar. cbn [url.escape]. 
  change (url.shouldEscape (byte "/")) with false. cbv iota.
  cbn [strings.Split]. rewrite Ascii.eqb_refl. reflexivity.
Qed.

(** X23.  With an absolute working directory, [localFileURL] of a
    blank path is empty, and of any other path it is the absolute path
    with the bytes that need it percent-escaped: it starts with a slash,
    it consists of letters, digits, the marks [-_.~], the reserved
    characters [$&+,/:;=@] and percent signs only, and it is the
    absolute path itself when that path needs no escape. *)
Theorem localFileURL_is_escaped_absolute_path (d : Disk) (wd path : string) :
  workdir d = Ok wd ->
  filepath.IsAbs wd = true ->
  (strings.TrimSpace path = "" -> localFileURL d path = "")
  /\ (strings.TrimSpace path <> "" ->
      exists absolute,
        absPath (workdir d) path = Ok absolute
        /\ localFileURL d path = url.escape absolute
        /\ strings.HasPrefix (localFileURL d path) "/" = true
        /\ allBytes urlByte (localFileURL d path) = true
        /\ (allBytes (fun b => negb (url.shouldEscape b)) absolute = true ->
            localFileURL d path = absolute)).
Proof.
  intros Hwd Habs. unfold localFileURL. split.
  - intros ->. reflexivity.
  - intros Hne. apply String.eqb_neq in Hne. rewrite Hne, Hwd.
    destruct (absPath_total wd path) as [absolute Ha]. rewrite Ha.
    exists absolute. split; [reflexivity|].
    pose proof (absPath_IsAbs _ _ _ _ eq_refl Habs Ha) as Hrooted.
    destruct (IsAbs_cons _ Hrooted) as [rest ->].
    rewrite pathOnlyURLPath_rooted, pathString_rooted.
    assert (Hesc : url.escape (String "/" rest) = String "/" (url.escape rest))
      by reflexivity.
    rewrite Hesc. conjs.
    + reflexivity.
    + apply (HasPrefix_app "/").
    + rewrite <- Hesc. apply escape_urlBytes.
    + rewrite <- Hesc. apply escape_plain.
Qed.

Lemma localFileURL_is_escaped_absolute_path_witness :
  (strings.TrimSpace "shots/home screen.png" = "" ->
   localFileURL framedDisk "shots/home screen.png" = "")
  /\ (strings.TrimSpace "shots/home screen.png" <> "" ->
      exists absolute,
        absPath (workdir framedDisk) "shots/home screen.png" = Ok absolute
        /\ localFileURL framedDisk "shots/home screen.png" = url.escape absolute
        /\ strings.HasPrefix (localFileURL framedDisk "shots/home screen.png") "/" = true
        /\ allBytes urlByte (localFileURL framedDisk "shots/home screen.png") = true
        /\ (allBytes (fun b => negb (url.shouldEscape b)) absolute = true ->
            localFileURL framedDisk "shots/home screen.png" = absolute)).
Proof.
  apply (localFileURL_is_escaped_absolute_path framedDisk "/work"
           "shots/home screen.png"); reflexivity.
Defined.

Example localFileURL_escapes_space :
  localFileURL framedDisk "shots/home screen.png" = "/work/shots/home%20screen.png".
Proof. vm_compute. reflexivity. Qed.

(** X24.  [pathOnlyURLPath] returns its argument or its argument
    after a slash; a path that starts with a slash is returned as it is;
    and applying it twice is applying it once. *)
Theorem pathOnlyURLPath_adds_at_most_a_slash (path : string) :
  (pathOnlyURLPath path = path \/ pathOnlyURLPath path = "/" ++ path)
  /\ (strings.HasPrefix path "/" = true -> pathOnlyURLPath path = path)
  /\ pathOnlyURLPath (pathOnlyURLPath path) = pathOnlyURLPath path.
Proof.
  assert (Hrooted : forall rest, pathOnlyURLPath ("/" ++ rest) = "/" ++ rest)
    by apply pathOnlyURLPath_rooted.
  assert (Hcases : pathOnlyURLPath path = path \/ pathOnlyURLPath path = "/" ++ path).
  { unfold pathOnlyURLPath, filepath.ToSlash.
    destruct (_ && _ && _); [|by left]. destruct (_ || _); [by right|by left]. }
  conjs.
  - exact Hcases.
  - intros Hp. destruct (IsAbs_cons path Hp) as [rest ->]. apply pathOnlyURLPath_rooted.
  - destruct Hcases as [Hc|Hc]; rewrite !Hc; [reflexivity|apply Hrooted].
Qed.

Section LedgerWrite.
Context `{GoLib}.

(** X25.  When [SaveApprovals] succeeds, the directory could be made
    and the file written, and the ledger, the one file whose contents
    change, is an object whose approved array holds, in byte-wise
    ascending order, the trimmed keys of the approved entries that are
    not blank.  When it fails, the error names the cause: the directory
    could not be made, "create approvals directory: cause", or, the
    directory made, the file could not be written, "write approvals
    file: cause". *)
Theorem SaveApprovals_writes_sorted_keys (path : string)
    (approvals : gmap string bool) (d : Disk) :
  let '(err, d') := SaveApprovals path approvals d in
  match err with
  | None =>
    exists keys,
      files d' = <[path := marshalWrapped keys]> (files d)
      /\ StronglySorted notAfter keys
      /\ (forall k, k ∈ keys
                    <-> k <> ""
                        /\ exists key, approvals !! key = Some true
                                       /\ strings.TrimSpace key = k)
      /\ mkdirAllError d (filepath.Dir path) = None
      /\ writeError d path = None
  | Some e =>
    (exists cause,
       mkdirAllError d (filepath.Dir path) = Some cause
       /\ e = "create approvals directory: " ++ cause)
    \/ (exists cause,
          mkdirAllError d (filepath.Dir path) = None
          /\ writeError d path = Some cause
          /\ e = "write approvals file: " ++ cause)
  end.
Proof.
  unfold SaveApprovals. fold (savedKeys approvals).
  destruct (mkdirAllError d (filepath.Dir path)) as [e|] eqn:Hmk;
    [left; by exists e|].
  destruct (writeError d path) as [e|] eqn:Hwr; [right; by exists e|].
  exists (savedKeys approvals). conjs.
  - reflexivity.
  - apply sort_Strings_sorted.
  - apply savedKeys_elem.
  - reflexivity.
  - reflexivity.
Qed.

End LedgerWrite.

(** ** The generation coalescer *)

Import Coalescer.

(** No run in flight: nothing pending, nothing under way, every caller
    gone. *)
Definition idle (c : Coalescer.t) : Prop :=
  running c = false /\ pending c = false /\ active c = 0%nat
  /\ forall th p, threads c !! th = Some p -> p = Returned.

(** A run in flight, owned by one thread, which is in its run or has
    just left it; every other caller is gone. *)
Definition owned (c : Coalescer.t) (owner : nat) : Prop :=
  running c = true
  /\ (threads c !! owner = Some InRun /\ active c = 1%nat
      \/ threads c !! owner = Some AfterRun /\ active c = 0%nat)
  /\ forall th p, th <> owner -> threads c !! th = Some p -> p = Returned.

(** The invariant of the coalescer. *)
Definition serial (c : Coalescer.t) : Prop := idle c \/ exists owner, owned c owner.

Lemma serial_init : serial init.
Proof.
  left. split; [done|split; [done|split; [done|]]].
  intros th p Hth. cbn in Hth. by rewrite lookup_empty in Hth.
Qed.

Lemma step_serial c e c' : serial c -> step c e = Some c' -> serial c'.
Proof.
  intros Hc Hstep. destruct e as [th|th|th]; simpl in Hstep.
  - destruct (threads c !! th) as [p|] eqn:Hth; [discriminate|].
    destruct Hc as [(Hr & Hp & Ha & Hall)|(o & Hr & Ho & Hall)].
    + rewrite Hr in Hstep. injection Hstep as <-. right. exists th.
      split; [done|]. simpl. split.
      * left. rewrite lookup_insert_eq, Ha. done.
      * intros th' p Hne. rewrite lookup_insert_ne by done. apply Hall.
    + rewrite Hr in Hstep. injection Hstep as <-. right. exists o.
      assert (th <> o) by (intros ->; destruct Ho as [[? _]|[? _]]; congruence).
      split; [done|]. simpl. split.
      * by rewrite lookup_insert_ne.
      * intros th' p Hne. destruct (decide (th' = th)) as [->|Hne'].
        -- rewrite lookup_insert_eq. congruence.
        -- rewrite lookup_insert_ne by done. by apply Hall.
  - destruct (threads c !! th) as [[| |]|] eqn:Hth; try discriminate.
    injection Hstep as <-.
    destruct Hc as [(Hr & Hp & Ha & Hall)|(o & Hr & Ho & Hall)].
    { by specialize (Hall _ _ Hth). }
    destruct (decide (th = o)) as [->|Hne]; [|by specialize (Hall _ _ Hne Hth)].
    right. exists o. split; [done|]. simpl. split.
    + right. rewrite lookup_insert_eq.
      destruct Ho as [[_ ->]|[? _]]; [done|congruence].
    + intros th' p Hne. rewrite lookup_insert_ne by done. by apply Hall.
  - destruct (threads c !! th) as [[| |]|] eqn:Hth; try discriminate.
    destruct Hc as [(Hr & Hp & Ha & Hall)|(o & Hr & Ho & Hall)].
    { by specialize (Hall _ _ Hth). }
    destruct (decide (th = o)) as [->|Hne]; [|by specialize (Hall _ _ Hne Hth)].
    assert (active c = 0%nat) as Ha by (destruct Ho as [[? _]|[_ ?]]; congruence).
    destruct (pending c); injection Hstep as <-.
    + right. exists o. split; [done|]. simpl. split.
      * left. rewrite lookup_insert_eq, Ha. done.
      * intros th' p Hne. rewrite lookup_insert_ne by done. by apply Hall.
    + left. repeat split; simpl; try done.
      intros th' p. destruct (decide (th' = o)) as [->|Hne].
      * rewrite lookup_insert_eq. congruence.
      * rewrite lookup_insert_ne by done. by apply Hall.
Qed.

Lemma run_serial events : forall c c',
  serial c -> run c events = Some c' -> serial c'.
Proof.
  induction events as [|e rest IH]; intros c c' Hc Hrun; simpl in Hrun.
  - congruence.
  - destruct (step c e) as [c1|] eqn:Hstep; [|discriminate].
    eapply IH; [|exact Hrun]. eapply step_serial; eauto.
Qed.

Lemma serial_exclusive c :
  serial c ->
  (active c <= 1)%nat
  /\ forall th1 th2, threads c !! th1 = Some InRun -> threads c !! th2 = Some InRun ->
       th1 = th2.
Proof.
  intros [(Hr & Hp & Ha & Hall)|(o & Hr & Ho & Hall)].
  - split; [lia|]. intros th1 th2 H1 _. by specialize (Hall _ _ H1).
  - split; [destruct Ho as [[_ ->]|[_ ->]]; lia|].
    intros th1 th2 H1 H2.
    destruct (decide (th1 = o)) as [->|Hne1]; [|by specialize (Hall _ _ Hne1 H1)].
    destruct (decide (th2 = o)) as [->|Hne2]; [done|by specialize (Hall _ _ Hne2 H2)].
Qed.

Lemma run_app events1 : forall c events2,
  run c (events1 ++ events2)
  = match run c events1 with Some c' => run c' events2 | None => None end.
Proof.
  induction events1 as [|e rest IH]; intros c events2; simpl; [done|].
  destruct (step c e); [apply IH|done].
Qed.

(** A burst of triggers while the owner is in a run: every caller returns
    at once, the run goes on, nothing is started, and the marker is set. *)
Lemma burst_during_run callers : forall c owner,
  running c = true ->
  threads c !! owner = Some InRun ->
  NoDup callers ->
  (forall th, th ∈ callers -> threads c !! th = None) ->
  exists c',
    run c (map Trigger callers) = Some c'
    /\ running c' = true
    /\ (callers <> [] -> pending c' = true)
    /\ (callers = [] -> pending c' = pending c)
    /\ threads c' !! owner = Some InRun
    /\ started c' = started c
    /\ active c' = active c
    /\ (forall th, th ∈ callers -> threads c' !! th = Some Returned)
    /\ (forall th p, threads c !! th = Some p -> threads c' !! th = Some p).
Proof.
  induction callers as [|th callers IH]; intros c owner Hr Ho Hnd Hfresh.
  - exists c. simpl. split; [done|]. split; [done|]. split; [done|].
    split; [done|]. split; [done|]. split; [done|]. split; [done|].
    split; [|done]. intros th Hth. by apply elem_of_nil in Hth.
  - simpl. rewrite (Hfresh th) by left. rewrite Hr.
    apply NoDup_cons in Hnd as [Hnotin Hnd].
    assert (th <> owner).
    { intros ->. rewrite (Hfresh owner) in Ho by left. discriminate. }
    edestruct (IH {| running := true; pending := true;
                     threads := <[th := Returned]> (threads c);
                     started := started c; active := active c |} owner)
      as (c' & Hrun & Hr' & Hp' & Hp0 & Ho' & Hs' & Ha' & Hret & Hkeep); simpl; try done.
    { by rewrite lookup_insert_ne. }
    { intros th' Hth'. rewrite lookup_insert_ne; [apply Hfresh; by right|].
      intros ->. done. }
    exists c'. split; [exact Hrun|]. split; [done|].
    split; [intros _; destruct callers; [by apply Hp0|by apply Hp']|].
    split; [done|]. split; [done|]. split; [done|]. split; [done|]. split.
    + intros th' Hth'. apply elem_of_cons in Hth' as [->|Hth']; [|by apply Hret].
      apply Hkeep. simpl. apply lookup_insert_eq.
    + intros th' p Hth'. apply Hkeep. simpl.
      rewrite lookup_insert_ne; [done|]. intros ->.
      rewrite (Hfresh th') in Hth' by left. discriminate.
Qed.

(** C4.  In every state the coalescer reaches, at most one run of [f] is
    under way.  When a burst of one or more triggers arrives while a run
    is under way, every caller of the burst returns at once, and once
    the run is over its owner starts exactly one more run, however many
    triggers the burst had; with no further trigger the coalescer is at
    rest after that run.  One trigger and three more during its run make
    two runs in all. *)
Theorem coalescer_serial_and_coalescing :
  (forall events c,
     run init events = Some c ->
     (active c <= 1)%nat
     /\ forall th1 th2, threads c !! th1 = Some InRun ->
          threads c !! th2 = Some InRun -> th1 = th2)
  /\ (forall events c owner callers,
        run init events = Some c ->
        threads c !! owner = Some InRun ->
        callers <> [] ->
        NoDup callers ->
        (forall th, th ∈ callers -> threads c !! th = None) ->
        exists c1 c2,
          run c (map Trigger callers ++ [Finish owner; Recheck owner])%list = Some c1
          /\ started c1 = S (started c)
          /\ threads c1 !! owner = Some InRun
          /\ pending c1 = false
          /\ (forall th, th ∈ callers -> threads c1 !! th = Some Returned)
          /\ run c1 [Finish owner; Recheck owner] = Some c2
          /\ started c2 = S (started c)
          /\ running c2 = false)
  /\ (exists c1 c2,
        run init [Trigger 0; Trigger 1; Trigger 2; Trigger 3]%nat = Some c1
        /\ started c1 = 1%nat /\ active c1 = 1%nat
        /\ run c1 [Finish 0; Recheck 0; Finish 0; Recheck 0]%nat = Some c2
        /\ started c2 = 2%nat /\ active c2 = 0%nat /\ running c2 = false).
Proof.
  conjs.
  - intros events c Hrun. apply serial_exclusive.
    eapply run_serial; [apply serial_init|exact Hrun].
  - intros events c owner callers Hrun Ho Hne Hnd Hfresh.
    assert (Hr : running c = true).
    { destruct (run_serial _ _ _ serial_init Hrun)
        as [(_ & _ & _ & Hall)|(o & Hr & _)]; [|done].
      by specialize (Hall _ _ Ho). }
    destruct (burst_during_run callers c owner Hr Ho Hnd Hfresh)
      as (cb & Hburst & Hrb & Hpb & _ & Hob & Hsb & Hab & Hret & _).
    specialize (Hpb Hne).
    rewrite run_app, Hburst. cbn [run step]. rewrite Hob.
    cbn [threads]. rewrite lookup_insert_eq. cbn [pending]. rewrite Hpb.
    do 2 eexists. split; [reflexivity|]. cbn.
    rewrite !lookup_insert_eq. cbn. rewrite !lookup_insert_eq. cbn.
    conjs; try done; try congruence.
    + intros th Hth.
      assert (th <> owner).
      { intros ->. rewrite (Hfresh owner Hth) in Ho. discriminate. }
      rewrite !lookup_insert_ne by done. by apply Hret.
    + cbn. congruence.
  - do 2 eexists. split; [vm_compute; reflexivity|].
    split; [reflexivity|]. split; [reflexivity|].
    split; [vm_compute; reflexivity|]. conjs; reflexivity.
Qed.
